(** * basket: subscription reconciliation and the resilient task layer

    A shallow embedding of the parts of [news/utils.py], [news/tasks.py] and
    [news/backends/sfdc.py] that compute newsletter deltas, upsert contacts,
    wrap functions as retryable Celery tasks and refresh Salesforce sessions.

    Python dictionaries are finite maps ([gmap]), Python sets are finite sets
    ([gset]), exceptions are an error result, and the effects of a task
    (metrics, rows written, upstream calls, scheduled retries) are appended to
    a log carried by an explicit state. *)

From Stdlib Require Import Ascii NArith ZArith QArith Lia.
From stdpp Require Import base option list gmap strings pretty fin_maps fin_sets.

(** ** Python string primitives used by the sources *)

Module Py.

Definition lower_char (c : ascii) : ascii :=
  let n := N_of_ascii c in
  if ((65 <=? n) && (n <=? 90))%N then ascii_of_N (n + 32) else c.

Definition upper_char (c : ascii) : ascii :=
  let n := N_of_ascii c in
  if ((97 <=? n) && (n <=? 122))%N then ascii_of_N (n - 32) else c.

Fixpoint map_chars (f : ascii → ascii) (s : string) : string :=
  match s with
  | EmptyString => EmptyString
  | String c t => String (f c) (map_chars f t)
  end.

(** [s.lower()] and [s.upper()] on byte strings. *)
Definition lower : string → string := map_chars lower_char.
Definition upper : string → string := map_chars upper_char.

(** [s.startswith(p)]. *)
Definition startswith (s p : string) : bool := String.prefix p s.

(** [needle in hay] on strings. *)
Fixpoint contains (needle hay : string) : bool :=
  String.prefix needle hay ||
  match hay with
  | EmptyString => false
  | String _ t => contains needle t
  end.

(** [s[:n]]. *)
Fixpoint take (n : nat) (s : string) : string :=
  match n, s with
  | S k, String c t => String c (take k t)
  | _, _ => EmptyString
  end.

Fixpoint lstrip (s : string) : string :=
  match s with
  | String c t => if Ascii.is_space c then lstrip t else s
  | EmptyString => EmptyString
  end.

(** [s.strip()]: leading and trailing white space removed. *)
Definition strip (s : string) : string :=
  String.rev (lstrip (String.rev (lstrip s))).

Fixpoint split_go (sep : ascii) (cur : string) (s : string) : list string :=
  match s with
  | EmptyString => [String.rev cur]
  | String c t =>
      if decide (c = sep) then String.rev cur :: split_go sep EmptyString t
      else split_go sep (String c cur) t
  end.

(** [s.split(sep)] for a one-character separator; never the empty list. *)
Definition split (sep : ascii) (s : string) : list string :=
  split_go sep EmptyString s.

(** [x in xs] for a list of strings. *)
Definition mem (x : string) (xs : list string) : bool := bool_decide (x ∈ xs).

End Py.

(** ** Values, exceptions and the effect log *)

(** The Python objects that flow through the modelled functions. *)
Inductive value :=
| VNone
| VBool (b : bool)
| VStr (s : string)
| VNum (n : Z)
| VList (l : list string)
| VFlags (m : gmap string bool).

(** Python truthiness, as tested by [if x:] and [x or y]. *)
Definition truthy (v : value) : bool :=
  match v with
  | VNone => false
  | VBool b => b
  | VStr s => negb (bool_decide (s = ""))
  | VNum n => negb (bool_decide (n = 0%Z))
  | VList l => negb (bool_decide (l = []))
  | VFlags m => negb (bool_decide (m = ∅))
  end.

(** [d.get(k)] followed by a truth test: a missing key is [None]. *)
Definition get_truthy (d : gmap string value) (k : string) : bool :=
  match d !! k with Some v => truthy v | None => false end.

(** A positional or keyword argument of a task. *)
Inductive arg :=
| AVal (v : value)
| ADict (d : gmap string value).

Inductive exn_class :=
| IOError | NewsletterException | ETRestError | BasketError
| KeyError | ValueError | TypeError | AttributeError | ZeroDivisionError
| MaxRetriesExceededError | Retry
| SalesforceExpiredSession | SalesforceAuthenticationFailed | SalesforceError.

Record exn := Exn { exn_cls : exn_class; exn_msg : string }.

Global Instance exn_class_eq_dec : EqDecision exn_class.
Proof. solve_decision. Defined.

Global Instance exn_eq_dec : EqDecision exn.
Proof. solve_decision. Defined.

Inductive result (A : Type) :=
| Ok (a : A)
| Raise (e : exn).
Arguments Ok {A} a.
Arguments Raise {A} e.

(** ** news/utils.py *)

Module Utils.

(** Constants naming the action to take on a list of newsletters. *)
Definition SUBSCRIBE : string := "SUBSCRIBE".
Definition UNSUBSCRIBE : string := "UNSUBSCRIBE".
Definition SET : string := "SET".

Definition MSG_USER_NOT_FOUND : string := "User not found".

(** [for nl in slugs: newsletter_map[nl] = flag]. *)
Definition mark (flag : bool) (slugs : list string)
    (newsletter_map : gmap string bool) : gmap string bool :=
  foldl (λ m nl, <[nl := flag]> m) newsletter_map slugs.

(** [set(cur_newsletters)], with [None] read as the empty set. *)
Definition cur_set (cur_newsletters : option (list string)) : gset string :=
  match cur_newsletters with
  | None => ∅
  | Some l => list_to_set l
  end.

Section parse.

(** [news.newsletters.newsletter_group_newsletter_slugs]: the member slugs of
    a group newsletter, [None] for a slug that names no group.  The table
    lives outside the modelled files and is a parameter here. *)
Variable newsletter_group_newsletter_slugs : string → option (list string).

(** The body of the [for nl in newsletters] loop of the SUBSCRIBE branch:
    a truthy group result is merged with [update], anything else adds the
    slug itself. *)
Definition group_step (grouped_newsletters : gset string) (nl : string)
    : gset string :=
  match newsletter_group_newsletter_slugs nl with
  | Some (g :: gs) => grouped_newsletters ∪ list_to_set (g :: gs)
  | _ => grouped_newsletters ∪ {[ nl ]}
  end.

Definition grouped (newsletters : list string) : gset string :=
  foldl group_step ∅ newsletters.

(** [parse_newsletters(api_call_type, newsletters, cur_newsletters)].
    Iterating a Python set has no fixed order; [elements] picks one, and the
    resulting map does not depend on it since one flag is written per loop. *)
Definition parse_newsletters (api_call_type : string)
    (newsletters : list string) (cur_newsletters : option (list string))
    : gmap string bool :=
  let newsletter_map : gmap string bool := ∅ in
  let cur_newsletters := cur_set cur_newsletters in
  let newsletters :=
    if bool_decide (api_call_type = SUBSCRIBE)
    then elements (grouped newsletters)
    else newsletters in
  let newsletter_map :=
    if bool_decide (api_call_type = SUBSCRIBE) || bool_decide (api_call_type = SET)
    then mark true newsletters newsletter_map
    else newsletter_map in
  if bool_decide (api_call_type = UNSUBSCRIBE) || bool_decide (api_call_type = SET)
  then
    let unsubs :=
      if bool_decide (api_call_type = SET)
      then
        if bool_decide (cur_newsletters ≠ ∅)
        then elements (cur_newsletters ∖ list_to_set newsletters)
        else []
      else newsletters in
    mark false unsubs newsletter_map
  else newsletter_map.

End parse.

End Utils.

(** ** Effects: the world a task runs in *)

(** The contact named by an upstream update: the record's own id, or the
    composite key ['{}/{}'.format(FIELD_MAP[fn], record[fn])]. *)
Inductive contact_ref :=
| ById (id : value)
| ByField (field : string) (key : value).

(** What a task does to the outside: metrics, rows of the local tables,
    messages put on the queue, writes to the upstream contact store. *)
Inductive event :=
| statsd_incr (stat : string)
| statsd_timing (stat : string)
| task_started (name : string) (retries : nat)
| QueuedTask_create (name : string) (args : list arg) (kwargs : gmap string arg)
| FailedTask_create (name : string) (args : list arg) (kwargs : gmap string arg)
    (exc : exn)
| apply_async (name : string) (args : list arg) (kwargs : gmap string arg)
    (countdown : nat) (retries : nat)
| send_message_delay (message_id : string) (email token : value) (format : string)
| contact_create (contact : gmap string value)
| contact_update (contact_id : contact_ref) (contact : gmap string value).

(** Process settings, the sources of outside data, and the log of effects
    so far (oldest first). *)
Record world := World {
  MAINTENANCE_MODE : bool;          (* settings.MAINTENANCE_MODE *)
  STORE_TASK_FAILURES : bool;       (* settings.STORE_TASK_FAILURES *)
  uuid4 : nat → string;             (* the successive values of str(uuid4()) *)
  minted : nat;                     (* how many of them were drawn *)
  contact_fault : nat → option exn; (* failure of the n-th upstream write *)
  log : list event
}.

Definition emit_to (ev : event) (w : world) : world :=
  World (MAINTENANCE_MODE w) (STORE_TASK_FAILURES w) (uuid4 w) (minted w)
    (contact_fault w) (log w ++ [ev]).

(** Computations over a state [W] that may raise: the exception leaves
    with the state reached so far. *)
Definition ST (W A : Type) : Type := W → result A * W.

Definition ret {W A} (a : A) : ST W A := λ w, (Ok a, w).

Definition raise {W A} (e : exn) : ST W A := λ w, (Raise e, w).

Definition bind {W A B} (m : ST W A) (k : A → ST W B) : ST W B :=
  λ w, match m w with
       | (Ok a, w') => k a w'
       | (Raise e, w') => (Raise e, w')
       end.

(** [try: m / except <classes matched by handles> as e: h e]. *)
Definition try_except {W A} (m : ST W A) (handles : exn → bool)
    (h : exn → ST W A) : ST W A :=
  λ w, match m w with
       | (Ok a, w') => (Ok a, w')
       | (Raise e, w') => if handles e then h e w' else (Raise e, w')
       end.

Definition lift {W A} (r : result A) : ST W A := λ w, (r, w).

Declare Scope task_scope.
Delimit Scope task_scope with task.
Notation "x ←! m ; k" := (bind m (λ x, k))
  (at level 100, m at next level, right associativity) : task_scope.
Notation "m ;! k" := (bind m (λ _, k))
  (at level 100, right associativity) : task_scope.
Local Open Scope task_scope.

(** Tasks run in the [world]. *)
Abbreviation M := (ST world).

Definition emit (ev : event) : M unit := λ w, (Ok tt, emit_to ev w).

Definition ask {A} (f : world → A) : M A := λ w, (Ok (f w), w).

(** [when c: m]. *)
Definition when {W} (c : bool) (m : ST W unit) : ST W unit :=
  if c then m else ret tt.

(** [for x in xs: body x], stopping at the first exception. *)
Fixpoint for_each {W A} (xs : list A) (body : A → ST W unit) : ST W unit :=
  match xs with
  | [] => ret tt
  | x :: rest => body x ;! for_each rest body
  end.

(** The same loop for a pure body that threads an accumulator. *)
Fixpoint fold_result {A S} (body : S → A → result S) (acc : S) (xs : list A)
    : result S :=
  match xs with
  | [] => Ok acc
  | x :: rest =>
      match body acc x with
      | Ok acc' => fold_result body acc' rest
      | Raise e => Raise e
      end
  end.

(** [generate_token()]: [str(uuid4())]. *)
Definition generate_token : M string :=
  λ w, (Ok (uuid4 w (minted w)),
        World (MAINTENANCE_MODE w) (STORE_TASK_FAILURES w) (uuid4 w)
          (S (minted w)) (contact_fault w) (log w)).

(** The number of upstream contact writes issued so far. *)
Definition is_contact_write (ev : event) : bool :=
  match ev with
  | contact_create _ | contact_update _ _ => true
  | _ => false
  end.

Definition contact_calls (evs : list event) : list event :=
  omap (λ ev, if is_contact_write ev then Some ev else None) evs.

Definition contact_writes (evs : list event) : nat :=
  length (contact_calls evs).

(** One call of the upstream contact store: the call is issued (and logged)
    and then succeeds or raises as the store decides. *)
Definition upstream_write (ev : event) : M unit :=
  λ w, let w' := emit_to ev w in
       match contact_fault w (contact_writes (log w)) with
       | Some e => (Raise e, w')
       | None => (Ok tt, w')
       end.

(** ** news/backends/sfdc.py *)

Module Sfdc.

Definition FIELD_MAP : gmap string string :=
  list_to_map
    [ ("id", "Id"); ("email", "Email"); ("first_name", "FirstName");
      ("last_name", "LastName"); ("format", "Email_Format__c");
      ("country", "MailingCountryCode"); ("lang", "Email_Language__c");
      ("token", "Token__c"); ("optin", "Double_Opt_In__c");
      ("source_url", "Signup_Source_URL__c"); ("created_date", "CreatedDate");
      ("last_modified_date", "LastModifiedDate") ].

(** [FIELD_MAP[fn]] for a key that is known to be there. *)
Definition FIELD_MAP_at (fn : string) : string := default "" (FIELD_MAP !! fn).

Section vendor.

(** [news.newsletters.newsletter_map()]: newsletter slug to the name of its
    flag field upstream.  The table lives outside the modelled files. *)
Variable newsletter_map : gmap string string.

(** [contact[news_map[k]] = v]; an unknown slug is a [KeyError]. *)
Definition set_flag (contact : gmap string value) (kv : string * bool)
    : result (gmap string value) :=
  match newsletter_map !! kv.1 with
  | Some field => Ok (<[field := VBool kv.2]> contact)
  | None => Raise (Exn KeyError kv.1)
  end.

(** [to_vendor(data)].  The loops run over dictionaries, whose order Python
    leaves open; [FIELD_MAP] is one-to-one, so the first loop does not depend
    on it. *)
Definition to_vendor (data : gmap string value) : result (gmap string value) :=
  let contact : gmap string value := {[ "Subscriber__c" := VBool true ]} in
  let contact :=
    map_fold (λ k v contact,
                match FIELD_MAP !! k with
                | Some field => <[field := v]> contact
                | None => contact
                end) contact data in
  match data !! "newsletters" with
  | None => Ok contact
  | Some newsletters =>
      if truthy newsletters then
        match newsletters with
        | VFlags m => fold_result set_flag contact (map_to_list m)
        | VList l => fold_result set_flag contact ((λ nl, (nl, true)) <$> l)
        | VStr s =>
            fold_result set_flag contact
              ((λ c, (String c EmptyString, true)) <$> String.list_ascii_of_string s)
        | _ => Raise (Exn TypeError "object is not iterable")
        end
      else Ok contact
  end.

(** [SFDC.add(data)]: [self.contact.create(to_vendor(data))]. *)
Definition add (data : gmap string value) : M unit :=
  contact ←! lift (to_vendor data);
  upstream_write (contact_create contact).

(** [SFDC.update(record, data)]. *)
Definition update (record data : gmap string value) : M unit :=
  contact_id ←!
    match record !! "id" with
    | Some id => ret (ById id)
    | None =>
        match record !! "token", record !! "email" with
        | Some token, _ => ret (ByField (FIELD_MAP_at "token") token)
        | None, Some email => ret (ByField (FIELD_MAP_at "email") email)
        | None, None => raise (Exn KeyError "id, token, or email required")
        end
    end;
  contact ←! lift (to_vendor data);
  upstream_write (contact_update contact_id contact).

End vendor.

(** *** The session-refreshing client *)

Record response := Response {
  status : nat;
  headers : gmap string string
}.

Record request := Request {
  req_session : string;
  req_method : string;
  req_url : string;
  req_kwargs : gmap string value
}.

Inductive sf_event :=
| sf_request (r : request)
| sf_login
| sf_incr (stat : string)
| sf_gauge (stat : string) (percentage : Q) (rate : Q).

(** A [RefreshingSFType] object: its session id, and what it did so far. *)
Record client := Client {
  session_id : string;
  sf_log : list sf_event
}.

Definition requests_sent (evs : list sf_event) : list request :=
  omap (λ ev, match ev with sf_request r => Some r | _ => None end) evs.

Definition is_login (ev : sf_event) : bool :=
  match ev with sf_login => true | _ => false end.

Definition logins_done (evs : list sf_event) : nat :=
  length (omap (λ ev, if is_login ev then Some ev else None) evs).

Section refreshing.

(** The upstream service: what the n-th HTTP request answers, and what the
    n-th login returns (session id and instance). *)
Variable salesforce : nat → request → result response.
Variable SalesforceLogin : nat → result (string * string).

(** Python's [float(s)]; [None] when the string is no number. *)
Variable float : string → option Q.

Definition sf_emit (ev : sf_event) : ST client unit :=
  λ c, (Ok tt, Client (session_id c) (sf_log c ++ [ev])).

(** [SFType._call_salesforce(method, url, **kwargs)] of the base class: one
    request carrying the object's current session id. *)
Definition SFType_call_salesforce (method url : string)
    (kwargs : gmap string value) : ST client response :=
  λ c, let r := Request (session_id c) method url kwargs in
       (salesforce (length (requests_sent (sf_log c))) r,
        Client (session_id c) (sf_log c ++ [sf_request r])).

(** [get_sf_session()]: a login with the configured credentials. *)
Definition get_sf_session : ST client (string * string) :=
  λ c, (SalesforceLogin (logins_done (sf_log c)),
        Client (session_id c) (sf_log c ++ [sf_login])).

Definition set_session_id (sid : string) : ST client unit :=
  λ c, (Ok tt, Client sid (sf_log c)).

(** [usage, limit = header.split('=')[1].split('/')], with any failure turned
    into [usage = limit = None]. *)
Definition usage_limit (header : string) : option (string * string) :=
  match Py.split "=" header with
  | _ :: part :: _ =>
      match Py.split "/" part with
      | [usage; limit] => Some (usage, limit)
      | _ => None
      end
  | _ => None
  end.

Definition report_limit (resp : response) : ST client unit :=
  match headers resp !! "sforce-limit-info" with
  | None => ret tt
  | Some header =>
      match usage_limit header with
      | Some (usage, limit) =>
          if bool_decide (usage = "") then ret tt
          else
            match float usage, float limit with
            | Some u, Some l =>
                if Qeq_bool l 0 then raise (Exn ZeroDivisionError "float division by zero")
                else sf_emit (sf_gauge "news.backends.sfdc.percent_daily_api_used"
                                (u / l * 100) (1 # 2))
            | _, _ => raise (Exn ValueError "could not convert string to float")
            end
      | None => ret tt
      end
  end.

(** [RefreshingSFType._call_salesforce(method, url, **kwargs)]. *)
Definition _call_salesforce (method url : string) (kwargs : gmap string value)
    : ST client response :=
  resp ←!
    try_except (SFType_call_salesforce method url kwargs)
      (λ e, bool_decide (exn_cls e = SalesforceExpiredSession))
      (λ _,
         session ←! get_sf_session;
         set_session_id session.1 ;!
         resp ←! SFType_call_salesforce method url kwargs;
         sf_emit (sf_incr "news.backends.sfdc.session_expired") ;!
         ret resp);
  report_limit resp ;!
  ret resp.

End refreshing.

End Sfdc.

(** ** news/tasks.py *)

Module Tasks.

(** Don't propagate and don't retry if these are the error messages. *)
Definition IGNORE_ERROR_MSGS : list string :=
  [ "InvalidEmailAddress"; "An invalid phone number was provided" ].

(** Don't propagate after max retries if these are the error messages. *)
Definition IGNORE_ERROR_MSGS_POST_RETRY : list string :=
  [ "There are no valid subscribers" ].

(** Tasks exempt from maintenance mode queuing. *)
Definition MAINTENANCE_EXEMPT : list string :=
  [ "news.tasks.add_fxa_activity"; "news.tasks.update_student_ambassadors";
    "news.tasks.add_sms_user"; "news.tasks.add_sms_user_optin" ].

(** *** ETTask *)

Definition default_retry_delay : nat := 60 * 5.
Definition max_retries : nat := 8.

Definition on_success (name : string) : M unit :=
  emit (statsd_incr (name +:+ ".success")) ;!
  emit (statsd_incr "news.tasks.success_total").

Definition on_failure (name : string) (exc : exn) (args : list arg)
    (kwargs : gmap string arg) : M unit :=
  emit (statsd_incr (name +:+ ".failure")) ;!
  emit (statsd_incr "news.tasks.failure_total") ;!
  store ←! ask STORE_TASK_FAILURES;
  when store (emit (FailedTask_create name args kwargs exc)).

Definition on_retry (name : string) : M unit :=
  emit (statsd_incr (name +:+ ".retry")) ;!
  emit (statsd_incr "news.tasks.retry_total").

(** Celery's [Task.retry(args, kwargs, countdown)] inside a worker, called
    without [exc]: past [max_retries] it raises [MaxRetriesExceededError];
    otherwise it sends the task again with the countdown and one more retry
    on its request, and raises [Retry] to leave the running call. *)
Definition retry (name : string) (retries : nat) (args : list arg)
    (kwargs : gmap string arg) (countdown : nat) : M value :=
  if bool_decide (max_retries < retries + 1)
  then raise (Exn MaxRetriesExceededError "Can't retry")
  else
    emit (apply_async name args kwargs countdown (retries + 1)) ;!
    raise (Exn Retry "Task can be retried").

(** *** et_task *)

(** [except (IOError, NewsletterException, ETRestError)]. *)
Definition is_transient (e : exn) : bool :=
  match exn_cls e with
  | IOError | NewsletterException | ETRestError => true
  | _ => false
  end.

(** [for ignore_msg in msgs: if ignore_msg in exc_msg: return]. *)
Definition ignored (msgs : list string) (exc_msg : string) : bool :=
  existsb (λ ignore_msg, Py.contains ignore_msg exc_msg) msgs.

Definition arg_truthy (a : arg) : bool :=
  match a with
  | AVal v => truthy v
  | ADict d => negb (bool_decide (d = ∅))
  end.

(** The test that sends a call to the queue table instead of running it. *)
Definition deferred (maintenance_mode : bool) (name : string) : bool :=
  maintenance_mode && negb (Py.mem name MAINTENANCE_EXEMPT).

(** The [try] block of [wrapped]: run [func], classify what it raises. *)
Definition attempt (name : string) (func : list arg → gmap string arg → M value)
    (retries : nat) (args : list arg) (kwargs : gmap string arg) : M value :=
  try_except (func args kwargs) is_transient
    (λ e,
       let exc_msg := exn_msg e in
       if ignored IGNORE_ERROR_MSGS exc_msg then ret VNone
       else
         try_except (retry name retries args kwargs (2 ^ retries * 60))
           (λ e', bool_decide (exn_cls e' = MaxRetriesExceededError))
           (λ _,
              emit (statsd_incr (name +:+ ".retry_max")) ;!
              emit (statsd_incr "news.tasks.retry_max_total") ;!
              if ignored IGNORE_ERROR_MSGS_POST_RETRY exc_msg then ret VNone
              else raise e)).

(** [et_task(func)]: the function [wrapped], for the task registered under
    [name] and a request that was retried [retries] times already. *)
Definition et_task (name : string) (func : list arg → gmap string arg → M value)
    (retries : nat) (args : list arg) (kwargs : gmap string arg) : M value :=
  let start_time := kwargs !! "start_time" in
  let kwargs := delete "start_time" kwargs in
  when (from_option arg_truthy false start_time)
    (emit (statsd_timing (name +:+ ".timing"))) ;!
  emit (statsd_incr (name +:+ ".total")) ;!
  emit (statsd_incr "news.tasks.all_total") ;!
  maintenance_mode ←! ask MAINTENANCE_MODE;
  if deferred maintenance_mode name then
    emit (QueuedTask_create name args kwargs) ;!
    emit (statsd_incr (name +:+ ".queued")) ;!
    ret VNone
  else attempt name func retries args kwargs.

(** *** The worker's side of a job *)

Inductive job_end :=
| Succeeded (v : value)
| Failed (e : exn).

(** One delivery of the task message: the worker runs the task and calls
    the handler that fits the outcome.  [None]: the task is to be retried. *)
Definition deliver (name : string) (func : list arg → gmap string arg → M value)
    (retries : nat) (args : list arg) (kwargs : gmap string arg)
    : M (option job_end) :=
  emit (task_started name retries) ;!
  λ w, match et_task name func retries args kwargs w with
       | (Ok v, w') => (on_success name ;! ret (Some (Succeeded v))) w'
       | (Raise e, w') =>
           if bool_decide (exn_cls e = Retry)
           then (on_retry name ;! ret None) w'
           else (on_failure name e args kwargs ;! ret (Some (Failed e))) w'
       end.

(** A job from its first delivery to its end: each scheduled retry is
    delivered in turn, with the arguments [retry] was given.  [None]: still
    pending after [fuel] deliveries. *)
Fixpoint run_job (fuel : nat) (name : string)
    (func : list arg → gmap string arg → M value)
    (retries : nat) (args : list arg) (kwargs : gmap string arg)
    : M (option job_end) :=
  match fuel with
  | O => ret None
  | S fuel' =>
      outcome ←! deliver name func retries args kwargs;
      match outcome with
      | Some e => ret (Some e)
      | None =>
          run_job fuel' name func (retries + 1) args (delete "start_time" kwargs)
      end
  end.

(** The countdowns of the retries scheduled in a log, and the number of
    deliveries it records. *)
Definition countdowns (evs : list event) : list nat :=
  omap (λ ev, match ev with
              | apply_async _ _ _ countdown _ => Some countdown
              | _ => None
              end) evs.

Definition deliveries (evs : list event) : nat :=
  length (omap (λ ev, match ev with task_started _ _ => Some tt | _ => None end) evs).

Definition queued (evs : list event)
    : list (string * list arg * gmap string arg) :=
  omap (λ ev, match ev with
              | QueuedTask_create name args kwargs => Some (name, args, kwargs)
              | _ => None
              end) evs.

Definition failures (evs : list event) : list (string * exn) :=
  omap (λ ev, match ev with
              | FailedTask_create name _ _ exc => Some (name, exc)
              | _ => None
              end) evs.

(** *** Contacts and welcome messages *)

(** The columns of [news.models.Newsletter] that the tasks read. *)
Record Newsletter := {
  slug : string;
  requires_double_optin : bool;
  welcome : string;
  language_list : list string
}.

(** [mogrify_message_id(message_id, lang, format)]; [lang] may be [None]. *)
Definition mogrify_message_id (message_id : string) (lang : option string)
    (format : string) : string :=
  let result :=
    match lang with
    | Some l =>
        if bool_decide (l = "") then message_id
        else Py.take 2 (Py.lower l) +:+ "_" +:+ message_id
    | None => message_id
    end in
  if bool_decide (format = "T") then result +:+ "_T" else result.

(** [bool(d)] for a dictionary. *)
Definition dict_truthy (d : gmap string value) : bool :=
  negb (bool_decide (d = ∅)).

(** [set(cur_newsletters)] accepts any iterable; [None] is tested first. *)
Definition as_slugs (v : value) : result (option (list string)) :=
  match v with
  | VNone => Ok None
  | VList l => Ok (Some l)
  | VStr s => Ok (Some ((λ c, String c EmptyString) <$> String.list_ascii_of_string s))
  | VFlags m => Ok (Some (map_to_list m).*1)
  | VBool _ | VNum _ => Raise (Exn TypeError "object is not iterable")
  end.

Section contacts.

(** Tables kept outside the modelled files: the rows of [Newsletter], the
    slug-to-field map and the group table. *)
Variable Newsletter_objects : list Newsletter.
Variable newsletter_map : gmap string string.
Variable newsletter_group_newsletter_slugs : string → option (list string).

(** [data.get('optin') or (user_data and user_data.get('optin'))]. *)
Definition optin_granted (data : gmap string value)
    (user_data : option (gmap string value)) : bool :=
  get_truthy data "optin" ||
  match user_data with
  | Some u => dict_truthy u && get_truthy u "optin"
  | None => false
  end.

(** [[nl for nl, sub in data['newsletters'].iteritems() if sub]]. *)
Definition to_subscribe (delta : gmap string bool) : list string :=
  (filter (λ kv, kv.2 = true) (map_to_list delta)).*1.

(** [Newsletter.objects.filter(slug__in=slugs,
    requires_double_optin=False).exists()]. *)
Definition exempt_from_confirmation (slugs : list string) : bool :=
  existsb (λ nl, Py.mem (slug nl) slugs && negb (requires_double_optin nl))
    Newsletter_objects.

(** [upsert_contact], up to the choice between create and update: the
    fields of [data] as they are written upstream. *)
Definition upsert_contact_fields (api_call_type : string)
    (data : gmap string value) (user_data : option (gmap string value))
    : result (gmap string value) :=
  match
    match data !! "format" with
    | None => Ok data
    | Some (VStr f) =>
        Ok (<["format" := VStr (if Py.startswith (Py.upper f) "T" then "T" else "H")]> data)
    | Some _ => Raise (Exn AttributeError "upper")
    end
  with
  | Raise e => Raise e
  | Ok data =>
      match
        match data !! "newsletters" with
        | None => Ok (Py.strip <$> Py.split "," "")
        | Some (VStr s) => Ok (Py.strip <$> Py.split "," s)
        | Some _ => Raise (Exn AttributeError "split")
        end
      with
      | Raise e => Raise e
      | Ok newsletters =>
          match
            match user_data with
            | Some u =>
                if dict_truthy u
                then as_slugs (default VNone (u !! "newsletters"))
                else Ok None
            | None => Ok None
            end
          with
          | Raise e => Raise e
          | Ok cur_newsletters =>
              let delta :=
                Utils.parse_newsletters newsletter_group_newsletter_slugs
                  api_call_type newsletters cur_newsletters in
              let data := <["newsletters" := VFlags delta]> data in
              if optin_granted data user_data then Ok data
              else
                Ok (<["optin" := VBool (exempt_from_confirmation (to_subscribe delta))]> data)
          end
      end
  end.

(** [return data['token'], created]. *)
Definition return_token (data : gmap string value) (created : bool)
    : M (value * bool) :=
  match data !! "token" with
  | Some token => ret (token, created)
  | None => raise (Exn KeyError "token")
  end.

(** [upsert_contact(api_call_type, data, user_data)]. *)
Definition upsert_contact (api_call_type : string) (data : gmap string value)
    (user_data : option (gmap string value)) : M (value * bool) :=
  data ←! lift (upsert_contact_fields api_call_type data user_data);
  match user_data with
  | None =>
      (* no user found. create new one. *)
      token ←! generate_token;
      let data := <["token" := VStr token]> data in
      Sfdc.add newsletter_map data ;!
      return_token data true
  | Some user_data =>
      (* update record *)
      token ←!
        match user_data !! "token" with
        | Some t => ret t
        | None => raise (Exn KeyError "token")
        end;
      data ←!
        (if truthy token then ret data
         else fresh ←! generate_token; ret (<["token" := VStr fresh]> data));
      Sfdc.update newsletter_map user_data data ;!
      return_token data false
  end.

(** The message id of one newsletter's welcome for a contact, [None] when
    the newsletter has no welcome: the body of the first loop of
    [send_welcomes]. *)
Definition welcome_of (lang format : string) (nl : Newsletter) : option string :=
  let welcome := Py.strip (welcome nl) in
  if bool_decide (welcome = "") then None
  else
    let languages := (λ lang, Py.lower (Py.take 2 lang)) <$> language_list nl in
    let lang_code := Py.lower (Py.take 2 lang) in
    let lang_code := if Py.mem lang_code languages then lang_code else "en" in
    Some (mogrify_message_id welcome (Some lang_code) format).

(** [user_data.get('lang', 'en')], which the slice needs to be a string. *)
Definition contact_lang (user_data : gmap string value) : result string :=
  match user_data !! "lang" with
  | None => Ok "en"
  | Some (VStr l) => Ok l
  | Some _ => Raise (Exn TypeError "object has no attribute '__getitem__'")
  end.

Definition collect_welcome (user_data : gmap string value) (format : string)
    (welcomes_to_send : gset string) (nl : Newsletter) : result (gset string) :=
  if bool_decide (Py.strip (welcome nl) = "") then Ok welcomes_to_send
  else
    match contact_lang user_data with
    | Raise e => Raise e
    | Ok lang =>
        Ok (welcomes_to_send ∪ from_option singleton ∅ (welcome_of lang format nl))
    end.

(** [send_welcomes(user_data, newsletter_slugs, format)]. *)
Definition send_welcomes (user_data : gmap string value)
    (newsletter_slugs : list string) (format : string) : M unit :=
  if bool_decide (newsletter_slugs = []) then ret tt
  else
    let newsletters :=
      filter (λ nl, slug nl ∈ newsletter_slugs) Newsletter_objects in
    welcomes_to_send ←!
      lift (fold_result (collect_welcome user_data format) ∅ newsletters);
    for_each (elements welcomes_to_send)
      (λ welcome,
         match user_data !! "email", user_data !! "token" with
         | Some email, Some token =>
             emit (send_message_delay welcome email token format)
         | None, _ => raise (Exn KeyError "email")
         | Some _, None => raise (Exn KeyError "token")
         end).

(** *** Student ambassadors *)

Definition FSA_FIELDS : list (string * string) :=
  [ ("EMAIL_ADDRESS", "Email"); ("TOKEN", "Token__c");
    ("FIRST_NAME", "FirstName"); ("LAST_NAME", "LastName");
    ("COUNTRY_", "MailingCountryCode"); ("STUDENTS_SCHOOL", "FSA_School__c");
    ("STUDENTS_GRAD_YEAR", "FSA_Grad_Year__c");
    ("STUDENTS_MAJOR", "FSA_Major__c"); ("STUDENTS_CITY", "FSA_City__c");
    ("STUDENTS_CURRENT_STATUS", "FSA_Current_Status__c");
    ("STUDENTS_ALLOW_SHARE", "FSA_Allow_Info_Shared__c") ].

(** [k, fn = item] for a string [item]: its characters are the values. *)
Definition unpack_pair (item : string) : result (string * string) :=
  match item with
  | String k (String fn EmptyString) =>
      Ok (String k EmptyString, String fn EmptyString)
  | String _ (String _ (String _ _)) =>
      Raise (Exn ValueError "too many values to unpack")
  | String _ EmptyString => Raise (Exn ValueError "need more than 1 value to unpack")
  | EmptyString => Raise (Exn ValueError "need more than 0 values to unpack")
  end.

(** The body of [for k, fn in FSA_FIELDS], for one item of the iteration. *)
Definition fsa_step (data update_data : gmap string value) (item : string)
    : result (gmap string value) :=
  match unpack_pair item with
  | Raise e => Raise e
  | Ok (k, fn) =>
      match data !! k with
      | None => Ok update_data
      | Some v =>
          if bool_decide (k = "STUDENTS_ALLOW_SHARE") then
            match v with
            | VStr s =>
                Ok (<[fn := VBool (Py.startswith (Py.lower s) "y")]> update_data)
            | _ => Raise (Exn AttributeError "lower")
            end
          else Ok (<[fn := v]> update_data)
      end
  end.

(** The function under [update_student_ambassadors], with the order in which
    the dictionary [FSA_FIELDS] hands out its keys made explicit. *)
Definition update_student_ambassadors_in (keys : list string)
    (data : gmap string value) (token : value) : M value :=
  let user_data : gmap string value := {[ "token" := token ]} in
  let data := <["TOKEN" := token]> data in
  update_data ←! lift (fold_result (fsa_step data) ∅ keys);
  Sfdc.update newsletter_map user_data update_data ;!
  ret VNone.

Definition update_student_ambassadors (data : gmap string value)
    (token : value) : M value :=
  update_student_ambassadors_in FSA_FIELDS.*1 data token.

End contacts.

End Tasks.

(** ** Observations used in the statements *)

(** The world after the events [evs] were appended to its log. *)
Definition logged (evs : list event) (w : world) : world :=
  World (MAINTENANCE_MODE w) (STORE_TASK_FAILURES w) (uuid4 w) (minted w)
    (contact_fault w) (log w ++ evs).

(** The counters [wrapped] emits on every call, before the maintenance test. *)
Definition submit_events (name : string) (kwargs : gmap string arg) : list event :=
  (if from_option Tasks.arg_truthy false (kwargs !! "start_time")
   then [statsd_timing (name +:+ ".timing")] else []) ++
  [statsd_incr (name +:+ ".total"); statsd_incr "news.tasks.all_total"].

(** A step of a task function that leaves the settings and the bookkeeping
    of the task layer (retries, deliveries, failure rows, queue rows) alone. *)
Definition quiet_step (w w' : world) : Prop :=
  MAINTENANCE_MODE w' = MAINTENANCE_MODE w ∧
  STORE_TASK_FAILURES w' = STORE_TASK_FAILURES w ∧
  Tasks.countdowns (log w') = Tasks.countdowns (log w) ∧
  Tasks.deliveries (log w') = Tasks.deliveries (log w) ∧
  Tasks.failures (log w') = Tasks.failures (log w) ∧
  Tasks.queued (log w') = Tasks.queued (log w).

(** [func] raises [e] whenever it is called with these arguments. *)
Definition always_fails (func : list arg → gmap string arg → M value)
    (args : list arg) (kwargs : gmap string arg) (e : exn) : Prop :=
  ∀ w, ∃ w', func args kwargs w = (Raise e, w') ∧ quiet_step w w'.

(** The delays of a job that is retried until the bound: [60 * 2^n] for
    the retry counts [n = 0 .. 7]. *)
Definition backoff_schedule : list nat :=
  (λ n, 60 * 2 ^ n) <$> seq 0 Tasks.max_retries.

(** The message ids handed to [send_message.delay] in a log, in order. *)
Definition sent_ids (evs : list event) : list string :=
  omap (λ ev, match ev with
              | send_message_delay message_id _ _ _ => Some message_id
              | _ => None
              end) evs.

(** The slugs a contact record lists as subscribed ([None]: no record). *)
Definition subscribed (user_data : option (gmap string value)) : list string :=
  match user_data with
  | Some u =>
      match u !! "newsletters" with
      | Some (VList l) => l
      | _ => []
      end
  | None => []
  end.

(** The end of [_call_salesforce] once a response is there: the rate-limit
    header is read and the response returned. *)
Definition finish (float : string → option Q) (resp : Sfdc.response)
    : ST Sfdc.client Sfdc.response :=
  bind (Sfdc.report_limit float resp) (λ _, ret resp).

(** ** Sample tables, contacts and requests *)

Module Sample.

Definition newsletters : list Tasks.Newsletter :=
  [ {| Tasks.slug := "mozilla-and-you"; Tasks.requires_double_optin := false;
       Tasks.welcome := "MoCo_Welcome"; Tasks.language_list := ["en"; "fr"; "de"] |};
    {| Tasks.slug := "firefox-tips"; Tasks.requires_double_optin := true;
       Tasks.welcome := " MoCo_Welcome "; Tasks.language_list := ["en-US"; "FR-fr"] |};
    {| Tasks.slug := "about-mozilla"; Tasks.requires_double_optin := true;
       Tasks.welcome := ""; Tasks.language_list := ["en"] |} ].

Definition newsletter_map : gmap string string :=
  list_to_map
    [ ("mozilla-and-you", "Sub_Mozilla_And_You__c");
      ("firefox-tips", "Sub_Firefox_Tips__c");
      ("about-mozilla", "Sub_About_Mozilla__c") ].

Definition groups (nl : string) : option (list string) :=
  if bool_decide (nl = "firefox") then Some ["mozilla-and-you"; "firefox-tips"]
  else None.

(** Maintenance off, failures stored, an upstream that accepts every write. *)
Definition w0 : world :=
  World false true (λ n, "uuid-" +:+ pretty n) 0 (λ _, None) [].

(** The same process during a maintenance window. *)
Definition w_maintenance : world :=
  World true true (λ n, "uuid-" +:+ pretty n) 0 (λ _, None) [].

(** A contact known upstream, subscribed to a newsletter that needs no
    confirmation, not opted in; as [get_user_data] returns it. *)
Definition known_contact : gmap string value :=
  list_to_map
    [ ("email", VStr "dude@example.com"); ("token", VStr "tok-1");
      ("format", VStr "H"); ("lang", VStr "fr"); ("country", VStr "");
      ("optin", VBool false); ("newsletters", VList ["mozilla-and-you"]);
      ("status", VStr "ok") ].

(** A request, by address, for the newsletter the contact has already. *)
Definition resubscribe : gmap string value :=
  list_to_map
    [ ("email", VStr "dude@example.com");
      ("newsletters", VStr "mozilla-and-you") ].

(** The fields [upsert_contact] writes for that request. *)
Definition resubscribe_fields : gmap string value :=
  <["optin" := VBool true]>
    (<["newsletters" := VFlags {[ "mozilla-and-you" := true ]}]> resubscribe).

Definition resubscribe_contact : gmap string value :=
  list_to_map
    [ ("Subscriber__c", VBool true); ("Email", VStr "dude@example.com");
      ("Double_Opt_In__c", VBool true);
      ("Sub_Mozilla_And_You__c", VBool true) ].

(** A task function that cannot reach its upstream. *)
Definition unreachable : list arg → gmap string arg → M value :=
  λ _ _, raise (Exn IOError "Connection timed out").

(** A task function that is told its address is malformed. *)
Definition bad_address : list arg → gmap string arg → M value :=
  λ _ _, raise (Exn NewsletterException "Error: InvalidEmailAddress for subscriber").

End Sample.

(** ** More of news/utils.py: languages and the block list *)

Module Languages.

(** [[A-Za-z]]. *)
Definition is_alpha (c : ascii) : bool :=
  let n := N_of_ascii c in
  (((65 <=? n) && (n <=? 90)) || ((97 <=? n) && (n <=? 122)))%N.

(** What may follow the letters of [LANG_RE]: the optional region
    [(?:-[a-z]{2})?] and then [$], which in Python also matches just before
    a newline that ends the string. *)
Definition region_and_end (rest : list ascii) : bool :=
  match rest with
  | [] => true
  | [nl] => bool_decide (nl = "010"%char)
  | dash :: d :: e :: rest' =>
      bool_decide (dash = "-"%char) && is_alpha d && is_alpha e &&
      match rest' with
      | [] => true
      | [nl] => bool_decide (nl = "010"%char)
      | _ => false
      end
  | _ => false
  end.

(** [LANG_RE.match(code)] for
    [LANG_RE = re.compile(r'^[a-z]{2,3}(?:-[a-z]{2})?$', re.IGNORECASE)]. *)
Definition LANG_RE_match (code : string) : bool :=
  match String.list_ascii_of_string code with
  | a :: b :: rest =>
      is_alpha a && is_alpha b &&
      (match rest with
       | c :: rest' => is_alpha c && region_and_end rest'
       | [] => false
       end || region_and_end rest)
  | _ => false
  end.

(** [language_code_is_valid(code)]; anything but a string is a [TypeError]. *)
Definition language_code_is_valid (code : value) : result bool :=
  match code with
  | VStr s => if bool_decide (s = "") then Ok true else Ok (LANG_RE_match s)
  | _ => Raise (Exn TypeError "Language code must be a string")
  end.

Section best.

(** [news.newsletters.newsletter_languages()]: the languages some newsletter
    is written in.  Kept outside the modelled files. *)
Variable newsletter_languages : gset string.

(** [get_best_language(languages)]; [None] for no languages at all. *)
Definition get_best_language (languages : list string) : option string :=
  match languages with
  | [] => None
  | first :: _ =>
      let languages_2l := Py.take 2 <$> languages in
      let supported_langs := newsletter_languages in
      Some (default first
              (List.find (λ lang, bool_decide (lang ∈ supported_langs))
                 (languages ++ languages_2l)))
  end.

End best.

End Languages.

Module BlockList.

(** [s.endswith(suffix)]: the suffix is [s] itself or ends the tail of [s]. *)
Fixpoint endswith (s suffix : string) : bool :=
  bool_decide (s = suffix) ||
  match s with
  | EmptyString => false
  | String _ t => endswith t suffix
  end.

(** The cache entry ['email_block_list'], the rows of [BlockedEmail], and the
    number of times the table was queried. *)
Record store := Store {
  cached : option (list string);
  BlockedEmail : list string;
  queries : nat
}.

(** [get_email_block_list()]. *)
Definition get_email_block_list : ST store (list string) :=
  λ st, match cached st with
        | Some block_list => (Ok block_list, st)
        | None =>
            let block_list := BlockedEmail st in
            (Ok block_list,
             Store (Some block_list) (BlockedEmail st) (S (queries st)))
        end.

(** [email_is_blocked(email)]. *)
Definition email_is_blocked (email : string) : ST store bool :=
  bind get_email_block_list
    (λ block_list, ret (existsb (λ blocked, endswith email blocked) block_list)).

End BlockList.

(** The subscriptions of a contact once a delta is applied to them. *)
Definition apply_delta (cur : gset string) (delta : gmap string bool)
    : gset string :=
  (cur ∪ dom (filter (λ kv, kv.2 = true) delta)) ∖
  dom (filter (λ kv, kv.2 = false) delta).

(** ** Reading contacts: the rest of news/backends/sfdc.py, and
    get_user_data and its users in news/utils.py and news/tasks.py *)

Module Contacts.

(** [a or b]. *)
Definition py_or (a b : value) : value := if truthy a then a else b.

(** [INV_FIELD_MAP = {v: k for k, v in FIELD_MAP.items()}]. *)
Definition INV_FIELD_MAP : gmap string string :=
  list_to_map (prod_swap <$> map_to_list Sfdc.FIELD_MAP).

Definition FIELD_DEFAULTS : gmap string value :=
  list_to_map [ ("format", VStr "H"); ("country", VStr ""); ("lang", VStr "") ].

Definition IGNORE_USER_FIELDS : list string :=
  [ "id"; "reason"; "source_url"; "fsa_school"; "fsa_grad_year"; "fsa_major";
    "fsa_city"; "fsa_current_status"; "fsa_allow_share" ].

Definition MSG_EMAIL_OR_TOKEN_REQUIRED : string :=
  "Must have valid token OR email for this request".

(** What a read of the contact store comes to: a value, or one of the
    exceptions [get_user_data] tells apart, or any other exception. *)
Inductive fetched (A : Type) :=
| Fetched (a : A)
| ResourceNotFound
| RequestException (msg : string)
| Failed (e : exn).
Arguments Fetched {A} a.
Arguments ResourceNotFound {A}.
Arguments RequestException {A} msg.
Arguments Failed {A} e.

Section read.

(** [news.newsletters.newsletter_inv_map()] and [newsletter_map()]: field
    name to slug and back.  Kept outside the modelled files. *)
Variable newsletter_inv_map : gmap string string.
Variable newsletter_map : gmap string string.

(** Exception objects of classes the task layer does not tell apart:
    a failed [assert], and the plain [Exception]. *)
Variable AssertionError : string → exn.
Variable Exception : string → exn.

(** The upstream's answer to [Contact.get_by_custom_id(id_field, value)]. *)
Variable get_by_custom_id : string → value → fetched (gmap string value).

(** The body of the loop of [from_vendor], on the pair of [data] and
    [newsletters]. *)
Definition from_vendor_step (fn : string) (fv : value)
    (acc : gmap string value * list string) : gmap string value * list string :=
  match INV_FIELD_MAP !! fn with
  | Some data_name =>
      let fv :=
        match FIELD_DEFAULTS !! data_name with
        | Some d => py_or fv d
        | None => fv
        end in
      (<[data_name := fv]> acc.1, acc.2)
  | None =>
      match newsletter_inv_map !! fn with
      | Some nl => if truthy fv then (acc.1, acc.2 ++ [nl]) else acc
      | None => acc
      end
  end.

(** [from_vendor(contact)].  The order of [newsletters] is the order in
    which the dictionary hands out its items. *)
Definition from_vendor (contact : gmap string value) : gmap string value :=
  let acc := map_fold from_vendor_step (∅, []) contact in
  <["newsletters" := VList acc.2]> acc.1.

(** [SFDC.get(token, email)]. *)
Definition get (token email : value) : fetched (gmap string value) :=
  if truthy (py_or token email) then
    let id_field := if truthy token then "Token__c" else "Email" in
    match get_by_custom_id id_field (py_or token email) with
    | Fetched contact => Fetched (from_vendor contact)
    | ResourceNotFound => ResourceNotFound
    | RequestException msg => RequestException msg
    | Failed e => Failed e
    end
  else Failed (AssertionError "token or email is required").

(** [get_user_data(token, email)]. *)
Definition get_user_data (token email : value)
    : result (option (gmap string value)) :=
  match get token email with
  | ResourceNotFound => Ok None
  | RequestException msg => Raise (Exn NewsletterException msg)
  | Failed e =>
      if bool_decide (exn_cls e = SalesforceAuthenticationFailed)
      then Raise (Exn NewsletterException "Email service provider auth failure")
      else Raise e
  | Fetched user =>
      let user := foldl (λ user fn, delete fn user) user IGNORE_USER_FIELDS in
      Ok (Some (<["status" := VStr "ok"]> user))
  end.

(** [user_data and user_data['status'] == 'ok']. *)
Definition found_ok (user_data : option (gmap string value)) : result bool :=
  match user_data with
  | None => Ok false
  | Some user =>
      if Tasks.dict_truthy user then
        match user !! "status" with
        | Some (VStr status) => Ok (bool_decide (status = "ok"))
        | Some _ => Ok false
        | None => Raise (Exn KeyError "status")
        end
      else Ok false
  end.

(** The record made up for an address that is not known upstream. *)
Definition new_user (email : value) (token : string) : gmap string value :=
  list_to_map
    [ ("email", email); ("token", VStr token); ("master", VBool false);
      ("pending", VBool false); ("confirmed", VBool false);
      ("lang", VStr ""); ("status", VStr "ok") ].

(** [get_or_create_user_data(token, email)]; the second component is
    [created], which may be [None]. *)
Definition get_or_create_user_data (token email : value)
    : M (option (gmap string value) * option bool) :=
  kwargs ←!
    (if truthy token then ret (token, VNone)
     else if truthy email then ret (VNone, email)
     else raise (Exception MSG_EMAIL_OR_TOKEN_REQUIRED));
  user_data ←! lift (get_user_data kwargs.1 kwargs.2);
  found ←! lift (found_ok user_data);
  if found then ret (user_data, Some false)
  else if truthy email then
    fresh ←! generate_token;
    ret (Some (new_user email fresh), Some true)
  else ret (None, None).

(** *** Tasks that read the contact first (news/tasks.py) *)

Variable Newsletter_objects : list Tasks.Newsletter.
Variable newsletter_group_newsletter_slugs : string → option (list string).

(** The function under [upsert_user(api_call_type, data)]. *)
Definition upsert_user (api_call_type : string) (data : gmap string value)
    : M (value * bool) :=
  user_data ←!
    lift (get_user_data (default VNone (data !! "token"))
            (default VNone (data !! "email")));
  Tasks.upsert_contact Newsletter_objects newsletter_map
    newsletter_group_newsletter_slugs api_call_type data user_data.

(** The function under the legacy [update_user(data, email, token,
    api_call_type, optin)]; [optin] may be [None]. *)
Definition update_user (data : gmap string value) (email token : value)
    (api_call_type : string) (optin : value) : M (value * bool) :=
  let data :=
    match optin with
    | VNone => data
    | _ => <["optin" := optin]> data
    end in
  user_data ←! lift (get_user_data token email);
  Tasks.upsert_contact Newsletter_objects newsletter_map
    newsletter_group_newsletter_slugs api_call_type data user_data.

(** The function under [confirm_user(token)]. *)
Definition confirm_user (token : value) : M value :=
  user_data ←! lift (get_user_data token VNone);
  match user_data with
  | None => raise (Exn BasketError Utils.MSG_USER_NOT_FOUND)
  | Some user_data =>
      optin ←!
        match user_data !! "optin" with
        | Some optin => ret optin
        | None => raise (Exn KeyError "optin")
        end;
      if truthy optin then ret VNone (* already confirmed *)
      else if negb (get_truthy user_data "email")
      then raise (Exn BasketError "token has no email in ET")
      else
        Sfdc.update newsletter_map user_data {[ "optin" := VBool true ]} ;!
        ret VNone
  end.

(** The function under [update_custom_unsub(token, reason)]. *)
Definition update_custom_unsub (token reason : value) : M value :=
  Sfdc.update newsletter_map {[ "token" := token ]}
    {[ "Unsubscribe_Reason__c" := reason ]} ;!
  ret VNone.

End read.

End Contacts.

(** [fv or FIELD_DEFAULTS[k]] where the field [k] has a default, [fv]
    elsewhere: the value [from_vendor] stores for a field. *)
Definition defaulted (k : string) (fv : value) : value :=
  match Contacts.FIELD_DEFAULTS !! k with
  | Some d => Contacts.py_or fv d
  | None => fv
  end.

(** The entry of [to_vendor(data)] under the upstream field [f], before the
    newsletter flags are set: the value of the local field [f] translates,
    and the subscriber flag. *)
Definition vendor_field (data : gmap string value) (f : string) : option value :=
  match Contacts.INV_FIELD_MAP !! f with
  | Some k => data !! k
  | None => if bool_decide (f = "Subscriber__c") then Some (VBool true) else None
  end.

(** ** What a computation adds to the log *)

(** [m] adds nothing to the log. *)
Definition silent {A} (m : M A) : Prop := ∀ w, log (m w).2 = log w.

(** [m] adds nothing to the log, or one event, which satisfies [P]. *)
Definition writes_once {A} (P : event → Prop) (m : M A) : Prop :=
  ∀ w, log (m w).2 = log w ∨ ∃ ev, P ev ∧ log (m w).2 = log w ++ [ev].

(** ** A sample contact store *)

Module Store.

(** The inverse of [Sample.newsletter_map]. *)
Definition newsletter_inv_map : gmap string string :=
  list_to_map
    [ ("Sub_Mozilla_And_You__c", "mozilla-and-you");
      ("Sub_Firefox_Tips__c", "firefox-tips");
      ("Sub_About_Mozilla__c", "about-mozilla") ].

(** The one contact the store holds, as the upstream returns it. *)
Definition stored : gmap string value :=
  list_to_map
    [ ("Id", VStr "003A000001"); ("Email", VStr "dude@example.com");
      ("Token__c", VStr "tok-1"); ("Email_Format__c", VNone);
      ("Email_Language__c", VStr "fr"); ("MailingCountryCode", VNone);
      ("Double_Opt_In__c", VBool false);
      ("Signup_Source_URL__c", VStr "https://www.mozilla.org/");
      ("Sub_Mozilla_And_You__c", VBool true);
      ("Sub_Firefox_Tips__c", VBool false) ].

Definition get_by_custom_id (id_field : string) (key : value)
    : Contacts.fetched (gmap string value) :=
  match key with
  | VStr k =>
      if bool_decide ((id_field, k) = ("Token__c", "tok-1")) ||
         bool_decide ((id_field, k) = ("Email", "dude@example.com"))
      then Contacts.Fetched stored
      else Contacts.ResourceNotFound
  | _ => Contacts.ResourceNotFound
  end.

(** A store that cannot be reached. *)
Definition offline (id_field : string) (key : value)
    : Contacts.fetched (gmap string value) :=
  Contacts.RequestException "Connection refused".

(** Stand-ins for the objects a failed [assert] and a plain [Exception]
    raise; their classes are none of those the task layer retries. *)
Definition AssertionError (msg : string) : exn := Exn ValueError msg.
Definition Exception (msg : string) : exn := Exn ValueError msg.

(** The contact as [get_user_data] hands it out. *)
Definition user : gmap string value :=
  list_to_map
    [ ("email", VStr "dude@example.com"); ("token", VStr "tok-1");
      ("format", VStr "H"); ("lang", VStr "fr"); ("country", VStr "");
      ("optin", VBool false); ("newsletters", VList ["mozilla-and-you"]);
      ("status", VStr "ok") ].

(** A task function that rejects its arguments. *)
Definition rejected : list arg → gmap string arg → M value :=
  λ _ _, raise (Exn BasketError "User not found").

(** A task function that has nothing to report. *)
Definition done : list arg → gmap string arg → M value :=
  λ _ _, ret VNone.

End Store.

(** ** news/backends/sfmc.py *)

Module Sfmc.

(** What the calls read of an answer of the upstream: [resp.status] and
    [str(resp.results)]. *)
Record response := Response {
  status : bool;
  results : string
}.

(** An entry of [ts.subscribers]. *)
Record subscriber := Subscriber {
  EmailAddress : value;
  SubscriberKey : value;
  EmailTypePreference : string;
  Attributes : list (gmap string value)
}.

(** The requests of the client: [row.post()] and [row.patch(upsert)] on a
    row of the data extension [de_name], and [ts.send()] of the triggered
    send with the given [CustomerKey]. *)
Inductive call :=
| row_post (de_name : string) (props : gmap string value)
| row_patch (de_name : string) (props : gmap string value) (upsert : bool)
| ts_send (CustomerKey : string) (attributes : list (gmap string value))
    (subscribers : list subscriber).

(** The client: what the upstream makes of the n-th request, an answer or an
    exception of the library, and the requests sent so far. *)
Record client := Client {
  answer : nat → call → result response;
  calls : list call
}.

Definition send (c : call) : ST client response :=
  λ cl, (answer cl (length (calls cl)) c, Client (answer cl) (calls cl ++ [c])).

Definition assert_response (resp : response) : ST client unit :=
  if status resp then ret tt
  else raise (Exn NewsletterException (results resp)).

(** [[{'Name': key, 'Value': value} for key, value in data.items()]]. *)
Definition build_attributes (data : gmap string value)
    : list (gmap string value) :=
  (λ kv, {[ "Name" := VStr kv.1; "Value" := kv.2 ]}) <$> map_to_list data.

Definition add_row (de_name : string) (values : gmap string value)
    : ST client unit :=
  resp ←! send (row_post de_name values);
  assert_response resp.

Definition update_row (de_name : string) (values : gmap string value)
    : ST client unit :=
  resp ←! send (row_patch de_name values false);
  assert_response resp.

Definition upsert_row (de_name : string) (values : gmap string value)
    : ST client unit :=
  resp ←! send (row_patch de_name values true);
  assert_response resp.

(** ['HTML' if format == 'H' else 'Text']. *)
Definition type_preference (format : value) : string :=
  match format with
  | VStr f => if bool_decide (f = "H") then "HTML" else "Text"
  | _ => "Text"
  end.

Definition send_mail (ts_name : string) (email token format : value)
    : ST client unit :=
  let attributes :=
    build_attributes {[ "TOKEN" := token; "EMAIL_FORMAT_" := format ]} in
  let subscribers :=
    [ Subscriber email token (type_preference format) attributes ] in
  resp ←! send (ts_send ts_name attributes subscribers);
  assert_response resp.

End Sfmc.

(** ** The tasks that talk to the mail service (news/tasks.py) *)

Module Mailing.

(** A call of [send_message.delay(message_id, email, token, format)]. *)
Record message := Message {
  message_id : string;
  to_email : value;
  to_token : value;
  in_format : value
}.

(** A call of [interest.notify_stewards(name, email, lang, message)]. *)
Record notice := Notice {
  about : value;
  from_name : value;
  from_email : value;
  from_lang : value;
  text : value
}.

(** The process as these tasks see it: the world of the other tasks, the
    mail client, the cache of message ids known to be bad, the clock behind
    [gmttime()], the messages put on the queue and the notices sent. *)
Record desk := Desk {
  base : world;
  sfmc : Sfmc.client;
  BAD_MESSAGE_ID_CACHE : gset string;
  clock : nat → string;
  clock_reads : nat;
  delayed : list message;
  notified : list notice
}.

Abbreviation D := (ST desk).

Definition in_world {A} (m : M A) : D A :=
  λ d, let (r, w) := m (base d) in
       (r, Desk w (sfmc d) (BAD_MESSAGE_ID_CACHE d) (clock d) (clock_reads d)
             (delayed d) (notified d)).

Definition in_sfmc {A} (m : ST Sfmc.client A) : D A :=
  λ d, let (r, cl) := m (sfmc d) in
       (r, Desk (base d) cl (BAD_MESSAGE_ID_CACHE d) (clock d) (clock_reads d)
             (delayed d) (notified d)).

(** [BAD_MESSAGE_ID_CACHE.set(message_id, True)], for a cache that keeps
    what it is given. *)
Definition cache_bad (message_id : string) : D unit :=
  λ d, (Ok tt,
        Desk (base d) (sfmc d) ({[ message_id ]} ∪ BAD_MESSAGE_ID_CACHE d)
          (clock d) (clock_reads d) (delayed d) (notified d)).

(** [gmttime()]: one reading of the clock. *)
Definition gmttime : D string :=
  λ d, (Ok (clock d (clock_reads d)),
        Desk (base d) (sfmc d) (BAD_MESSAGE_ID_CACHE d) (clock d)
          (S (clock_reads d)) (delayed d) (notified d)).

Definition delay (msg : message) : D unit :=
  λ d, (Ok tt,
        Desk (base d) (sfmc d) (BAD_MESSAGE_ID_CACHE d) (clock d)
          (clock_reads d) (delayed d ++ [msg]) (notified d)).

Definition notify_stewards (n : notice) : D unit :=
  λ d, (Ok tt,
        Desk (base d) (sfmc d) (BAD_MESSAGE_ID_CACHE d) (clock d)
          (clock_reads d) (delayed d) (notified d ++ [n])).

(** [apply_updates(database, record)]. *)
Definition apply_updates (database : string) (record : gmap string value)
    : D unit :=
  in_sfmc (Sfmc.upsert_row database record).

(** The function under [send_message(message_id, email, token, format)]. *)
Definition send_message (message_id : string) (email token format : value)
    : D value :=
  λ d,
    if bool_decide (message_id ∈ BAD_MESSAGE_ID_CACHE d) then (Ok VNone, d)
    else
      try_except
        (in_sfmc (Sfmc.send_mail message_id email token format) ;! ret VNone)
        (λ e, bool_decide (exn_cls e = NewsletterException))
        (λ e,
           if Py.contains "Invalid Customer Key" (exn_msg e)
           then cache_bad message_id ;! ret VNone
           else raise e) d.

(** The function under [add_sms_user_optin(mobile_number)]. *)
Definition add_sms_user_optin (mobile_number : value) : D value :=
  in_sfmc (Sfmc.add_row "Mobile_Subscribers"
             {[ "Phone" := mobile_number; "SubscriberKey" := mobile_number ]}) ;!
  ret VNone.

(** Calls of [send_message], each run to its end in turn, as the worker
    runs the deliveries of one process. *)
Definition run_sends (sends : list message) (d : desk) : desk :=
  foldl (λ d m,
           (send_message (message_id m) (to_email m) (to_token m) (in_format m) d).2)
    d sends.

(** The triggered sends for one message id among the requests. *)
Definition sends_of (id : string) (cs : list Sfmc.call) : list Sfmc.call :=
  omap (λ c, match c with
             | Sfmc.ts_send key _ _ => if bool_decide (key = id) then Some c else None
             | _ => None
             end) cs.

(** [format == 'T'], the one thing [mogrify_message_id] asks of a format. *)
Definition format_key (format : value) : string :=
  match format with
  | VStr f => f
  | _ => ""
  end.

(** [x in v] for a string [x]. *)
Definition py_in (x : string) (v : value) : result bool :=
  match v with
  | VList l => Ok (Py.mem x l)
  | VStr s => Ok (Py.contains x s)
  | VFlags m => Ok (bool_decide (is_Some (m !! x)))
  | VNone | VBool _ | VNum _ => Raise (Exn TypeError "object is not iterable")
  end.

(** The columns of [news.models.Newsletter] that [send_confirm_notice]
    reads beside those of [Tasks.Newsletter]. *)
Record Newsletter := {
  columns : Tasks.Newsletter;
  confirm_message : string
}.

(** The columns of [news.models.Interest] read here. *)
Record Interest := {
  welcome_id : string
}.

Definition CONFIRMATION_MESSAGE : string := "confirmation_email".
Definition RECOVERY_MESSAGE_ID : string := "recovery_message".

Section tasks.

(** Kept outside the modelled files: the test of
    [news.newsletters.is_supported_newsletter_language], the rows of
    [Newsletter] and of [Interest], the settings, and what
    [get_user_data] needs. *)
Variable is_supported_newsletter_language : string → bool.
Variable Newsletter_objects : list Newsletter.
Variable Interest_objects : value → option Interest.
Variable EXACTTARGET_DATA EXACTTARGET_INTERESTS : string.
Variable RECOVER_MSG_LANGS : list string.
Variable newsletter_inv_map : gmap string string.
Variable AssertionError : string → exn.
Variable get_by_custom_id : string → value → Contacts.fetched (gmap string value).

(** [send_confirm_notice(email, token, lang, format, newsletter_slugs)];
    [lang] may be [None]. *)
Definition send_confirm_notice (email token : value) (lang : option string)
    (format : string) (newsletter_slugs : list string) : M unit :=
  let lang :=
    match lang with
    | Some l => if bool_decide (l = "") then "en" else l
    | None => "en"
    end in
  if negb (is_supported_newsletter_language lang) then
    raise (Exn BasketError
             ("Cannot send confirmation in unsupported language '" +:+ lang +:+ "'."))
  else
    let newsletters :=
      take 1 (filter (λ nl, confirm_message nl ≠ "")
                (filter (λ nl, Tasks.slug (columns nl) ∈ newsletter_slugs)
                   Newsletter_objects)) in
    let welcome :=
      match newsletters with
      | nl :: _ => confirm_message nl
      | [] => CONFIRMATION_MESSAGE
      end in
    let welcome := Tasks.mogrify_message_id welcome (Some lang) format in
    emit (send_message_delay welcome email token format).

(** [user_data[k]]. *)
Definition item (user_data : gmap string value) (k : string) : D value :=
  match user_data !! k with
  | Some v => ret v
  | None => raise (Exn KeyError k)
  end.

(** The function under [send_recovery_message_task(email)]. *)
Definition send_recovery_message_task (email : value) : D value :=
  user_data ←! lift (Contacts.get_user_data newsletter_inv_map AssertionError
                       get_by_custom_id VNone email);
  match user_data with
  | None => ret VNone
  | Some user_data =>
      if negb (Tasks.dict_truthy user_data) then ret VNone
      else
        (* make sure we have a language and format, no matter what ET returned *)
        let lang :=
          Contacts.py_or (default (VStr "en") (user_data !! "lang")) (VStr "en") in
        let format :=
          Contacts.py_or (default (VStr "H") (user_data !! "format")) (VStr "H") in
        let lang :=
          match lang with
          | VStr l => if Py.mem l RECOVER_MSG_LANGS then l else "en"
          | _ => "en"
          end in
        token ←! item user_data "token";
        address ←! item user_data "email";
        in_sfmc (Sfmc.upsert_row EXACTTARGET_DATA
                   {[ "TOKEN" := token; "EMAIL_ADDRESS_" := address;
                      "EMAIL_FORMAT_" := format ]}) ;!
        let message_id :=
          Tasks.mogrify_message_id RECOVERY_MESSAGE_ID (Some lang)
            (format_key format) in
        token ←! item user_data "token";
        delay (Message message_id email token format) ;!
        ret VNone
  end.

(** The language as a value: [None] or a string. *)
Definition lang_value (lang : option string) : value :=
  match lang with
  | Some l => VStr l
  | None => VNone
  end.

(** The function under [update_get_involved(interest_id, lang, name, email,
    country, email_format, subscribe, message, source_url)]; [lang] may be
    [None], and [email_format] is a string, as [upper()] needs it.  The
    call of [parse_newsletters] passes four arguments to a function of
    three parameters, which Python answers with a [TypeError] before the
    function is entered. *)
Definition update_get_involved (interest_id : value) (lang : option string)
    (name email country : value) (email_format : string)
    (subscribe message source_url : value) : D value :=
  match Interest_objects interest_id with
  | None => ret VNone (* invalid request; no need to raise exception and retry *)
  | Some interest =>
      let email_format :=
        if Py.startswith (Py.upper email_format) "T" then "T" else "H" in
      (* Get the user's current settings from ET, if any *)
      user ←! lift (Contacts.get_user_data newsletter_inv_map AssertionError
                      get_by_custom_id VNone email);
      let user_found := from_option Tasks.dict_truthy false user in
      let user_dict := default ∅ user in
      modified ←! gmttime;
      let record : gmap string value :=
        {[ "EMAIL_ADDRESS_" := email; "MODIFIED_DATE_" := VStr modified;
           "LANGUAGE_ISO2" := lang_value lang; "COUNTRY_" := country;
           "GET_INVOLVED_FLG" := VStr "Y" ]} in
      token_record ←!
        (if user_found then
           token ←! item user_dict "token";
           listed ←! lift (py_in "get-involved"
                             (default (VList []) (user_dict !! "newsletters")));
           if negb listed then
             now ←! gmttime;
             ret (token, <["GET_INVOLVED_DATE" := VStr now]> record)
           else ret (token, record)
         else
           token ←! in_world generate_token;
           let record := <["EMAIL_FORMAT_" := VStr email_format]> record in
           now ←! gmttime;
           let record := <["GET_INVOLVED_DATE" := VStr now]> record in
           (* only want source url for first contact *)
           let record :=
             if truthy source_url then <["SOURCE_URL" := source_url]> record
             else record in
           ret (VStr token, record));
      let token := token_record.1 in
      let record := <["TOKEN" := token]> token_record.2 in
      to_subscribe ←!
        (if truthy subscribe then
           cur_newsletters ←!
             (if user_found
              then lift (Tasks.as_slugs (default VNone (user_dict !! "newsletters")))
              else ret None);
           raise (A := option (list string))
             (Exn TypeError "parse_newsletters() takes exactly 3 arguments (4 given)")
         else ret None);
      apply_updates EXACTTARGET_DATA record ;!
      apply_updates EXACTTARGET_INTERESTS
        {[ "TOKEN" := token; "INTEREST" := interest_id ]} ;!
      let welcome_id :=
        Tasks.mogrify_message_id (welcome_id interest) lang email_format in
      delay (Message welcome_id email token (VStr email_format)) ;!
      notify_stewards (Notice interest_id name email (lang_value lang) message) ;!
      match to_subscribe with
      | Some (nl :: slugs) =>
          let user :=
            if user_found then user_dict
            else {[ "email" := email; "token" := token;
                    "lang" := lang_value lang ]} in
          in_world (Tasks.send_welcomes (columns <$> Newsletter_objects) user
                      (nl :: slugs) email_format) ;!
          ret VNone
      | _ => ret VNone
      end
  end.

End tasks.

End Mailing.

(** The request [send_mail] makes for given arguments. *)
Definition mail_request (ts_name : string) (email token format : value)
    : Sfmc.call :=
  let attributes :=
    Sfmc.build_attributes {[ "TOKEN" := token; "EMAIL_FORMAT_" := format ]} in
  Sfmc.ts_send ts_name attributes
    [ Sfmc.Subscriber email token (Sfmc.type_preference format) attributes ].

(** The desk after one more request went out. *)
Definition requested (c : Sfmc.call) (d : Mailing.desk) : Mailing.desk :=
  Mailing.Desk (Mailing.base d)
    (Sfmc.Client (Sfmc.answer (Mailing.sfmc d)) (Sfmc.calls (Mailing.sfmc d) ++ [c]))
    (Mailing.BAD_MESSAGE_ID_CACHE d) (Mailing.clock d) (Mailing.clock_reads d)
    (Mailing.delayed d) (Mailing.notified d).

(** What the upstream makes of the next request, if it is [c]. *)
Definition next_answer (c : Sfmc.call) (d : Mailing.desk) : result Sfmc.response :=
  Sfmc.answer (Mailing.sfmc d) (length (Sfmc.calls (Mailing.sfmc d))) c.

(** ** A sample mail service *)

Module Office.

(** An upstream that knows every message but ["no_such_message"]. *)
Definition answer (n : nat) (c : Sfmc.call) : result Sfmc.response :=
  match c with
  | Sfmc.ts_send key _ _ =>
      if bool_decide (key = "no_such_message")
      then Ok (Sfmc.Response false "Error: Invalid Customer Key")
      else Ok (Sfmc.Response true "OK")
  | _ => Ok (Sfmc.Response true "OK")
  end.

Definition desk0 : Mailing.desk :=
  Mailing.Desk Sample.w0 (Sfmc.Client answer []) ∅
    (λ n, "Thu, 01 Jan 2015 00:10:0" +:+ pretty n +:+ " GMT") 0 [] [].

Definition Interest_objects (interest_id : value) : option Mailing.Interest :=
  match interest_id with
  | VStr id =>
      if bool_decide (id = "coding")
      then Some {| Mailing.welcome_id := "welcome_coding" |}
      else None
  | _ => None
  end.

Definition Newsletter_objects : list Mailing.Newsletter :=
  (λ nl, {| Mailing.columns := nl; Mailing.confirm_message := "" |})
    <$> Sample.newsletters.

(** Two later sends, one of them for the bad id. *)
Definition later : list Mailing.message :=
  [ Mailing.Message "no_such_message" (VStr "dude@example.com") (VStr "tok-1")
      (VStr "H");
    Mailing.Message "en_welcome" (VStr "dude@example.com") (VStr "tok-1")
      (VStr "H") ].

End Office.

(** * Properties *)

(** ** String primitives on the inputs the sources document *)

Example lower_ex : Py.lower "Fr-CA" = "fr-ca".
Proof. reflexivity. Qed.

Example strip_ex : Py.strip "  about-mozilla " = "about-mozilla".
Proof. reflexivity. Qed.

Example split_ex : Py.split "," "a, b,,c" = ["a"; " b"; ""; "c"].
Proof. reflexivity. Qed.

Example split_empty_ex : Py.split "," "" = [""].
Proof. reflexivity. Qed.

Example contains_ex :
  Py.contains "InvalidEmailAddress" "Error: InvalidEmailAddress (x)" = true.
Proof. reflexivity. Qed.

Lemma append_cons (a : ascii) (p t : string) :
  String a p +:+ t = String a (p +:+ t).
Proof. reflexivity. Qed.

Lemma prefix_spec (p s : string) :
  String.prefix p s = true ↔ ∃ t, s = p +:+ t.
Proof.
  revert s. induction p as [|a p IH]; intros s.
  - split; [intros _; by exists s | intros _; by destruct s].
  - destruct s as [|b s].
    + split; [done|]. intros [t Ht]. by rewrite append_cons in Ht.
    + change (String.prefix (String a p) (String b s))
        with (if Ascii.ascii_dec a b then String.prefix p s else false).
      destruct (Ascii.ascii_dec a b) as [->|Hne].
      * rewrite IH. split; intros [t Ht]; exists t.
        -- by rewrite append_cons, Ht.
        -- rewrite append_cons in Ht. by injection Ht.
      * split; [done|]. intros [t Ht].
        rewrite append_cons in Ht. injection Ht as <- _. done.
Qed.

(** [Py.contains] is Python's substring test. *)
Lemma contains_spec (needle hay : string) :
  Py.contains needle hay = true ↔ ∃ pre post, hay = pre +:+ needle +:+ post.
Proof.
  induction hay as [|c hay IH]; cbn [Py.contains];
    rewrite orb_true_iff, prefix_spec.
  - split.
    + intros [[t Ht]|?]; [|done]. by exists "", t.
    + intros (pre & post & Heq). left.
      destruct pre as [|b pre]; [by exists post|].
      by rewrite append_cons in Heq.
  - rewrite IH. split.
    + intros [[t Ht]|(pre & post & Heq)]; [by exists "", t|].
      exists (String c pre), post. by rewrite append_cons, Heq.
    + intros (pre & post & Heq). destruct pre as [|b pre].
      * left. by exists post.
      * right. rewrite append_cons in Heq. injection Heq as _ Heq.
        by exists pre, post.
Qed.

(** ** parse_newsletters *)

Section parse_facts.

Variable group : string → option (list string).

Lemma mark_lookup (flag : bool) (slugs : list string) (m : gmap string bool)
    (s : string) :
  Utils.mark flag slugs m !! s = if bool_decide (s ∈ slugs) then Some flag else m !! s.
Proof.
  unfold Utils.mark. revert m.
  induction slugs as [|x slugs IH]; intros m.
  - by case_bool_decide as Hs; [apply not_elem_of_nil in Hs|].
  - cbn [foldl]. rewrite IH.
    destruct (decide (s ∈ slugs)) as [Hin|Hout].
    + rewrite !bool_decide_eq_true_2; [done | by right | done].
    + rewrite (bool_decide_eq_false_2 _ Hout).
      destruct (decide (x = s)) as [->|Hne].
      * rewrite lookup_insert_eq, bool_decide_eq_true_2; [done | by left].
      * rewrite lookup_insert_ne by done.
        rewrite bool_decide_eq_false_2; [done|].
        intros [?|?]%elem_of_cons; congruence.
Qed.

Lemma grouped_spec_from (R : list string) (acc : gset string) (s : string) :
  s ∈ foldl (Utils.group_step group) acc R ↔
  s ∈ acc ∨
  (s ∈ R ∧ ∀ g gs, group s ≠ Some (g :: gs)) ∨
  (∃ nl g gs, nl ∈ R ∧ group nl = Some (g :: gs) ∧ s ∈ g :: gs).
Proof.
  revert acc. induction R as [|x R IH]; intros acc; simpl.
  - split; [by left|]. intros [?|[[?%not_elem_of_nil _]|(nl&?&?&?%not_elem_of_nil&_)]]; done.
  - rewrite IH. unfold Utils.group_step.
    destruct (group x) as [[|g gs]|] eqn:Hx.
    + rewrite elem_of_union, elem_of_singleton. split.
      * intros [[?| ->]|[[? ?]|(nl&g&gs&?&?&?)]].
        -- by left.
        -- right; left. split; [by left|]. intros ??; congruence.
        -- right; left. split; [by right|done].
        -- right; right. exists nl, g, gs. split; [by right|done].
      * intros [?|[[[->|?]%elem_of_cons Hn]|(nl&g&gs&[->|?]%elem_of_cons&?&?)]].
        -- by left; left.
        -- by left; right.
        -- right; left. done.
        -- congruence.
        -- right; right. by exists nl, g, gs.
    + rewrite elem_of_union, elem_of_list_to_set. split.
      * intros [[?|?]|[[? ?]|(nl&g'&gs'&?&?&?)]].
        -- by left.
        -- right; right. exists x, g, gs. split; [by left|done].
        -- right; left. split; [by right|done].
        -- right; right. exists nl, g', gs'. split; [by right|done].
      * intros [?|[[[->|?]%elem_of_cons Hn]|(nl&g'&gs'&[->|?]%elem_of_cons&Hg&?)]].
        -- by left; left.
        -- by destruct (Hn g gs).
        -- right; left. done.
        -- rewrite Hx in Hg. injection Hg as <- <-. by left; right.
        -- right; right. by exists nl, g', gs'.
    + rewrite elem_of_union, elem_of_singleton. split.
      * intros [[?| ->]|[[? ?]|(nl&g&gs&?&?&?)]].
        -- by left.
        -- right; left. split; [by left|]. intros ??; congruence.
        -- right; left. split; [by right|done].
        -- right; right. exists nl, g, gs. split; [by right|done].
      * intros [?|[[[->|?]%elem_of_cons Hn]|(nl&g&gs&[->|?]%elem_of_cons&?&?)]].
        -- by left; left.
        -- by left; right.
        -- right; left. done.
        -- congruence.
        -- right; right. by exists nl, g, gs.
Qed.

(** The slugs a SUBSCRIBE request is expanded to: the requested slugs that
    name no group, and the members of every group named in the request; the
    members themselves are not looked up again. *)
Lemma grouped_spec (R : list string) (s : string) :
  s ∈ Utils.grouped group R ↔
  (s ∈ R ∧ ∀ g gs, group s ≠ Some (g :: gs)) ∨
  (∃ nl g gs, nl ∈ R ∧ group nl = Some (g :: gs) ∧ s ∈ g :: gs).
Proof.
  unfold Utils.grouped. rewrite grouped_spec_from.
  split; [intros [?%not_elem_of_empty|?]; done | by right].
Qed.

Lemma parse_SET_lookup (R : list string) (C : option (list string)) (s : string) :
  Utils.parse_newsletters group Utils.SET R C !! s =
    if bool_decide (s ∈ R) then Some true
    else if bool_decide (s ∈ Utils.cur_set C) then Some false
    else None.
Proof.
  unfold Utils.parse_newsletters.
  change (bool_decide (Utils.SET = Utils.SUBSCRIBE)) with false.
  change (bool_decide (Utils.SET = Utils.UNSUBSCRIBE)) with false.
  change (bool_decide (Utils.SET = Utils.SET)) with true.
  cbn [orb]. rewrite !mark_lookup, lookup_empty.
  destruct (decide (Utils.cur_set C = ∅)) as [Hcur|Hcur].
  - rewrite (bool_decide_eq_false_2 (Utils.cur_set C ≠ ∅)) by auto.
    rewrite Hcur.
    rewrite (bool_decide_eq_false_2 (s ∈ [])) by apply not_elem_of_nil.
    rewrite (bool_decide_eq_false_2 (s ∈ ∅)) by apply not_elem_of_empty.
    by case_bool_decide.
  - rewrite (bool_decide_eq_true_2 (Utils.cur_set C ≠ ∅)) by done.
    destruct (decide (s ∈ R)) as [HR|HR].
    + rewrite (bool_decide_eq_true_2 (s ∈ R)) by done.
      rewrite bool_decide_eq_false_2; [done|].
      rewrite elem_of_elements, elem_of_difference, elem_of_list_to_set. tauto.
    + rewrite (bool_decide_eq_false_2 (s ∈ R)) by done.
      destruct (decide (s ∈ Utils.cur_set C)) as [HC|HC].
      * rewrite !bool_decide_eq_true_2; [done..|].
        rewrite elem_of_elements, elem_of_difference, elem_of_list_to_set. tauto.
      * rewrite !bool_decide_eq_false_2; [done..|].
        rewrite elem_of_elements, elem_of_difference. tauto.
Qed.

Lemma parse_SUBSCRIBE_lookup (R : list string) (C : option (list string))
    (s : string) :
  Utils.parse_newsletters group Utils.SUBSCRIBE R C !! s =
    if bool_decide (s ∈ Utils.grouped group R) then Some true else None.
Proof.
  unfold Utils.parse_newsletters.
  change (bool_decide (Utils.SUBSCRIBE = Utils.SUBSCRIBE)) with true.
  change (bool_decide (Utils.SUBSCRIBE = Utils.UNSUBSCRIBE)) with false.
  change (bool_decide (Utils.SUBSCRIBE = Utils.SET)) with false.
  cbn [orb]. rewrite mark_lookup, lookup_empty.
  by rewrite (bool_decide_ext _ _ (elem_of_elements _ s)).
Qed.

(** C1. With action SET, requested slugs [R] and current subscriptions [C]
    ([None] read as empty), [parse_newsletters] returns exactly the map that
    sends every slug of [R] to [True] and every slug of [C] outside [R] to
    [False]; no other slug is a key. *)
Theorem parse_newsletters_SET_exact (R : list string) (C : option (list string)) :
  (∀ s : string,
     Utils.parse_newsletters group Utils.SET R C !! s =
       if bool_decide (s ∈ R) then Some true
       else if bool_decide (s ∈ Utils.cur_set C) then Some false
       else None) ∧
  Utils.parse_newsletters group Utils.SET R C =
    gset_to_gmap true (list_to_set R) ∪
    gset_to_gmap false (Utils.cur_set C ∖ list_to_set R) ∧
  Utils.cur_set None = ∅.
Proof.
  split; [intros s; apply parse_SET_lookup|]. split; [|done].
  apply map_eq. intros s. rewrite parse_SET_lookup.
  rewrite lookup_union, !lookup_gset_to_gmap.
  destruct (decide (s ∈ R)) as [HR|HR].
  - rewrite bool_decide_eq_true_2 by done.
    rewrite option_guard_True by by apply elem_of_list_to_set.
    rewrite option_guard_False
      by (rewrite elem_of_difference, elem_of_list_to_set; tauto).
    done.
  - rewrite (bool_decide_eq_false_2 (s ∈ R)) by done.
    rewrite option_guard_False by by rewrite elem_of_list_to_set.
    destruct (decide (s ∈ Utils.cur_set C)) as [HC|HC].
    + rewrite bool_decide_eq_true_2 by done.
      rewrite option_guard_True
        by (rewrite elem_of_difference, elem_of_list_to_set; tauto).
      done.
    + rewrite bool_decide_eq_false_2 by done.
      rewrite option_guard_False by (rewrite elem_of_difference; tauto).
      done.
Qed.

(** C2. With action SUBSCRIBE, no slug of the returned map is sent to
    [False], and every key is a requested slug or a member of a group named
    in the request.  Groups are expanded once: a key is a requested slug that
    names no group, or a member of a requested group, and members are merged
    into one set. *)
Theorem parse_newsletters_SUBSCRIBE_keys (R : list string)
    (C : option (list string)) (s : string) (flag : bool) :
  Utils.parse_newsletters group Utils.SUBSCRIBE R C !! s = Some flag →
  flag = true ∧
  (s ∈ R ∨ ∃ nl members, nl ∈ R ∧ group nl = Some members ∧ s ∈ members) ∧
  s ∈ Utils.grouped group R ∧
  NoDup (elements (Utils.grouped group R)).
Proof.
  rewrite parse_SUBSCRIBE_lookup. case_bool_decide as Hs; [|done].
  intros [= <-]. split; [done|]. split; [|split; [done | apply NoDup_elements]].
  apply grouped_spec in Hs as [[? _]|(nl & g & gs & ? & ? & ?)]; [by left|].
  right. by exists nl, (g :: gs).
Qed.

End parse_facts.

(** ** The state of a task: logs and their observations *)

Lemma emit_to_logged (ev : event) (w : world) : emit_to ev w = logged [ev] w.
Proof. reflexivity. Qed.

Lemma logged_logged (a b : list event) (w : world) :
  logged b (logged a w) = logged (a ++ b) w.
Proof. unfold logged; simpl. by rewrite app_assoc. Qed.

Lemma logged_nil (w : world) : logged [] w = w.
Proof. destruct w. unfold logged; simpl. by rewrite app_nil_r. Qed.

Lemma quiet_step_refl (w : world) : quiet_step w w.
Proof. by repeat split. Qed.

Lemma countdowns_app (a b : list event) :
  Tasks.countdowns (a ++ b) = Tasks.countdowns a ++ Tasks.countdowns b.
Proof. apply omap_app. Qed.

Lemma deliveries_app (a b : list event) :
  Tasks.deliveries (a ++ b) = Tasks.deliveries a + Tasks.deliveries b.
Proof. unfold Tasks.deliveries. by rewrite omap_app, length_app. Qed.

Lemma failures_app (a b : list event) :
  Tasks.failures (a ++ b) = Tasks.failures a ++ Tasks.failures b.
Proof. apply omap_app. Qed.

Lemma queued_app (a b : list event) :
  Tasks.queued (a ++ b) = Tasks.queued a ++ Tasks.queued b.
Proof. apply omap_app. Qed.

(** ** et_task: the maintenance gate and the failure classifier *)

Section et_task_facts.

Variable name : string.
Variable func : list arg → gmap string arg → M value.

Lemma et_task_unfold (retries : nat) (args : list arg)
    (kwargs : gmap string arg) (w : world) :
  Tasks.et_task name func retries args kwargs w =
    if Tasks.deferred (MAINTENANCE_MODE w) name
    then (Ok VNone,
          logged (submit_events name kwargs ++
                  [QueuedTask_create name args (delete "start_time" kwargs);
                   statsd_incr (name +:+ ".queued")]) w)
    else Tasks.attempt name func retries args (delete "start_time" kwargs)
           (logged (submit_events name kwargs) w).
Proof.
  unfold Tasks.et_task, submit_events, bind, when, emit, ask, ret.
  destruct (from_option Tasks.arg_truthy false (kwargs !! "start_time"));
    cbn [MAINTENANCE_MODE emit_to];
    destruct (Tasks.deferred (MAINTENANCE_MODE w) name);
    rewrite ?emit_to_logged, ?logged_logged; reflexivity.
Qed.

Lemma deferred_iff (flag : bool) :
  Tasks.deferred flag name = true ↔
  flag = true ∧ name ∉ Tasks.MAINTENANCE_EXEMPT.
Proof.
  unfold Tasks.deferred, Py.mem.
  rewrite andb_true_iff, negb_true_iff, bool_decide_eq_false. tauto.
Qed.

(** What the classifier does with a transient error that no ignore list of
    the first kind matches. *)
Lemma attempt_transient (retries : nat) (args : list arg)
    (kwargs : gmap string arg) (w w' : world) (e : exn) :
  func args kwargs w = (Raise e, w') →
  Tasks.is_transient e = true →
  Tasks.ignored Tasks.IGNORE_ERROR_MSGS (exn_msg e) = false →
  Tasks.attempt name func retries args kwargs w =
    if bool_decide (retries < Tasks.max_retries)
    then (Raise (Exn Retry "Task can be retried"),
          logged [apply_async name args kwargs (2 ^ retries * 60) (retries + 1)] w')
    else (if Tasks.ignored Tasks.IGNORE_ERROR_MSGS_POST_RETRY (exn_msg e)
          then Ok VNone else Raise e,
          logged [statsd_incr (name +:+ ".retry_max");
                  statsd_incr "news.tasks.retry_max_total"] w').
Proof.
  intros Hf Ht Hi. unfold Tasks.attempt, try_except. rewrite Hf, Ht, Hi.
  unfold Tasks.retry.
  destruct (decide (retries < Tasks.max_retries)) as [Hlt|Hge].
  - rewrite (bool_decide_eq_true_2 _ Hlt).
    rewrite bool_decide_eq_false_2 by lia.
    reflexivity.
  - rewrite (bool_decide_eq_false_2 _ Hge).
    rewrite bool_decide_eq_true_2 by lia.
    unfold raise at 1. cbn [exn_cls].
    rewrite bool_decide_eq_true_2 by done.
    unfold bind, emit. rewrite !emit_to_logged, logged_logged.
    destruct (Tasks.ignored Tasks.IGNORE_ERROR_MSGS_POST_RETRY (exn_msg e));
      reflexivity.
Qed.

Lemma attempt_ignored (retries : nat) (args : list arg)
    (kwargs : gmap string arg) (w w' : world) (e : exn) :
  func args kwargs w = (Raise e, w') →
  Tasks.is_transient e = true →
  Tasks.ignored Tasks.IGNORE_ERROR_MSGS (exn_msg e) = true →
  Tasks.attempt name func retries args kwargs w = (Ok VNone, w').
Proof.
  intros Hf Ht Hi. unfold Tasks.attempt, try_except. by rewrite Hf, Ht, Hi.
Qed.

Lemma attempt_ok (retries : nat) (args : list arg)
    (kwargs : gmap string arg) (w w' : world) (v : value) :
  func args kwargs w = (Ok v, w') →
  Tasks.attempt name func retries args kwargs w = (Ok v, w').
Proof. intros Hf. unfold Tasks.attempt, try_except. by rewrite Hf. Qed.

Lemma attempt_unclassified (retries : nat) (args : list arg)
    (kwargs : gmap string arg) (w w' : world) (e : exn) :
  func args kwargs w = (Raise e, w') →
  Tasks.is_transient e = false →
  Tasks.attempt name func retries args kwargs w = (Raise e, w').
Proof. intros Hf Ht. unfold Tasks.attempt, try_except. by rewrite Hf, Ht. Qed.

Lemma deliver_unfold (retries : nat) (args : list arg)
    (kwargs : gmap string arg) (w : world) :
  Tasks.deliver name func retries args kwargs w =
    match Tasks.et_task name func retries args kwargs
            (logged [task_started name retries] w) with
    | (Ok v, w') =>
        (Ok (Some (Tasks.Succeeded v)),
         logged [statsd_incr (name +:+ ".success");
                 statsd_incr "news.tasks.success_total"] w')
    | (Raise e, w') =>
        if bool_decide (exn_cls e = Retry)
        then (Ok None,
              logged [statsd_incr (name +:+ ".retry");
                      statsd_incr "news.tasks.retry_total"] w')
        else (Ok (Some (Tasks.Failed e)),
              logged ([statsd_incr (name +:+ ".failure");
                       statsd_incr "news.tasks.failure_total"] ++
                      (if STORE_TASK_FAILURES w'
                       then [FailedTask_create name args kwargs e] else [])) w')
    end.
Proof.
  unfold Tasks.deliver, bind at 1, emit at 1. rewrite emit_to_logged.
  destruct (Tasks.et_task _ _ _ _ _ _) as [[v|e] w'].
  - unfold Tasks.on_success, bind, emit, ret.
    by rewrite !emit_to_logged, logged_logged.
  - destruct (bool_decide (exn_cls e = Retry)).
    + unfold Tasks.on_retry, bind, emit, ret.
      by rewrite !emit_to_logged, logged_logged.
    + unfold Tasks.on_failure, bind, emit, ask, when, ret.
      cbn [STORE_TASK_FAILURES emit_to].
      destruct (STORE_TASK_FAILURES w');
        rewrite ?emit_to_logged, ?logged_logged; reflexivity.
Qed.

End et_task_facts.

(** ** The life of a failing job *)

Section retry_facts.

Variable name : string.
Variable func : list arg → gmap string arg → M value.
Variable args : list arg.
Variable e : exn.

Lemma submit_events_quiet (kwargs : gmap string arg) :
  Tasks.countdowns (submit_events name kwargs) = [] ∧
  Tasks.deliveries (submit_events name kwargs) = 0 ∧
  Tasks.failures (submit_events name kwargs) = [] ∧
  Tasks.queued (submit_events name kwargs) = [].
Proof.
  unfold submit_events.
  by destruct (from_option Tasks.arg_truthy false (kwargs !! "start_time")).
Qed.

(** The world in which [func] starts when the worker delivers the task. *)
Lemma started_quiet (retries : nat) (kwargs : gmap string arg) (w : world) :
  let w1 := logged (submit_events name kwargs)
              (logged [task_started name retries] w) in
  MAINTENANCE_MODE w1 = MAINTENANCE_MODE w ∧
  STORE_TASK_FAILURES w1 = STORE_TASK_FAILURES w ∧
  Tasks.countdowns (log w1) = Tasks.countdowns (log w) ∧
  Tasks.deliveries (log w1) = Tasks.deliveries (log w) + 1 ∧
  Tasks.failures (log w1) = Tasks.failures (log w) ∧
  Tasks.queued (log w1) = Tasks.queued (log w).
Proof.
  destruct (submit_events_quiet kwargs) as (Hc & Hd & Hf & Hq).
  cbn [logged log MAINTENANCE_MODE STORE_TASK_FAILURES].
  rewrite !countdowns_app, !deliveries_app, !failures_app, !queued_app.
  rewrite Hc, Hd, Hf, Hq. cbn. rewrite !app_nil_r.
  repeat split; lia.
Qed.

Hypothesis transient : Tasks.is_transient e = true.
Hypothesis not_ignored : Tasks.ignored Tasks.IGNORE_ERROR_MSGS (exn_msg e) = false.

Lemma transient_not_Retry : bool_decide (exn_cls e = Retry) = false.
Proof.
  apply bool_decide_eq_false. intros Hcls.
  unfold Tasks.is_transient in transient. by rewrite Hcls in transient.
Qed.

(** A delivery below the retry bound schedules the next one. *)
Lemma deliver_retry (retries : nat) (kwargs : gmap string arg) (w : world) :
  always_fails func args (delete "start_time" kwargs) e →
  Tasks.deferred (MAINTENANCE_MODE w) name = false →
  retries < Tasks.max_retries →
  ∃ w', Tasks.deliver name func retries args kwargs w = (Ok None, w') ∧
        MAINTENANCE_MODE w' = MAINTENANCE_MODE w ∧
        STORE_TASK_FAILURES w' = STORE_TASK_FAILURES w ∧
        Tasks.countdowns (log w') = Tasks.countdowns (log w) ++ [60 * 2 ^ retries] ∧
        Tasks.deliveries (log w') = Tasks.deliveries (log w) + 1 ∧
        Tasks.failures (log w') = Tasks.failures (log w) ∧
        Tasks.queued (log w') = Tasks.queued (log w).
Proof.
  intros Hfail Hadm Hlt.
  pose proof (started_quiet retries kwargs w) as Hs. cbv zeta in Hs.
  destruct Hs as (Hm & Hst & Hc & Hd & Hf & Hq).
  destruct (Hfail (logged (submit_events name kwargs)
                     (logged [task_started name retries] w)))
    as (w2 & Hrun & Hm2 & Hst2 & Hc2 & Hd2 & Hf2 & Hq2).
  rewrite deliver_unfold, et_task_unfold.
  cbn [logged MAINTENANCE_MODE] in *. rewrite Hadm.
  rewrite (attempt_transient name func retries args _ _ w2 e Hrun transient not_ignored).
  rewrite bool_decide_eq_true_2 by done.
  cbn [exn_cls]. rewrite bool_decide_eq_true_2 by done.
  eexists. split; [reflexivity|].
  cbn [logged log MAINTENANCE_MODE STORE_TASK_FAILURES].
  rewrite !countdowns_app, !deliveries_app, !failures_app, !queued_app.
  rewrite Hm2, Hst2, Hc2, Hd2, Hf2, Hq2, Hc, Hd, Hf, Hq. cbn.
  rewrite !app_nil_r, (Nat.mul_comm (2 ^ retries) 60).
  repeat split; lia.
Qed.

(** A delivery at the retry bound ends the job. *)
Lemma deliver_final (retries : nat) (kwargs : gmap string arg) (w : world) :
  always_fails func args (delete "start_time" kwargs) e →
  Tasks.deferred (MAINTENANCE_MODE w) name = false →
  Tasks.max_retries ≤ retries →
  ∃ w', Tasks.deliver name func retries args kwargs w =
          (Ok (Some (if Tasks.ignored Tasks.IGNORE_ERROR_MSGS_POST_RETRY (exn_msg e)
                     then Tasks.Succeeded VNone else Tasks.Failed e)), w') ∧
        Tasks.countdowns (log w') = Tasks.countdowns (log w) ∧
        Tasks.deliveries (log w') = Tasks.deliveries (log w) + 1 ∧
        Tasks.failures (log w') =
          Tasks.failures (log w) ++
          (if Tasks.ignored Tasks.IGNORE_ERROR_MSGS_POST_RETRY (exn_msg e) then []
           else if STORE_TASK_FAILURES w then [(name, e)] else []).
Proof.
  intros Hfail Hadm Hge.
  pose proof (started_quiet retries kwargs w) as Hs. cbv zeta in Hs.
  destruct Hs as (Hm & Hst & Hc & Hd & Hf & Hq).
  destruct (Hfail (logged (submit_events name kwargs)
                     (logged [task_started name retries] w)))
    as (w2 & Hrun & Hm2 & Hst2 & Hc2 & Hd2 & Hf2 & Hq2).
  rewrite deliver_unfold, et_task_unfold.
  cbn [logged MAINTENANCE_MODE] in *. rewrite Hadm.
  rewrite (attempt_transient name func retries args _ _ w2 e Hrun transient not_ignored).
  rewrite bool_decide_eq_false_2 by lia.
  destruct (Tasks.ignored Tasks.IGNORE_ERROR_MSGS_POST_RETRY (exn_msg e)).
  - eexists. split; [reflexivity|].
    cbn [logged log]. rewrite !countdowns_app, !deliveries_app, !failures_app.
    rewrite Hc2, Hd2, Hf2, Hc, Hd, Hf. cbn. rewrite !app_nil_r.
    repeat split; lia.
  - rewrite transient_not_Retry.
    eexists. split; [reflexivity|].
    cbn [logged log STORE_TASK_FAILURES].
    rewrite !countdowns_app, !deliveries_app, !failures_app.
    rewrite Hst2, Hc2, Hd2, Hf2, Hc, Hd, Hf, Hst.
    destruct (STORE_TASK_FAILURES w); cbn; rewrite !app_nil_r;
      repeat split; lia.
Qed.

(** From retry count [n], a job that keeps failing is delivered [k + 1]
    more times when [n + k] is the bound, and then it is over. *)
Lemma run_job_from (k : nat) :
  ∀ (n fuel : nat) (kwargs : gmap string arg) (w : world),
    n + k = Tasks.max_retries →
    k < fuel →
    always_fails func args (delete "start_time" kwargs) e →
    Tasks.deferred (MAINTENANCE_MODE w) name = false →
    ∃ w', Tasks.run_job fuel name func n args kwargs w =
            (Ok (Some (if Tasks.ignored Tasks.IGNORE_ERROR_MSGS_POST_RETRY (exn_msg e)
                       then Tasks.Succeeded VNone else Tasks.Failed e)), w') ∧
          Tasks.countdowns (log w') =
            Tasks.countdowns (log w) ++ ((λ i, 60 * 2 ^ i) <$> seq n k) ∧
          Tasks.deliveries (log w') = Tasks.deliveries (log w) + (k + 1) ∧
          Tasks.failures (log w') =
            Tasks.failures (log w) ++
            (if Tasks.ignored Tasks.IGNORE_ERROR_MSGS_POST_RETRY (exn_msg e) then []
             else if STORE_TASK_FAILURES w then [(name, e)] else []).
Proof.
  induction k as [|k IH]; intros n fuel kwargs w Hn Hfuel Hfail Hadm;
    (destruct fuel as [|fuel]; [lia|]); cbn [Tasks.run_job]; unfold bind at 1.
  - destruct (deliver_final n kwargs w Hfail Hadm) as (w' & -> & Hc & Hd & Hf);
      [lia|].
    exists w'. cbn. rewrite app_nil_r. by repeat split.
  - destruct (deliver_retry n kwargs w Hfail Hadm)
      as (w1 & -> & Hm & Hst & Hc & Hd & Hf & Hq); [lia|].
    destruct (IH (n + 1) fuel (delete "start_time" kwargs) w1)
      as (w' & Hrun & Hc' & Hd' & Hf'); [lia | lia | | by rewrite Hm |].
    { by rewrite delete_delete_eq. }
    exists w'. split; [exact Hrun|].
    rewrite Hc', Hd', Hf', Hc, Hd, Hf, Hst.
    rewrite <- app_assoc. cbn [seq fmap list_fmap app].
    replace (n + 1) with (S n) by lia.
    repeat split; lia.
Qed.

Lemma et_task_retry (retries : nat) (kwargs : gmap string arg) (w : world) :
  always_fails func args (delete "start_time" kwargs) e →
  Tasks.deferred (MAINTENANCE_MODE w) name = false →
  retries < Tasks.max_retries →
  ∃ w', Tasks.et_task name func retries args kwargs w =
          (Raise (Exn Retry "Task can be retried"), w') ∧
        Tasks.countdowns (log w') = Tasks.countdowns (log w) ++ [60 * 2 ^ retries].
Proof.
  intros Hfail Hadm Hlt.
  destruct (submit_events_quiet kwargs) as (Hc & _).
  destruct (Hfail (logged (submit_events name kwargs) w))
    as (w2 & Hrun & _ & _ & Hc2 & _).
  rewrite et_task_unfold, Hadm.
  rewrite (attempt_transient name func retries args _ _ w2 e Hrun transient not_ignored).
  rewrite bool_decide_eq_true_2 by done.
  eexists. split; [reflexivity|].
  cbn [logged log] in *. rewrite !countdowns_app, Hc2, countdowns_app, Hc.
  cbn. by rewrite app_nil_r, (Nat.mul_comm (2 ^ retries) 60).
Qed.

Lemma et_task_final (retries : nat) (kwargs : gmap string arg) (w : world) :
  always_fails func args (delete "start_time" kwargs) e →
  Tasks.deferred (MAINTENANCE_MODE w) name = false →
  Tasks.max_retries ≤ retries →
  ∃ w', Tasks.et_task name func retries args kwargs w =
          (if Tasks.ignored Tasks.IGNORE_ERROR_MSGS_POST_RETRY (exn_msg e)
           then Ok VNone else Raise e, w') ∧
        Tasks.countdowns (log w') = Tasks.countdowns (log w).
Proof.
  intros Hfail Hadm Hge.
  destruct (submit_events_quiet kwargs) as (Hc & _).
  destruct (Hfail (logged (submit_events name kwargs) w))
    as (w2 & Hrun & _ & _ & Hc2 & _).
  rewrite et_task_unfold, Hadm.
  rewrite (attempt_transient name func retries args _ _ w2 e Hrun transient not_ignored).
  rewrite bool_decide_eq_false_2 by lia.
  eexists. split; [reflexivity|].
  cbn [logged log] in *. rewrite !countdowns_app, Hc2, countdowns_app, Hc.
  cbn. by rewrite !app_nil_r.
Qed.

End retry_facts.

Example backoff_schedule_values :
  backoff_schedule = (λ m, 60 * m) <$> [1; 2; 4; 8; 16; 32; 64; 128].
Proof. reflexivity. Qed.

(** C5. A job whose function keeps failing with a transient error that the
    first ignore list does not match: the call made at retry count [n < 8]
    schedules the next delivery with a countdown of [60 * 2^n] seconds; a
    call at retry count 8 (or more) schedules nothing and ends with the error
    re-raised, or with a normal return when the second ignore list matches.
    Run from its first delivery, the job is delivered nine times, its
    countdowns are 60, 120, ..., 7680, and more fuel adds no delivery. *)
Theorem retry_backoff_schedule (name : string)
    (func : list arg → gmap string arg → M value) (args : list arg)
    (kwargs : gmap string arg) (e : exn) (w : world) (fuel : nat) :
  Tasks.is_transient e = true →
  Tasks.ignored Tasks.IGNORE_ERROR_MSGS (exn_msg e) = false →
  always_fails func args (delete "start_time" kwargs) e →
  Tasks.deferred (MAINTENANCE_MODE w) name = false →
  Tasks.max_retries < fuel →
  (∀ n w0, n < Tasks.max_retries →
     Tasks.deferred (MAINTENANCE_MODE w0) name = false →
     ∃ w', Tasks.et_task name func n args kwargs w0 =
             (Raise (Exn Retry "Task can be retried"), w') ∧
           Tasks.countdowns (log w') = Tasks.countdowns (log w0) ++ [60 * 2 ^ n]) ∧
  (∀ n w0, Tasks.max_retries ≤ n →
     Tasks.deferred (MAINTENANCE_MODE w0) name = false →
     ∃ w', Tasks.et_task name func n args kwargs w0 =
             (if Tasks.ignored Tasks.IGNORE_ERROR_MSGS_POST_RETRY (exn_msg e)
              then Ok VNone else Raise e, w') ∧
           Tasks.countdowns (log w') = Tasks.countdowns (log w0)) ∧
  ∃ w', Tasks.run_job fuel name func 0 args kwargs w =
          (Ok (Some (if Tasks.ignored Tasks.IGNORE_ERROR_MSGS_POST_RETRY (exn_msg e)
                     then Tasks.Succeeded VNone else Tasks.Failed e)), w') ∧
        Tasks.countdowns (log w') = Tasks.countdowns (log w) ++ backoff_schedule ∧
        Tasks.deliveries (log w') = Tasks.deliveries (log w) + 9 ∧
        Tasks.failures (log w') =
          Tasks.failures (log w) ++
          (if Tasks.ignored Tasks.IGNORE_ERROR_MSGS_POST_RETRY (exn_msg e) then []
           else if STORE_TASK_FAILURES w then [(name, e)] else []).
Proof.
  intros Ht Hi Hfail Hadm Hfuel. split; [|split].
  - intros n w0 Hn Hadm0. by apply (et_task_retry name func args e Ht Hi).
  - intros n w0 Hn Hadm0. by apply (et_task_final name func args e Ht Hi).
  - apply (run_job_from name func args e Ht Hi Tasks.max_retries 0 fuel kwargs w);
      [reflexivity | done..].
Qed.

(** C6. The maintenance test defers a call exactly when the flag is set and
    the task is not exempt.  A deferred call returns at once, adds exactly
    one queue row holding the task name, the positional arguments and the
    keyword arguments, and is the same whatever the wrapped function is: the
    function is not run.  A call that is not deferred (flag clear, or task
    exempt) runs the function in the same call and hands back what it
    returns, adding no queue row of its own. *)
Theorem maintenance_gate (name : string)
    (func : list arg → gmap string arg → M value) (retries : nat)
    (args : list arg) (kwargs : gmap string arg) (w : world) :
  (Tasks.deferred (MAINTENANCE_MODE w) name = true ↔
   MAINTENANCE_MODE w = true ∧ name ∉ Tasks.MAINTENANCE_EXEMPT) ∧
  (if Tasks.deferred (MAINTENANCE_MODE w) name
   then
     ∃ w', (∀ func', Tasks.et_task name func' retries args kwargs w = (Ok VNone, w')) ∧
           Tasks.queued (log w') =
             Tasks.queued (log w) ++ [(name, args, delete "start_time" kwargs)] ∧
           Tasks.deliveries (log w') = Tasks.deliveries (log w) ∧
           contact_writes (log w') = contact_writes (log w)
   else
     let w1 := logged (submit_events name kwargs) w in
     Tasks.et_task name func retries args kwargs w =
       Tasks.attempt name func retries args (delete "start_time" kwargs) w1 ∧
     Tasks.queued (log w1) = Tasks.queued (log w) ∧
     ∀ v w2, func args (delete "start_time" kwargs) w1 = (Ok v, w2) →
             Tasks.et_task name func retries args kwargs w = (Ok v, w2)).
Proof.
  split; [apply deferred_iff|].
  destruct (submit_events_quiet name kwargs) as (Hc & Hd & Hf & Hq).
  destruct (Tasks.deferred (MAINTENANCE_MODE w) name) eqn:Hdef.
  - eexists. split; [intros func'; by rewrite et_task_unfold, Hdef|].
    cbn [logged log]. rewrite !queued_app, !deliveries_app, Hq, Hd.
    split; [done|]. split; [cbn; lia|].
    unfold contact_writes, contact_calls, submit_events.
    rewrite !omap_app, !length_app.
    destruct (from_option Tasks.arg_truthy false (kwargs !! "start_time"));
      cbn; lia.
  - cbv zeta. rewrite et_task_unfold, Hdef. split; [done|].
    split; [cbn [logged log]; by rewrite queued_app, Hq, app_nil_r|].
    intros v w2 Hrun. by apply attempt_ok.
Qed.

(** C8. When the wrapped function raises a transient error ([IOError],
    [NewsletterException] or [ETRestError]) whose message contains an entry
    of the first ignore list, the call returns normally in the state the
    function left: nothing is scheduled and nothing propagates.  The worker
    then records a success: the job is over and no failure row is written. *)
Theorem ignored_error_is_success (name : string)
    (func : list arg → gmap string arg → M value) (retries : nat)
    (args : list arg) (kwargs : gmap string arg) (w0 w2 : world) (e : exn)
    (ignore_msg : string) :
  Tasks.deferred (MAINTENANCE_MODE w0) name = false →
  func args (delete "start_time" kwargs)
    (logged (submit_events name kwargs) (logged [task_started name retries] w0)) =
    (Raise e, w2) →
  exn_cls e ∈ [IOError; NewsletterException; ETRestError] →
  ignore_msg ∈ Tasks.IGNORE_ERROR_MSGS →
  Py.contains ignore_msg (exn_msg e) = true →
  Tasks.et_task name func retries args kwargs (logged [task_started name retries] w0) =
    (Ok VNone, w2) ∧
  ∃ w3, Tasks.deliver name func retries args kwargs w0 =
          (Ok (Some (Tasks.Succeeded VNone)), w3) ∧
        Tasks.countdowns (log w3) = Tasks.countdowns (log w2) ∧
        Tasks.failures (log w3) = Tasks.failures (log w2) ∧
        Tasks.deliveries (log w3) = Tasks.deliveries (log w2).
Proof.
  intros Hadm Hrun Hcls Hin Hsub.
  assert (Tasks.is_transient e = true) as Ht.
  { unfold Tasks.is_transient.
    repeat (apply elem_of_cons in Hcls as [->|Hcls]; [done|]).
    by apply elem_of_nil in Hcls. }
  assert (Tasks.ignored Tasks.IGNORE_ERROR_MSGS (exn_msg e) = true) as Hi.
  { apply existsb_exists. exists ignore_msg.
    split; [by apply list_elem_of_In|done]. }
  assert (Tasks.et_task name func retries args kwargs
            (logged [task_started name retries] w0) = (Ok VNone, w2)) as Het.
  { rewrite et_task_unfold. cbn [logged MAINTENANCE_MODE]. rewrite Hadm.
    by apply (attempt_ignored name func retries args _ _ w2 e). }
  split; [exact Het|].
  rewrite deliver_unfold, Het. eexists. split; [reflexivity|].
  cbn [logged log]. rewrite countdowns_app, failures_app, deliveries_app.
  cbn. rewrite !app_nil_r. repeat split; lia.
Qed.

(** ** update_student_ambassadors *)

Lemma FSA_keys_do_not_unpack :
  Forall (λ k, Tasks.unpack_pair k =
                 Raise (Exn ValueError "too many values to unpack"))
    Tasks.FSA_FIELDS.*1.
Proof. repeat constructor. Qed.

(** C10. Whatever the data, the token and the order in which the dictionary
    [FSA_FIELDS] hands out its keys, the function under
    [update_student_ambassadors] raises at the first turn of its loop, where
    a key string is unpacked into a pair; every key of [FSA_FIELDS] fails
    that way.  The state is the one it started in: [sfdc.update] is not
    reached and no upstream write is issued. *)
Theorem update_student_ambassadors_raises (newsletter_map : gmap string string)
    (keys : list string) (data : gmap string value) (token : value) (w : world) :
  keys ≡ₚ Tasks.FSA_FIELDS.*1 →
  Tasks.update_student_ambassadors_in newsletter_map keys data token w =
    (Raise (Exn ValueError "too many values to unpack"), w) ∧
  Tasks.update_student_ambassadors newsletter_map data token w =
    (Raise (Exn ValueError "too many values to unpack"), w) ∧
  Forall (λ k, ∃ e, Tasks.unpack_pair k = Raise e) keys.
Proof.
  intros Hperm.
  assert (Forall (λ k, Tasks.unpack_pair k =
                         Raise (Exn ValueError "too many values to unpack")) keys)
    as Hall by (rewrite Hperm; apply FSA_keys_do_not_unpack).
  split; [|split].
  - destruct keys as [|k rest].
    + by apply Permutation_nil_l in Hperm.
    + apply Forall_cons in Hall as [Hk _].
      unfold Tasks.update_student_ambassadors_in, bind, lift.
      cbn [fold_result]. unfold Tasks.fsa_step. rewrite Hk. reflexivity.
  - reflexivity.
  - eapply Forall_impl; [exact Hall|]. intros k Hk. eexists. exact Hk.
Qed.

(** ** send_welcomes *)

(** Strings: appending, cutting and lowercasing. *)

Lemma append_nil_r (s : string) : s +:+ "" = s.
Proof. induction s as [|c s IH]; [done|]. by rewrite append_cons, IH. Qed.

Lemma append_assoc (s t u : string) : (s +:+ t) +:+ u = s +:+ t +:+ u.
Proof. induction s as [|c s IH]; [done|]. by rewrite !append_cons, IH. Qed.

Lemma take_lower (n : nat) (s : string) :
  Py.take n (Py.lower s) = Py.lower (Py.take n s).
Proof.
  revert n. induction s as [|c s IH]; intros [|n]; [done..|].
  cbn. by rewrite <- IH.
Qed.

Lemma take_take (n : nat) (s : string) : Py.take n (Py.take n s) = Py.take n s.
Proof.
  revert n. induction s as [|c s IH]; intros [|n]; [done..|].
  cbn. by rewrite IH.
Qed.

Lemma lower_char_idemp (c : ascii) :
  Py.lower_char (Py.lower_char c) = Py.lower_char c.
Proof. destruct c as [[] [] [] [] [] [] [] []]; vm_compute; done. Qed.

Lemma lower_lower (s : string) : Py.lower (Py.lower s) = Py.lower s.
Proof.
  induction s as [|c s IH]; [done|].
  cbn. rewrite lower_char_idemp. f_equal. exact IH.
Qed.

Section welcome_facts.

Variable Newsletter_objects : list Tasks.Newsletter.

Lemma collect_welcomes (user_data : gmap string value) (lang format : string)
    (nls : list Tasks.Newsletter) (acc : gset string) :
  Tasks.contact_lang user_data = Ok lang →
  fold_result (Tasks.collect_welcome user_data format) acc nls =
    Ok (acc ∪ list_to_set (omap (Tasks.welcome_of lang format) nls)).
Proof.
  intros Hlang. revert acc.
  induction nls as [|nl nls IH]; intros acc; cbn [fold_result].
  - change (omap (Tasks.welcome_of lang format) []) with (@nil string).
    by rewrite list_to_set_nil, union_empty_r_L.
  - change (omap (Tasks.welcome_of lang format) (nl :: nls))
      with (match Tasks.welcome_of lang format nl with
            | Some id => id :: omap (Tasks.welcome_of lang format) nls
            | None => omap (Tasks.welcome_of lang format) nls
            end).
    unfold Tasks.collect_welcome at 1.
    destruct (decide (Py.strip (Tasks.welcome nl) = "")) as [Hw|Hw].
    + rewrite (bool_decide_eq_true_2 _ Hw), IH.
      unfold Tasks.welcome_of. by rewrite (bool_decide_eq_true_2 _ Hw).
    + rewrite (bool_decide_eq_false_2 _ Hw), Hlang, IH. f_equal.
      unfold Tasks.welcome_of at 1 3.
      rewrite (bool_decide_eq_false_2 _ Hw).
      cbn [from_option]. by rewrite list_to_set_cons, union_assoc_L.
Qed.

Lemma dispatch_all (email token : value) (format : string)
    (ids : list string) (w : world) :
  for_each ids (λ welcome, emit (send_message_delay welcome email token format)) w =
  (Ok tt, logged ((λ id, send_message_delay id email token format) <$> ids) w).
Proof.
  revert w.
  induction ids as [|id ids IH]; intros w; cbn [for_each fmap list_fmap].
  - unfold ret. by rewrite logged_nil.
  - unfold bind, emit. rewrite IH, emit_to_logged, logged_logged. done.
Qed.

Lemma sent_ids_app (a b : list event) :
  sent_ids (a ++ b) = sent_ids a ++ sent_ids b.
Proof. apply omap_app. Qed.

Lemma sent_ids_delay (email token : value) (format : string) (ids : list string) :
  sent_ids ((λ id, send_message_delay id email token format) <$> ids) = ids.
Proof. induction ids as [|id ids IH]; [done|]. cbn. by f_equal. Qed.

(** Without a language to slice, the first loop stops at the first
    newsletter that has a welcome, or finds none. *)
Lemma collect_welcomes_no_lang (user_data : gmap string value) (format : string)
    (nls : list Tasks.Newsletter) (acc : gset string) (e : exn) :
  Tasks.contact_lang user_data = Raise e →
  fold_result (Tasks.collect_welcome user_data format) acc nls = Ok acc ∨
  fold_result (Tasks.collect_welcome user_data format) acc nls = Raise e.
Proof.
  intros Hlang. induction nls as [|nl nls IH]; cbn [fold_result]; [by left|].
  unfold Tasks.collect_welcome at 1 3.
  case_bool_decide; [exact IH|]. rewrite Hlang. by right.
Qed.

(** A loop whose body only raises leaves the state as it is. *)
Lemma for_each_raising {A} (xs : list A) (body : A → M unit) (e : exn) (w : world) :
  (∀ x, body x = raise e) →
  for_each xs body w = (if bool_decide (xs = []) then Ok tt else Raise e, w).
Proof.
  intros Hbody. destruct xs as [|x xs]; [done|].
  cbn [for_each]. unfold bind. by rewrite Hbody.
Qed.

Lemma resolved_ids (lang format : string) (newsletter_slugs : list string)
    (id : string) :
  id ∈ elements
         (∅ ∪ list_to_set
                (omap (Tasks.welcome_of lang format)
                   (filter (λ nl, Tasks.slug nl ∈ newsletter_slugs)
                      Newsletter_objects)) : gset string) ↔
  ∃ nl, nl ∈ Newsletter_objects ∧ Tasks.slug nl ∈ newsletter_slugs ∧
        Tasks.welcome_of lang format nl = Some id.
Proof.
  rewrite elem_of_elements, elem_of_union, elem_of_list_to_set.
  rewrite list_elem_of_omap. split.
  - intros [?%not_elem_of_empty|(nl & Hnl & Hw)]; [done|].
    apply list_elem_of_filter in Hnl as [? ?]. by exists nl.
  - intros (nl & ? & ? & ?). right. exists nl.
    split; [by apply list_elem_of_filter|done].
Qed.

(** The language [send_welcomes] reads off the contact:
    [user_data.get('lang', 'en')], which must be a string. *)
Lemma contact_lang_spec (user_data : gmap string value) (lang : string) :
  Tasks.contact_lang user_data = Ok lang ↔
  (user_data !! "lang" = None ∧ lang = "en") ∨
  user_data !! "lang" = Some (VStr lang).
Proof.
  unfold Tasks.contact_lang.
  destruct (user_data !! "lang") as [v|].
  - split.
    + destruct v; intros H; try discriminate H.
      injection H as ->. by right.
    + intros [[H _]|H]; [discriminate H|]. by injection H as ->.
  - split.
    + intros H. injection H as <-. by left.
    + intros [[_ ->]|H]; [reflexivity | discriminate H].
Qed.

(** The id one newsletter's welcome resolves to, spelled out: the stripped
    welcome, prefixed with the first two characters of the contact's
    language, lowercased, when the newsletter lists a language with that
    prefix, and with [en] otherwise; suffixed with [_T] for the text
    format. *)
Lemma welcome_of_resolves (lang format : string) (nl : Tasks.Newsletter)
    (id : string) :
  Tasks.welcome_of lang format nl = Some id ↔
  Py.strip (Tasks.welcome nl) ≠ "" ∧
  id = (if bool_decide
             ((if bool_decide
                    (Py.lower (Py.take 2 lang) ∈
                     (λ l, Py.lower (Py.take 2 l)) <$> Tasks.language_list nl)
               then Py.lower (Py.take 2 lang) else "en") = "")
        then ""
        else (if bool_decide
                   (Py.lower (Py.take 2 lang) ∈
                    (λ l, Py.lower (Py.take 2 l)) <$> Tasks.language_list nl)
              then Py.lower (Py.take 2 lang) else "en") +:+ "_") +:+
       Py.strip (Tasks.welcome nl) +:+
       (if bool_decide (format = "T") then "_T" else "").
Proof.
  unfold Tasks.welcome_of, Tasks.mogrify_message_id, Py.mem.
  destruct (decide (Py.strip (Tasks.welcome nl) = "")) as [Hw|Hw].
  { rewrite (bool_decide_eq_true_2 _ Hw). split; [discriminate|]. by intros [? _]. }
  rewrite (bool_decide_eq_false_2 _ Hw).
  set (code := if bool_decide
                    (Py.lower (Py.take 2 lang) ∈
                     (λ l, Py.lower (Py.take 2 l)) <$> Tasks.language_list nl)
               then Py.lower (Py.take 2 lang) else "en").
  assert (Py.take 2 (Py.lower code) = code) as Hcode.
  { subst code. case_bool_decide; [|reflexivity].
    by rewrite lower_lower, take_lower, take_take. }
  rewrite Hcode.
  assert ((if bool_decide (format = "T")
           then (if bool_decide (code = "")
                 then Py.strip (Tasks.welcome nl)
                 else code +:+ "_" +:+ Py.strip (Tasks.welcome nl)) +:+ "_T"
           else if bool_decide (code = "")
                then Py.strip (Tasks.welcome nl)
                else code +:+ "_" +:+ Py.strip (Tasks.welcome nl)) =
          (if bool_decide (code = "") then "" else code +:+ "_") +:+
          Py.strip (Tasks.welcome nl) +:+
          (if bool_decide (format = "T") then "_T" else "")) as ->.
  { destruct (bool_decide (format = "T")), (bool_decide (code = ""));
      rewrite ?append_assoc, ?append_nil_r; reflexivity. }
  split.
  - intros [= <-]. by split.
  - intros [_ ->]. reflexivity.
Qed.

(** C9. For every contact, every list of newsletter slugs and every format,
    the message ids that [send_welcomes] hands to [send_message] form a list
    without repetition.  Each of them is the id a newsletter of the request
    resolves to, spelled out here: the newsletter's welcome, stripped and
    not empty, prefixed with the first two characters of the contact's
    language in lower case when the newsletter lists a language with that
    prefix and with [en] when it does not, and suffixed with [_T] for the
    format ['T'].  For a contact with an address, a token and a language
    the call succeeds, queues exactly one message per id of that list, and
    the list holds every id a newsletter of the request resolves to: two
    newsletters that resolve to one id have it sent once. *)
Theorem send_welcomes_no_duplicates (user_data : gmap string value)
    (newsletter_slugs : list string) (format : string) (w : world) :
  let out := Tasks.send_welcomes Newsletter_objects user_data newsletter_slugs
               format w in
  let language (lang : string) : Prop :=
    (user_data !! "lang" = None ∧ lang = "en") ∨
    user_data !! "lang" = Some (VStr lang) in
  let resolves (lang : string) (nl : Tasks.Newsletter) (id : string) : Prop :=
    Py.strip (Tasks.welcome nl) ≠ "" ∧
    id = (if bool_decide
               ((if bool_decide
                      (Py.lower (Py.take 2 lang) ∈
                       (λ l, Py.lower (Py.take 2 l)) <$> Tasks.language_list nl)
                 then Py.lower (Py.take 2 lang) else "en") = "")
          then ""
          else (if bool_decide
                     (Py.lower (Py.take 2 lang) ∈
                      (λ l, Py.lower (Py.take 2 l)) <$> Tasks.language_list nl)
                then Py.lower (Py.take 2 lang) else "en") +:+ "_") +:+
         Py.strip (Tasks.welcome nl) +:+
         (if bool_decide (format = "T") then "_T" else "") in
  ∃ ids : list string,
    sent_ids (log out.2) = sent_ids (log w) ++ ids ∧
    NoDup ids ∧
    (∀ id, id ∈ ids →
       ∃ lang nl, language lang ∧
                  nl ∈ Newsletter_objects ∧ Tasks.slug nl ∈ newsletter_slugs ∧
                  resolves lang nl id) ∧
    (∀ email token lang,
       user_data !! "email" = Some email →
       user_data !! "token" = Some token →
       language lang →
       out = (Ok tt,
              logged ((λ id, send_message_delay id email token format) <$> ids) w) ∧
       ∀ id nl, nl ∈ Newsletter_objects → Tasks.slug nl ∈ newsletter_slugs →
                resolves lang nl id → id ∈ ids).
Proof.
  cbv zeta. unfold Tasks.send_welcomes.
  assert (∀ w0 : world, sent_ids (log w0) = sent_ids (log w0) ++ []) as Hnil
    by (intros; by rewrite app_nil_r).
  case_bool_decide as Hslugs.
  { exists []. split; [apply Hnil|]. split; [constructor|].
    split; [by intros id ?%elem_of_nil|].
    intros email token lang _ _ _. split; [unfold ret; by rewrite logged_nil|].
    intros id nl _ Hin _. subst. by apply elem_of_nil in Hin. }
  unfold bind, lift.
  destruct (Tasks.contact_lang user_data) as [lang|e] eqn:Hlang.
  - rewrite (collect_welcomes _ lang) by done.
    apply contact_lang_spec in Hlang as Hlanguage.
    destruct (user_data !! "email") as [email|] eqn:Hemail;
      [destruct (user_data !! "token") as [token|] eqn:Htoken|].
    + cbv beta iota. rewrite dispatch_all.
      eexists.
      split; [cbn [snd logged log]; by rewrite sent_ids_app, sent_ids_delay|].
      split; [apply NoDup_elements|]. split.
      * intros id (nl & Hnl & Hslug & Hid)%resolved_ids.
        exists lang, nl. split; [exact Hlanguage|]. split; [exact Hnl|].
        split; [exact Hslug|]. by apply welcome_of_resolves.
      * intros email' token' lang' [= <-] [= <-] Hlang'.
        apply contact_lang_spec in Hlang'.
        assert (lang' = lang) as -> by congruence.
        split; [done|]. intros id nl Hnl Hslug Hid. apply resolved_ids.
        exists nl. split; [exact Hnl|]. split; [exact Hslug|].
        by apply welcome_of_resolves.
    + cbv beta iota.
      rewrite (for_each_raising _ _ (Exn KeyError "token")) by done.
      exists []. split; [apply Hnil|]. split; [constructor|].
      split; [by intros id ?%elem_of_nil | by intros ???? [=]].
    + cbv beta iota.
      rewrite (for_each_raising _ _ (Exn KeyError "email")) by done.
      exists []. split; [apply Hnil|]. split; [constructor|].
      split; [by intros id ?%elem_of_nil | by intros ??? [=]].
  - exists []. split; [|split; [constructor|split]].
    + destruct (collect_welcomes_no_lang user_data format
                  (filter (λ nl, Tasks.slug nl ∈ newsletter_slugs) Newsletter_objects)
                  ∅ e Hlang) as [-> | ->]; [|apply Hnil].
      rewrite elements_empty. apply Hnil.
    + by intros id ?%elem_of_nil.
    + intros email token lang _ _ Hlang'.
      apply contact_lang_spec in Hlang'. congruence.
Qed.

End welcome_facts.

(** ** upsert_contact *)

Section contact_facts.

Variable Newsletter_objects : list Tasks.Newsletter.
Variable newsletter_map : gmap string string.
Variable group : string → option (list string).

Lemma to_subscribe_spec (delta : gmap string bool) (s : string) :
  s ∈ Tasks.to_subscribe delta ↔ delta !! s = Some true.
Proof.
  unfold Tasks.to_subscribe. rewrite list_elem_of_fmap. split.
  - intros ([k b] & -> & [Hb Hin]%list_elem_of_filter).
    cbn in *. subst b. by apply elem_of_map_to_list in Hin.
  - intros Hs. exists (s, true). split; [done|].
    apply list_elem_of_filter. split; [done|]. by apply elem_of_map_to_list.
Qed.

Lemma exempt_from_confirmation_spec (slugs : list string) :
  Tasks.exempt_from_confirmation Newsletter_objects slugs = true ↔
  ∃ nl, nl ∈ Newsletter_objects ∧ Tasks.slug nl ∈ slugs ∧
        Tasks.requires_double_optin nl = false.
Proof.
  unfold Tasks.exempt_from_confirmation, Py.mem.
  rewrite existsb_exists. split.
  - intros (nl & Hin & [Hs Hr]%andb_true_iff).
    exists nl. apply list_elem_of_In in Hin.
    apply bool_decide_eq_true in Hs. by apply negb_true_iff in Hr.
  - intros (nl & Hin & Hs & Hr). exists nl.
    split; [by apply list_elem_of_In|].
    apply andb_true_iff. split; [by apply bool_decide_eq_true|].
    by apply negb_true_iff.
Qed.

(** What the first half of [upsert_contact] leaves in [data]. *)
Lemma upsert_contact_fields_inv (api_call_type : string)
    (data data' : gmap string value) (user_data : option (gmap string value)) :
  Tasks.upsert_contact_fields Newsletter_objects group api_call_type data user_data
    = Ok data' →
  ∃ delta : gmap string bool,
    data' !! "newsletters" = Some (VFlags delta) ∧
    (if Tasks.optin_granted data user_data
     then data' !! "optin" = data !! "optin"
     else data' !! "optin" =
            Some (VBool (Tasks.exempt_from_confirmation Newsletter_objects
                           (Tasks.to_subscribe delta)))) ∧
    data' !! "token" = data !! "token".
Proof.
  unfold Tasks.upsert_contact_fields.
  set (fmt := match data !! "format" with
              | Some (VStr f) => _ | Some _ => _ | None => _ end).
  assert (∀ d, fmt = Ok d →
               d !! "optin" = data !! "optin" ∧ d !! "token" = data !! "token" ∧
               d !! "newsletters" = data !! "newsletters") as Hfmt.
  { subst fmt. intros d. destruct (data !! "format") as [[]|]; intros [= <-];
      by rewrite ?lookup_insert_ne. }
  destruct fmt as [d|]; [|done]. destruct (Hfmt d eq_refl) as (Ho & Ht & Hn).
  clear Hfmt.
  destruct (match d !! "newsletters" with
            | Some (VStr s) => _ | Some _ => _ | None => _ end)
    as [newsletters|]; [|done].
  destruct (match user_data with Some u => _ | None => _ end)
    as [cur|]; [|done].
  set (delta := Utils.parse_newsletters group api_call_type newsletters cur).
  assert (Tasks.optin_granted (<["newsletters" := VFlags delta]> d) user_data =
          Tasks.optin_granted data user_data) as ->.
  { unfold Tasks.optin_granted, get_truthy.
    by rewrite lookup_insert_ne, Ho. }
  destruct (Tasks.optin_granted data user_data); intros [= <-]; exists delta.
  - split; [apply lookup_insert_eq|].
    split; rewrite lookup_insert_ne by done; assumption.
  - split; [by rewrite lookup_insert_ne, lookup_insert_eq|].
    split; [apply lookup_insert_eq|].
    by rewrite !lookup_insert_ne.
Qed.

(** What the code does about opt-in.  When neither the request nor the
    contact record grants it, [upsert_contact] sets opt-in, and sets it to
    [True] exactly when the delta flags [True] the slug of some newsletter
    that does not require double opt-in.  The delta flags every requested
    slug, whether or not the contact is subscribed to it already. *)
Theorem optin_follows_the_delta (api_call_type : string)
    (data data' : gmap string value) (user_data : option (gmap string value)) :
  Tasks.upsert_contact_fields Newsletter_objects group api_call_type data user_data
    = Ok data' →
  Tasks.optin_granted data user_data = false →
  ∃ (delta : gmap string bool) (optin : bool),
    data' !! "newsletters" = Some (VFlags delta) ∧
    data' !! "optin" = Some (VBool optin) ∧
    (optin = true ↔
     ∃ nl, nl ∈ Newsletter_objects ∧ delta !! Tasks.slug nl = Some true ∧
           Tasks.requires_double_optin nl = false).
Proof.
  intros Hfields Hgranted.
  destruct (upsert_contact_fields_inv _ _ _ _ Hfields) as (delta & Hn & Ho & _).
  rewrite Hgranted in Ho. exists delta. eexists. split; [done|]. split; [done|].
  rewrite exempt_from_confirmation_spec.
  by setoid_rewrite to_subscribe_spec.
Qed.

End contact_facts.

(** Opt-in is not decided by the subscriptions that are added: a contact
    that is subscribed to a newsletter without double opt-in, and not opted
    in, asks for that newsletter again.  No subscription is added, and still
    opt-in is set to [True]. *)
Lemma optin_counts_resubscribed_slug :
  ¬ (∀ (Newsletter_objects : list Tasks.Newsletter)
       (group : string → option (list string)) (api_call_type : string)
       (data data' : gmap string value) (user_data : option (gmap string value))
       (delta : gmap string bool),
       Tasks.upsert_contact_fields Newsletter_objects group api_call_type data
         user_data = Ok data' →
       Tasks.optin_granted data user_data = false →
       data' !! "newsletters" = Some (VFlags delta) →
       (data' !! "optin" = Some (VBool true) ↔
        ∃ nl, nl ∈ Newsletter_objects ∧
              delta !! Tasks.slug nl = Some true ∧
              ¬ (Tasks.slug nl ∈ subscribed user_data) ∧
              Tasks.requires_double_optin nl = false)).
Proof.
  intros Hclaim.
  assert (Tasks.upsert_contact_fields Sample.newsletters Sample.groups
            Utils.SUBSCRIBE Sample.resubscribe (Some Sample.known_contact)
          = Ok Sample.resubscribe_fields) as Hrun by (vm_compute; reflexivity).
  destruct (Hclaim _ _ _ _ _ _ {[ "mozilla-and-you" := true ]} Hrun)
    as [Hto _]; [reflexivity | reflexivity |].
  destruct Hto as (nl & Hnl & Hdelta & Hnew & _); [reflexivity|].
  apply Hnew. change (subscribed (Some Sample.known_contact)) with ["mozilla-and-you"].
  destruct (decide (Tasks.slug nl = "mozilla-and-you")) as [->|Hne]; [by left|].
  by rewrite lookup_singleton_ne in Hdelta.
Qed.

(** C3 at the request [Sample.resubscribe] for [Sample.known_contact]: the
    contact is subscribed to ["mozilla-and-you"] already and nothing grants
    opt-in, so no slug is newly subscribed; the delta still flags the
    requested slug, [to_subscribe] holds it, and opt-in is set to [True]. *)
Theorem resubscribing_grants_optin :
  Tasks.upsert_contact_fields Sample.newsletters Sample.groups Utils.SUBSCRIBE
    Sample.resubscribe (Some Sample.known_contact) = Ok Sample.resubscribe_fields ∧
  Tasks.optin_granted Sample.resubscribe (Some Sample.known_contact) = false ∧
  subscribed (Some Sample.known_contact) = ["mozilla-and-you"] ∧
  Sample.resubscribe_fields !! "newsletters" =
    Some (VFlags {[ "mozilla-and-you" := true ]}) ∧
  Tasks.to_subscribe {[ "mozilla-and-you" := true ]} = ["mozilla-and-you"] ∧
  Sample.resubscribe_fields !! "optin" = Some (VBool true).
Proof. repeat split; vm_compute; reflexivity. Qed.

Section upsert_facts.

Variable Newsletter_objects : list Tasks.Newsletter.
Variable newsletter_map : gmap string string.
Variable group : string → option (list string).

(** The create path: one token is drawn, one create call is issued, and
    the drawn token is returned. *)
Lemma upsert_contact_create (api_call_type : string)
    (data d contact : gmap string value) (w : world) :
  Tasks.upsert_contact_fields Newsletter_objects group api_call_type data None
    = Ok d →
  Sfdc.to_vendor newsletter_map (<["token" := VStr (uuid4 w (minted w))]> d)
    = Ok contact →
  contact_fault w (contact_writes (log w)) = None →
  ∃ w', Tasks.upsert_contact Newsletter_objects newsletter_map group
          api_call_type data None w
        = (Ok (VStr (uuid4 w (minted w)), true), w') ∧
        log w' = log w ++ [contact_create contact] ∧
        minted w' = S (minted w).
Proof.
  intros Hfields Hvendor Hfault.
  unfold Tasks.upsert_contact, bind at 1, lift. rewrite Hfields.
  unfold bind at 1, generate_token.
  unfold Sfdc.add, bind, lift. rewrite Hvendor.
  unfold upstream_write. cbn [log contact_fault]. rewrite Hfault.
  unfold Tasks.return_token. rewrite lookup_insert_eq.
  eexists. split; [reflexivity|]. by split.
Qed.

(** The update path for a contact that has a token: no token is drawn, and
    what is returned is the [token] entry of the request data. *)
Lemma upsert_contact_update (api_call_type : string)
    (data d user_data : gmap string value) (token : value) (w w1 : world) :
  Tasks.upsert_contact_fields Newsletter_objects group api_call_type data
    (Some user_data) = Ok d →
  user_data !! "token" = Some token →
  truthy token = true →
  Sfdc.update newsletter_map user_data d w = (Ok tt, w1) →
  Tasks.upsert_contact Newsletter_objects newsletter_map group api_call_type
    data (Some user_data) w
  = (match data !! "token" with
     | Some t => Ok (t, false)
     | None => Raise (Exn KeyError "token")
     end, w1).
Proof.
  intros Hfields Htok Htruthy Hupdate.
  destruct (upsert_contact_fields_inv _ _ _ _ _ _ Hfields) as (_ & _ & _ & Hd).
  unfold Tasks.upsert_contact, bind at 1, lift. rewrite Hfields, Htok.
  unfold bind at 1, ret at 1. rewrite Htruthy.
  unfold bind at 1, ret at 1. unfold bind. rewrite Hupdate.
  unfold Tasks.return_token. rewrite Hd.
  by destruct (data !! "token").
Qed.

End upsert_facts.

(** C4 at the request [Sample.resubscribe] for the contact
    [Sample.known_contact], which has the token ["tok-1"]: one update call
    goes upstream and no create call, and then the function raises
    [KeyError] where it should return [("tok-1", False)], because the token
    is read from the request data, which has none. *)
Theorem upsert_known_contact_by_email_raises :
  ∃ w',
    Tasks.upsert_contact Sample.newsletters Sample.newsletter_map Sample.groups
      Utils.SUBSCRIBE Sample.resubscribe (Some Sample.known_contact) Sample.w0
    = (Raise (Exn KeyError "token"), w') ∧
    log w' = [contact_update (ByField "Token__c" (VStr "tok-1"))
                Sample.resubscribe_contact] ∧
    minted w' = 0.
Proof. eexists. split; [vm_compute; reflexivity|]. by split. Qed.

(** ** The session-refreshing client *)

Section refresh_facts.

Variable salesforce : nat → Sfdc.request → result Sfdc.response.
Variable SalesforceLogin : nat → result (string * string).
Variable float : string → option Q.

Lemma requests_sent_app (a b : list Sfdc.sf_event) :
  Sfdc.requests_sent (a ++ b) = Sfdc.requests_sent a ++ Sfdc.requests_sent b.
Proof. apply omap_app. Qed.

Lemma logins_done_app (a b : list Sfdc.sf_event) :
  Sfdc.logins_done (a ++ b) = Sfdc.logins_done a + Sfdc.logins_done b.
Proof. unfold Sfdc.logins_done. by rewrite omap_app, length_app. Qed.

(** Reading the rate-limit header sends nothing and logs in nowhere. *)
Lemma report_limit_quiet (resp : Sfdc.response) (c : Sfdc.client) :
  ∃ (r : result unit) (evs : list Sfdc.sf_event),
    Sfdc.report_limit float resp c =
      (r, Sfdc.Client (Sfdc.session_id c) (Sfdc.sf_log c ++ evs)) ∧
    Sfdc.requests_sent evs = [] ∧ Sfdc.logins_done evs = 0.
Proof.
  assert (∀ r : result unit,
            (r, c) = (r, Sfdc.Client (Sfdc.session_id c) (Sfdc.sf_log c ++ [])))
    as Hsame by (intros r; destruct c; cbn; by rewrite app_nil_r).
  unfold Sfdc.report_limit.
  destruct (Sfdc.headers resp !! "sforce-limit-info") as [header|];
    [|exists (Ok tt), []; split; [apply Hsame|done]].
  destruct (Sfdc.usage_limit header) as [[usage limit]|];
    [|exists (Ok tt), []; split; [apply Hsame|done]].
  case_bool_decide; [exists (Ok tt), []; split; [apply Hsame|done]|].
  destruct (float usage) as [u|];
    [|eexists _, []; split; [apply Hsame|done]].
  destruct (float limit) as [l|];
    [|eexists _, []; split; [apply Hsame|done]].
  destruct (Qeq_bool l 0); [eexists _, []; split; [apply Hsame|done]|].
  eexists (Ok tt), [_]. by split.
Qed.

Lemma finish_quiet (resp : Sfdc.response) (c : Sfdc.client) :
  Sfdc.session_id (finish float resp c).2 = Sfdc.session_id c ∧
  Sfdc.requests_sent (Sfdc.sf_log (finish float resp c).2) =
    Sfdc.requests_sent (Sfdc.sf_log c) ∧
  Sfdc.logins_done (Sfdc.sf_log (finish float resp c).2) =
    Sfdc.logins_done (Sfdc.sf_log c).
Proof.
  unfold finish, bind.
  destruct (report_limit_quiet resp c) as (r & evs & -> & Hr & Hl).
  destruct r; unfold ret; cbn [snd Sfdc.session_id Sfdc.sf_log];
    rewrite requests_sent_app, logins_done_app, Hr, Hl, app_nil_r; auto.
Qed.

(** The call, by the answers of the upstream. *)
Lemma call_salesforce_cases (method url : string) (kwargs : gmap string value)
    (c : Sfdc.client) :
  let sent := Sfdc.requests_sent (Sfdc.sf_log c) in
  let logins := Sfdc.logins_done (Sfdc.sf_log c) in
  let first := Sfdc.Request (Sfdc.session_id c) method url kwargs in
  Sfdc._call_salesforce salesforce SalesforceLogin float method url kwargs c =
  match salesforce (length sent) first with
  | Ok resp =>
      finish float resp
        (Sfdc.Client (Sfdc.session_id c) (Sfdc.sf_log c ++ [Sfdc.sf_request first]))
  | Raise e =>
      if bool_decide (exn_cls e = SalesforceExpiredSession) then
        match SalesforceLogin logins with
        | Ok (fresh, _) =>
            let second := Sfdc.Request fresh method url kwargs in
            match salesforce (length sent + 1) second with
            | Ok resp =>
                finish float resp
                  (Sfdc.Client fresh
                     (Sfdc.sf_log c ++
                      [Sfdc.sf_request first; Sfdc.sf_login;
                       Sfdc.sf_request second;
                       Sfdc.sf_incr "news.backends.sfdc.session_expired"]))
            | Raise e2 =>
                (Raise e2,
                 Sfdc.Client fresh
                   (Sfdc.sf_log c ++
                    [Sfdc.sf_request first; Sfdc.sf_login; Sfdc.sf_request second]))
            end
        | Raise login_error =>
            (Raise login_error,
             Sfdc.Client (Sfdc.session_id c)
               (Sfdc.sf_log c ++ [Sfdc.sf_request first; Sfdc.sf_login]))
        end
      else
        (Raise e,
         Sfdc.Client (Sfdc.session_id c) (Sfdc.sf_log c ++ [Sfdc.sf_request first]))
  end.
Proof.
  cbv zeta.
  unfold Sfdc._call_salesforce, bind at 1, try_except,
    Sfdc.SFType_call_salesforce at 1.
  destruct (salesforce _ _) as [resp|e]; [reflexivity|].
  destruct (bool_decide (exn_cls e = SalesforceExpiredSession)); [|reflexivity].
  unfold bind at 1, Sfdc.get_sf_session. cbn [Sfdc.sf_log Sfdc.session_id].
  rewrite logins_done_app.
  change (Sfdc.logins_done [Sfdc.sf_request _]) with 0. rewrite Nat.add_0_r.
  destruct (SalesforceLogin _) as [[fresh inst]|login_error].
  - unfold bind at 1, Sfdc.set_session_id.
    unfold bind at 1, Sfdc.SFType_call_salesforce.
    cbn [Sfdc.sf_log Sfdc.session_id fst].
    rewrite !requests_sent_app, !length_app.
    change (length (Sfdc.requests_sent [Sfdc.sf_request _])) with 1.
    change (length (Sfdc.requests_sent [Sfdc.sf_login])) with 0.
    rewrite Nat.add_0_r, <- !app_assoc. cbn [app].
    destruct (salesforce _ _) as [resp|e2]; [|reflexivity].
    unfold bind at 1, Sfdc.sf_emit. unfold bind at 1, ret at 1.
    cbn [Sfdc.sf_log Sfdc.session_id]. rewrite <- !app_assoc. reflexivity.
  - by rewrite <- !app_assoc.
Qed.

(** C7. One call through the session-refreshing client, by what the upstream
    answers to its first request:
    - a response: one request, no login;
    - an error other than session-expired: one request, no login, and that
      error propagates;
    - session-expired: exactly one login; when it yields a session id, that
      id is stored and the same method, url and arguments are sent once more
      under it, two requests in all; whatever the second request raises,
      session-expired included, propagates, and nothing more is sent.  When
      the login itself fails its error propagates and nothing is re-sent. *)
Theorem session_refresh_once (method url : string) (kwargs : gmap string value)
    (c : Sfdc.client) :
  let sent := Sfdc.requests_sent (Sfdc.sf_log c) in
  let logins := Sfdc.logins_done (Sfdc.sf_log c) in
  let first := Sfdc.Request (Sfdc.session_id c) method url kwargs in
  let out := Sfdc._call_salesforce salesforce SalesforceLogin float
               method url kwargs c in
  match salesforce (length sent) first with
  | Ok resp =>
      out = finish float resp
              (Sfdc.Client (Sfdc.session_id c) (Sfdc.sf_log c ++ [Sfdc.sf_request first])) ∧
      Sfdc.requests_sent (Sfdc.sf_log out.2) = sent ++ [first] ∧
      Sfdc.logins_done (Sfdc.sf_log out.2) = logins
  | Raise e =>
      if bool_decide (exn_cls e = SalesforceExpiredSession) then
        Sfdc.logins_done (Sfdc.sf_log out.2) = logins + 1 ∧
        match SalesforceLogin logins with
        | Ok (fresh, _) =>
            let second := Sfdc.Request fresh method url kwargs in
            Sfdc.requests_sent (Sfdc.sf_log out.2) = sent ++ [first; second] ∧
            Sfdc.session_id out.2 = fresh ∧
            match salesforce (length sent + 1) second with
            | Ok resp =>
                out = finish float resp
                        (Sfdc.Client fresh
                           (Sfdc.sf_log c ++
                            [Sfdc.sf_request first; Sfdc.sf_login;
                             Sfdc.sf_request second;
                             Sfdc.sf_incr "news.backends.sfdc.session_expired"]))
            | Raise e2 => out.1 = Raise e2
            end
        | Raise login_error =>
            out.1 = Raise login_error ∧
            Sfdc.requests_sent (Sfdc.sf_log out.2) = sent ++ [first]
        end
      else
        out.1 = Raise e ∧
        Sfdc.requests_sent (Sfdc.sf_log out.2) = sent ++ [first] ∧
        Sfdc.logins_done (Sfdc.sf_log out.2) = logins
  end.
Proof.
  cbv zeta. rewrite call_salesforce_cases. cbv zeta.
  destruct (salesforce _ _) as [resp|e].
  - split; [reflexivity|].
    match goal with |- context [finish float resp ?c'] =>
      destruct (finish_quiet resp c') as (_ & -> & ->) end.
    cbn [Sfdc.sf_log]. rewrite requests_sent_app, logins_done_app.
    split; [done|]. change (Sfdc.logins_done [Sfdc.sf_request _]) with 0. lia.
  - destruct (bool_decide (exn_cls e = SalesforceExpiredSession)).
    + destruct (SalesforceLogin _) as [[fresh inst]|login_error].
      * cbv zeta. destruct (salesforce _ _) as [resp|e2].
        -- match goal with |- context [finish float resp ?c'] =>
             destruct (finish_quiet resp c') as (-> & -> & ->) end.
           cbn [Sfdc.sf_log Sfdc.session_id].
           rewrite requests_sent_app, logins_done_app.
           split; [cbn; lia|]. by repeat split.
        -- cbn [fst snd Sfdc.sf_log Sfdc.session_id].
           rewrite requests_sent_app, logins_done_app.
           split; [cbn; lia|]. by repeat split.
      * cbn [fst snd Sfdc.sf_log Sfdc.session_id].
        rewrite requests_sent_app, logins_done_app.
        split; [cbn; lia|]. by repeat split.
    + cbn [fst snd Sfdc.sf_log Sfdc.session_id].
      rewrite requests_sent_app, logins_done_app.
      split; [done|]. split; [done|]. cbn; lia.
Qed.

End refresh_facts.

(** ** Message ids: the documented cases *)

Example mogrify_fr_H :
  Tasks.mogrify_message_id "welcome" (Some "fr") "H" = "fr_welcome".
Proof. reflexivity. Qed.

Example mogrify_pt_T :
  Tasks.mogrify_message_id "welcome" (Some "pt") "T" = "pt_welcome_T".
Proof. reflexivity. Qed.

Example mogrify_no_lang :
  Tasks.mogrify_message_id "welcome" (Some "") "T" = "welcome_T" ∧
  Tasks.mogrify_message_id "welcome" None "T" = "welcome_T".
Proof. split; reflexivity. Qed.

(** Two newsletters share the welcome [MoCo_Welcome] and both have French:
    one message goes out. *)
Example send_welcomes_shared_welcome :
  Tasks.send_welcomes Sample.newsletters Sample.known_contact
    ["mozilla-and-you"; "firefox-tips"; "about-mozilla"] "H" Sample.w0 =
  (Ok tt,
   logged [send_message_delay "fr_MoCo_Welcome" (VStr "dude@example.com")
             (VStr "tok-1") "H"] Sample.w0).
Proof. vm_compute. reflexivity. Qed.

(** A contact whose language, Portuguese, neither newsletter has, asking
    for text: both newsletters fall back to English, both get the [_T]
    suffix, both resolve to [en_MoCo_Welcome_T], and that id goes out
    once. *)
Example send_welcomes_fallback_once :
  Tasks.send_welcomes Sample.newsletters
    (<["lang" := VStr "pt-BR"]> Sample.known_contact)
    ["mozilla-and-you"; "firefox-tips"; "about-mozilla"] "T" Sample.w0 =
  (Ok tt,
   logged [send_message_delay "en_MoCo_Welcome_T" (VStr "dude@example.com")
             (VStr "tok-1") "T"] Sample.w0).
Proof. vm_compute. reflexivity. Qed.

(** A contact whose language, German, only one of the two newsletters has:
    the fallback is each newsletter's own, so two ids go out, one each. *)
Example send_welcomes_own_fallback :
  sent_ids
    (log (Tasks.send_welcomes Sample.newsletters
            (<["lang" := VStr "DE"]> Sample.known_contact)
            ["mozilla-and-you"; "firefox-tips"] "H" Sample.w0).2)
  ≡ₚ ["de_MoCo_Welcome"; "en_MoCo_Welcome"].
Proof. vm_compute. first [reflexivity | apply perm_swap]. Qed.

(** ** The theorems at sample inputs *)

Lemma parse_newsletters_SUBSCRIBE_keys_witness :
  Utils.parse_newsletters Sample.groups Utils.SUBSCRIBE
    ["firefox"; "about-mozilla"] (Some ["firefox-tips"]) !! "firefox-tips"
    = Some true ∧
  (true = true ∧
   ("firefox-tips" ∈ ["firefox"; "about-mozilla"] ∨
    ∃ nl members, nl ∈ ["firefox"; "about-mozilla"] ∧
                  Sample.groups nl = Some members ∧ "firefox-tips" ∈ members) ∧
   "firefox-tips" ∈ Utils.grouped Sample.groups ["firefox"; "about-mozilla"] ∧
   NoDup (elements (Utils.grouped Sample.groups ["firefox"; "about-mozilla"]))).
Proof.
  split; [vm_compute; reflexivity|].
  apply (parse_newsletters_SUBSCRIBE_keys Sample.groups
           ["firefox"; "about-mozilla"] (Some ["firefox-tips"]) "firefox-tips" true).
  vm_compute. reflexivity.
Defined.

Lemma optin_follows_the_delta_witness :
  ∃ (delta : gmap string bool) (optin : bool),
    Sample.resubscribe_fields !! "newsletters" = Some (VFlags delta) ∧
    Sample.resubscribe_fields !! "optin" = Some (VBool optin) ∧
    (optin = true ↔
     ∃ nl, nl ∈ Sample.newsletters ∧ delta !! Tasks.slug nl = Some true ∧
           Tasks.requires_double_optin nl = false).
Proof.
  apply (optin_follows_the_delta Sample.newsletters Sample.groups Utils.SUBSCRIBE
           Sample.resubscribe Sample.resubscribe_fields (Some Sample.known_contact)).
  - vm_compute. reflexivity.
  - vm_compute. reflexivity.
Defined.

Lemma retry_backoff_schedule_witness :
  ∃ w', Tasks.run_job 9 "news.tasks.upsert_user" Sample.unreachable 0 [] ∅
          Sample.w0 =
          (Ok (Some (Tasks.Failed (Exn IOError "Connection timed out"))), w') ∧
        Tasks.countdowns (log w') = backoff_schedule ∧
        Tasks.deliveries (log w') = 9 ∧
        Tasks.failures (log w') =
          [("news.tasks.upsert_user", Exn IOError "Connection timed out")].
Proof.
  destruct (retry_backoff_schedule "news.tasks.upsert_user" Sample.unreachable
              [] ∅ (Exn IOError "Connection timed out") Sample.w0 9)
    as (_ & _ & w' & Hrun & Hc & Hd & Hf).
  - reflexivity.
  - vm_compute. reflexivity.
  - intros w. exists w. split; [reflexivity | apply quiet_step_refl].
  - reflexivity.
  - unfold Tasks.max_retries. lia.
  - exists w'. repeat split; assumption.
Defined.

Lemma ignored_error_is_success_witness :
  Tasks.et_task "news.tasks.send_message" Sample.bad_address 0 [] ∅
    (logged [task_started "news.tasks.send_message" 0] Sample.w0) =
    (Ok VNone,
     logged (submit_events "news.tasks.send_message" ∅)
       (logged [task_started "news.tasks.send_message" 0] Sample.w0)) ∧
  ∃ w3, Tasks.deliver "news.tasks.send_message" Sample.bad_address 0 [] ∅ Sample.w0 =
          (Ok (Some (Tasks.Succeeded VNone)), w3) ∧
        Tasks.countdowns (log w3) = [] ∧
        Tasks.failures (log w3) = [] ∧
        Tasks.deliveries (log w3) = 1.
Proof.
  destruct (ignored_error_is_success "news.tasks.send_message" Sample.bad_address
              0 [] ∅ Sample.w0
              (logged (submit_events "news.tasks.send_message" ∅)
                 (logged [task_started "news.tasks.send_message" 0] Sample.w0))
              (Exn NewsletterException "Error: InvalidEmailAddress for subscriber")
              "InvalidEmailAddress")
    as (Het & w3 & Hrun & Hc & Hf & Hd).
  - reflexivity.
  - reflexivity.
  - right. left.
  - left.
  - vm_compute. reflexivity.
  - split; [exact Het|]. exists w3.
    split; [exact Hrun|]. split; [exact Hc|]. split; [exact Hf | exact Hd].
Defined.

Lemma update_student_ambassadors_raises_witness :
  Tasks.update_student_ambassadors_in Sample.newsletter_map
    (reverse Tasks.FSA_FIELDS.*1) {[ "FIRST_NAME" := VStr "Dude" ]} (VStr "tok-1")
    Sample.w0 =
    (Raise (Exn ValueError "too many values to unpack"), Sample.w0) ∧
  Tasks.update_student_ambassadors Sample.newsletter_map
    {[ "FIRST_NAME" := VStr "Dude" ]} (VStr "tok-1") Sample.w0 =
    (Raise (Exn ValueError "too many values to unpack"), Sample.w0) ∧
  Forall (λ k, ∃ e, Tasks.unpack_pair k = Raise e) (reverse Tasks.FSA_FIELDS.*1).
Proof.
  apply (update_student_ambassadors_raises Sample.newsletter_map
           (reverse Tasks.FSA_FIELDS.*1) {[ "FIRST_NAME" := VStr "Dude" ]}
           (VStr "tok-1") Sample.w0).
  apply reverse_Permutation.
Defined.

(** * Further properties of the code *)

(** ** parse_newsletters: the other actions, and the delta applied *)

Section delta_facts.

Variable group : string → option (list string).

Lemma parse_UNSUBSCRIBE_lookup (R : list string) (C : option (list string))
    (s : string) :
  Utils.parse_newsletters group Utils.UNSUBSCRIBE R C !! s =
    if bool_decide (s ∈ R) then Some false else None.
Proof.
  unfold Utils.parse_newsletters.
  change (bool_decide (Utils.UNSUBSCRIBE = Utils.SUBSCRIBE)) with false.
  change (bool_decide (Utils.UNSUBSCRIBE = Utils.UNSUBSCRIBE)) with true.
  change (bool_decide (Utils.UNSUBSCRIBE = Utils.SET)) with false.
  cbn [orb]. by rewrite mark_lookup, lookup_empty.
Qed.

(** With action UNSUBSCRIBE the delta has exactly the requested slugs as
    keys and sends each of them to [False], whatever the contact is
    subscribed to: a slug the contact never had is flagged too. *)
Theorem parse_newsletters_UNSUBSCRIBE_exact (R : list string)
    (C : option (list string)) :
  Utils.parse_newsletters group Utils.UNSUBSCRIBE R C =
    gset_to_gmap false (list_to_set R) ∧
  dom (Utils.parse_newsletters group Utils.UNSUBSCRIBE R C) = list_to_set R ∧
  ∀ s, Utils.parse_newsletters group Utils.UNSUBSCRIBE R C !! s ≠ Some true.
Proof.
  assert (Utils.parse_newsletters group Utils.UNSUBSCRIBE R C =
          gset_to_gmap false (list_to_set R)) as Heq.
  { apply map_eq. intros s.
    rewrite parse_UNSUBSCRIBE_lookup, lookup_gset_to_gmap.
    destruct (decide (s ∈ R)) as [HR|HR].
    - rewrite bool_decide_eq_true_2 by done.
      by rewrite option_guard_True by by apply elem_of_list_to_set.
    - rewrite bool_decide_eq_false_2 by done.
      by rewrite option_guard_False by by rewrite elem_of_list_to_set. }
  split; [exact Heq|]. split.
  - by rewrite Heq, dom_gset_to_gmap.
  - intros s. rewrite parse_UNSUBSCRIBE_lookup. by case_bool_decide.
Qed.

(** An action that is none of the three constants changes nothing. *)
Theorem parse_newsletters_other_action (api_call_type : string)
    (R : list string) (C : option (list string)) :
  api_call_type ≠ Utils.SUBSCRIBE →
  api_call_type ≠ Utils.UNSUBSCRIBE →
  api_call_type ≠ Utils.SET →
  Utils.parse_newsletters group api_call_type R C = ∅.
Proof.
  intros H1 H2 H3. unfold Utils.parse_newsletters.
  by rewrite !bool_decide_eq_false_2 by done.
Qed.

Lemma elem_of_apply_delta (cur : gset string) (delta : gmap string bool)
    (s : string) :
  s ∈ apply_delta cur delta ↔
  (s ∈ cur ∨ delta !! s = Some true) ∧ delta !! s ≠ Some false.
Proof.
  unfold apply_delta.
  rewrite elem_of_difference, elem_of_union, !elem_of_dom.
  assert (∀ b, is_Some (filter (λ kv : string * bool, kv.2 = b) delta !! s) ↔
               delta !! s = Some b) as Hf.
  { intros b. split.
    - intros [x [Hx Hb]%map_lookup_filter_Some]. cbn in Hb. by subst.
    - intros Hs. exists b. by apply map_lookup_filter_Some. }
  by rewrite !Hf.
Qed.

(** The subscriptions after the delta is applied: SET leaves exactly the
    requested slugs, SUBSCRIBE adds the expanded request to what was there,
    UNSUBSCRIBE removes the requested slugs from it. *)
Theorem subscriptions_after_delta (R : list string) (C : option (list string)) :
  apply_delta (Utils.cur_set C) (Utils.parse_newsletters group Utils.SET R C)
    = list_to_set R ∧
  apply_delta (Utils.cur_set C) (Utils.parse_newsletters group Utils.SUBSCRIBE R C)
    = Utils.cur_set C ∪ Utils.grouped group R ∧
  apply_delta (Utils.cur_set C) (Utils.parse_newsletters group Utils.UNSUBSCRIBE R C)
    = Utils.cur_set C ∖ list_to_set R.
Proof.
  split; [|split]; apply set_eq; intros s; rewrite elem_of_apply_delta.
  - rewrite parse_SET_lookup, elem_of_list_to_set.
    destruct (decide (s ∈ R)) as [HR|HR].
    + rewrite bool_decide_eq_true_2 by done. intuition congruence.
    + rewrite (bool_decide_eq_false_2 (s ∈ R)) by done.
      case_bool_decide; intuition congruence.
  - rewrite parse_SUBSCRIBE_lookup, elem_of_union.
    case_bool_decide; intuition congruence.
  - rewrite parse_UNSUBSCRIBE_lookup, elem_of_difference, elem_of_list_to_set.
    case_bool_decide; intuition congruence.
Qed.

(** Asking again for what a SET request has just established: every
    requested slug is flagged [True] once more and none is flagged [False]. *)
Theorem parse_newsletters_SET_again (R : list string) (C : option (list string)) :
  let after :=
    elements (apply_delta (Utils.cur_set C)
                (Utils.parse_newsletters group Utils.SET R C)) in
  Utils.parse_newsletters group Utils.SET R (Some after) =
    gset_to_gmap true (list_to_set R).
Proof.
  cbv zeta. destruct (subscriptions_after_delta R C) as (-> & _ & _).
  apply map_eq. intros s. rewrite parse_SET_lookup, lookup_gset_to_gmap.
  cbn [Utils.cur_set]. rewrite list_to_set_elements_L.
  destruct (decide (s ∈ R)) as [HR|HR].
  - rewrite bool_decide_eq_true_2 by done.
    by rewrite option_guard_True by by apply elem_of_list_to_set.
  - rewrite (bool_decide_eq_false_2 (s ∈ R)) by done.
    rewrite bool_decide_eq_false_2 by by rewrite elem_of_list_to_set.
    by rewrite option_guard_False by by rewrite elem_of_list_to_set.
Qed.

End delta_facts.

(** ** Languages *)

Section language_facts.

Variable newsletter_languages : gset string.

Lemma find_app {A} (f : A → bool) (l1 l2 : list A) :
  List.find f (l1 ++ l2) =
    match List.find f l1 with Some x => Some x | None => List.find f l2 end.
Proof.
  induction l1 as [|x l1 IH]; [done|]. cbn. by destruct (f x).
Qed.

Lemma find_supported (langs : list string) :
  match List.find (λ lang, bool_decide (lang ∈ newsletter_languages)) langs with
  | Some l => l ∈ langs ∧ l ∈ newsletter_languages
  | None => ∀ l, l ∈ langs → l ∉ newsletter_languages
  end.
Proof.
  induction langs as [|x langs IH]; cbn [List.find].
  - by intros l ?%elem_of_nil.
  - case_bool_decide as Hx; [split; [by left|done]|].
    destruct (List.find _ langs) as [l|].
    + destruct IH. split; [by right|done].
    + intros l [->|?]%elem_of_cons; auto.
Qed.

(** [get_best_language] gives [None] only for the empty list.  For a list
    that starts with [first] it gives a language: a listed language that is
    supported if there is one; otherwise the two-letter prefix of a listed
    language if such a prefix is supported; otherwise [first], supported or
    not. *)
Theorem get_best_language_choice (first : string) (rest : list string) :
  Languages.get_best_language newsletter_languages [] = None ∧
  ∃ best,
    Languages.get_best_language newsletter_languages (first :: rest) = Some best ∧
    ((∃ l, l ∈ first :: rest ∧ l ∈ newsletter_languages) →
       best ∈ first :: rest ∧ best ∈ newsletter_languages) ∧
    ((∀ l, l ∈ first :: rest → l ∉ newsletter_languages) →
     (∃ l, l ∈ first :: rest ∧ Py.take 2 l ∈ newsletter_languages) →
       best ∈ newsletter_languages ∧ ∃ l, l ∈ first :: rest ∧ best = Py.take 2 l) ∧
    ((∀ l, l ∈ first :: rest →
        (l ∉ newsletter_languages) ∧ (Py.take 2 l ∉ newsletter_languages)) →
       best = first).
Proof.
  split; [done|]. unfold Languages.get_best_language. rewrite find_app.
  pose proof (find_supported (first :: rest)) as Hexact.
  pose proof (find_supported (Py.take 2 <$> first :: rest)) as Hpre.
  destruct (List.find _ (first :: rest)) as [l|].
  - exists l. split; [done|]. destruct Hexact as [Hin Hsup].
    split; [done|]. split.
    + intros Hnone. by destruct (Hnone l Hin).
    + intros Hnone. by destruct (Hnone l Hin).
  - destruct (List.find _ (Py.take 2 <$> first :: rest)) as [l|].
    + exists l. split; [done|]. destruct Hpre as [Hin Hsup].
      split; [intros (l' & ? & ?); by destruct (Hexact l')|].
      apply list_elem_of_fmap in Hin as (l0 & -> & Hl0).
      split; [intros _ _; split; [done | by exists l0]|].
      intros Hnone. by destruct (Hnone l0 Hl0).
    + exists first. split; [done|].
      split; [intros (l' & ? & ?); by destruct (Hexact l')|].
      split; [|done].
      intros _ (l' & Hl' & Hsup). destruct (Hpre (Py.take 2 l')); [|done].
      apply list_elem_of_fmap. by exists l'.
Qed.

End language_facts.

Lemma is_alpha_upper (c : ascii) :
  Languages.is_alpha (Py.upper_char c) = Languages.is_alpha c ∧
  bool_decide (Py.upper_char c = "-"%char) = bool_decide (c = "-"%char) ∧
  bool_decide (Py.upper_char c = "010"%char) = bool_decide (c = "010"%char).
Proof. destruct c as [[] [] [] [] [] [] [] []]; vm_compute; done. Qed.

Lemma is_alpha_lower (c : ascii) :
  Languages.is_alpha (Py.lower_char c) = Languages.is_alpha c ∧
  bool_decide (Py.lower_char c = "-"%char) = bool_decide (c = "-"%char) ∧
  bool_decide (Py.lower_char c = "010"%char) = bool_decide (c = "010"%char).
Proof. destruct c as [[] [] [] [] [] [] [] []]; vm_compute; done. Qed.

Lemma list_ascii_map_chars (f : ascii → ascii) (s : string) :
  String.list_ascii_of_string (Py.map_chars f s) =
    List.map f (String.list_ascii_of_string s).
Proof. induction s as [|c s IH]; [done|]. cbn. by rewrite IH. Qed.

Section case_folding.

Variable f : ascii → ascii.
Hypothesis f_alpha : ∀ c, Languages.is_alpha (f c) = Languages.is_alpha c.
Hypothesis f_dash : ∀ c, bool_decide (f c = "-"%char) = bool_decide (c = "-"%char).
Hypothesis f_nl : ∀ c, bool_decide (f c = "010"%char) = bool_decide (c = "010"%char).

Lemma region_and_end_fold (l : list ascii) :
  Languages.region_and_end (List.map f l) = Languages.region_and_end l.
Proof.
  destruct l as [|a [|b [|c [|d [|e l]]]]]; cbn;
    rewrite ?f_alpha, ?f_dash, ?f_nl; reflexivity.
Qed.

Lemma LANG_RE_match_fold (s : string) :
  Languages.LANG_RE_match (Py.map_chars f s) = Languages.LANG_RE_match s.
Proof.
  unfold Languages.LANG_RE_match. rewrite list_ascii_map_chars.
  destruct (String.list_ascii_of_string s) as [|a [|b rest]]; [done..|].
  cbn [List.map]. rewrite !f_alpha, (region_and_end_fold rest).
  destruct rest as [|c rest']; [reflexivity|].
  cbn [List.map]. by rewrite f_alpha, (region_and_end_fold rest').
Qed.

End case_folding.

Lemma region_and_end_spec (r : list ascii) :
  Languages.region_and_end r = true ↔
  ∃ region nl,
    r = region ++ nl ∧
    (region = [] ∨
     ∃ d e, region = ["-"%char; d; e] ∧
            Languages.is_alpha d = true ∧ Languages.is_alpha e = true) ∧
    (nl = [] ∨ nl = ["010"%char]).
Proof.
  split.
  - destruct r as [|a [|b [|c [|d [|e r]]]]]; cbn [Languages.region_and_end].
    + intros _. exists [], []. auto.
    + intros ->%bool_decide_eq_true. exists [], ["010"%char]. auto.
    + done.
    + rewrite !andb_true_iff, bool_decide_eq_true. intros [[[-> ?] ?] _].
      exists ["-"%char; b; c], []. split; [done|]. split; [|by left].
      right. by exists b, c.
    + rewrite !andb_true_iff, !bool_decide_eq_true. intros [[[-> ?] ?] ->].
      exists ["-"%char; b; c], ["010"%char]. split; [done|]. split; [|by right].
      right. by exists b, c.
    + by rewrite andb_false_r.
  - intros (region & nl & -> & [->|(d & e & -> & Hd & He)] & [->| ->]); cbn;
      rewrite ?Hd, ?He; reflexivity.
Qed.

(** [language_code_is_valid] accepts the empty string, and otherwise exactly
    the strings made of two or three letters, then optionally a dash and two
    letters, then optionally one newline (the [$] of the pattern matches
    before a final newline).  It does not look at the case of the letters,
    and anything that is not a string is a [TypeError]. *)
Theorem language_code_is_valid_shape (code : string) :
  (Languages.language_code_is_valid (VStr code) = Ok true ↔
   code = "" ∨
   ∃ letters region nl,
     String.list_ascii_of_string code = letters ++ region ++ nl ∧
     Forall (λ c, Languages.is_alpha c = true) letters ∧
     (length letters = 2 ∨ length letters = 3) ∧
     (region = [] ∨
      ∃ d e, region = ["-"%char; d; e] ∧
             Languages.is_alpha d = true ∧ Languages.is_alpha e = true) ∧
     (nl = [] ∨ nl = ["010"%char])) ∧
  Languages.language_code_is_valid (VStr (Py.upper code)) =
    Languages.language_code_is_valid (VStr code) ∧
  Languages.language_code_is_valid (VStr (Py.lower code)) =
    Languages.language_code_is_valid (VStr code) ∧
  Languages.language_code_is_valid VNone =
    Raise (Exn TypeError "Language code must be a string").
Proof.
  split; [|split; [|split; [|done]]].
  - unfold Languages.language_code_is_valid.
    case_bool_decide as Hempty; [by split; [left|]|].
    unfold Languages.LANG_RE_match. split.
    + intros [= Hm]. right.
      destruct (String.list_ascii_of_string code) as [|a [|b rest]]; [done..|].
      apply andb_true_iff in Hm as [[Ha Hb]%andb_true_iff Hm].
      apply orb_true_iff in Hm as [Hm|Hm].
      * destruct rest as [|c rest']; [done|].
        apply andb_true_iff in Hm as [Hc Hm].
        apply region_and_end_spec in Hm as (region & nl & -> & ? & ?).
        exists [a; b; c], region, nl. repeat split; auto.
      * apply region_and_end_spec in Hm as (region & nl & -> & ? & ?).
        exists [a; b], region, nl. repeat split; auto.
    + intros [?|(letters & region & nl & -> & Hall & Hlen & Hregion & Hnl)];
        [done|].
      assert (Languages.region_and_end (region ++ nl) = true) as Hend
        by (apply region_and_end_spec; by exists region, nl).
      f_equal. destruct Hlen as [Hlen|Hlen].
      * destruct letters as [|a [|b [|]]]; try done.
        apply Forall_cons in Hall as [Ha [Hb _]%Forall_cons].
        cbn [app]. by rewrite Ha, Hb, Hend, orb_true_r.
      * destruct letters as [|a [|b [|c [|]]]]; try done.
        apply Forall_cons in Hall as [Ha [Hb [Hc _]%Forall_cons]%Forall_cons].
        cbn [app]. by rewrite Ha, Hb, Hc, Hend.
  - unfold Languages.language_code_is_valid, Py.upper.
    rewrite (LANG_RE_match_fold Py.upper_char) by apply is_alpha_upper.
    by destruct code.
  - unfold Languages.language_code_is_valid, Py.lower.
    rewrite (LANG_RE_match_fold Py.lower_char) by apply is_alpha_lower.
    by destruct code.
Qed.

Example language_codes :
  Languages.language_code_is_valid (VStr "pt-BR") = Ok true ∧
  Languages.language_code_is_valid (VStr "ast") = Ok true ∧
  Languages.language_code_is_valid (VStr "e") = Ok false ∧
  Languages.language_code_is_valid (VStr "en-") = Ok false ∧
  Languages.language_code_is_valid (VStr "english") = Ok false.
Proof. repeat split. Qed.

(** ** The block list *)

Lemma endswith_spec (s suffix : string) :
  BlockList.endswith s suffix = true ↔ ∃ pre, s = pre +:+ suffix.
Proof.
  induction s as [|c s IH]; cbn [BlockList.endswith];
    rewrite orb_true_iff, bool_decide_eq_true.
  - split.
    + intros [<-|?]; [by exists ""|done].
    + intros [pre Heq]. left. destruct pre as [|b pre]; [done|].
      by rewrite append_cons in Heq.
  - rewrite IH. split.
    + intros [<-|[pre ->]]; [by exists ""|]. by exists (String c pre).
    + intros [pre Heq]. destruct pre as [|b pre]; [by left|].
      right. rewrite append_cons in Heq. injection Heq as _ ->. by exists pre.
Qed.

(** The list [email_is_blocked] works with: the cached one when there is
    one, the rows of the table otherwise. *)
Lemma block_list_served (st : BlockList.store) :
  BlockList.get_email_block_list st =
    (Ok (default (BlockList.BlockedEmail st) (BlockList.cached st)),
     BlockList.Store
       (Some (default (BlockList.BlockedEmail st) (BlockList.cached st)))
       (BlockList.BlockedEmail st)
       (match BlockList.cached st with
        | Some _ => BlockList.queries st
        | None => S (BlockList.queries st)
        end)).
Proof.
  unfold BlockList.get_email_block_list.
  destruct st as [[l|] table n]; reflexivity.
Qed.

(** An address is blocked exactly when it ends with an entry of the block
    list in use: the cached list if there is one, else the table, which is
    then cached.  The empty entry blocks every address. *)
Theorem email_is_blocked_spec (email : string) (st : BlockList.store) :
  let block_list := default (BlockList.BlockedEmail st) (BlockList.cached st) in
  ∃ blocked : bool,
    (BlockList.email_is_blocked email st).1 = Ok blocked ∧
    (blocked = true ↔ ∃ domain pre, domain ∈ block_list ∧ email = pre +:+ domain) ∧
    BlockList.cached (BlockList.email_is_blocked email st).2 = Some block_list ∧
    ("" ∈ block_list → blocked = true).
Proof.
  cbv zeta. unfold BlockList.email_is_blocked, bind.
  rewrite block_list_served. unfold ret. eexists. split; [reflexivity|].
  assert (∀ l, existsb (λ blocked, BlockList.endswith email blocked) l = true ↔
               ∃ domain pre, domain ∈ l ∧ email = pre +:+ domain) as Hex.
  { intros l. rewrite existsb_exists. split.
    - intros (d & Hin & [pre Hpre]%endswith_spec).
      exists d, pre. split; [by apply list_elem_of_In|done].
    - intros (d & pre & Hin & Hpre). exists d.
      split; [by apply list_elem_of_In|]. apply endswith_spec. by exists pre. }
  split; [apply Hex|]. split; [done|].
  intros Hempty. apply Hex. exists "", email. split; [done|].
  clear. induction email as [|c email IH]; [done|].
  by rewrite append_cons, <- IH.
Qed.

(** The table of blocked domains is queried at most once: a call finds the
    list in the cache or puts it there, and from then on neither the number
    of queries nor the answers depend on the table any more, even when its
    rows change. *)
Theorem block_list_queried_once (email email' : string)
    (st : BlockList.store) (rows : list string) :
  let st1 := (BlockList.email_is_blocked email st).2 in
  let st1' := BlockList.Store (BlockList.cached st1) rows (BlockList.queries st1) in
  BlockList.queries st1 ≤ S (BlockList.queries st) ∧
  (is_Some (BlockList.cached st) → BlockList.queries st1 = BlockList.queries st) ∧
  BlockList.email_is_blocked email' st1' =
    ((BlockList.email_is_blocked email' st1).1, st1').
Proof.
  cbv zeta. unfold BlockList.email_is_blocked, bind.
  rewrite block_list_served. unfold ret. cbn [snd BlockList.cached BlockList.queries].
  split; [destruct (BlockList.cached st); lia|].
  split; [by intros [l ->]|].
  by rewrite !block_list_served.
Qed.

(** ** Message ids *)

(** The id of a message.  The text format appends [_T] to what any other
    format gives; the language counts only by its first two characters,
    lowercased, so a language cut and lowercased beforehand gives the same
    id; an empty or missing language adds no prefix; and the bare id is
    always part of the result. *)
Theorem mogrify_message_id_laws (message_id lang format : string) :
  format ≠ "T" →
  Tasks.mogrify_message_id message_id (Some lang) "T" =
    Tasks.mogrify_message_id message_id (Some lang) format +:+ "_T" ∧
  Tasks.mogrify_message_id message_id (Some (Py.lower (Py.take 2 lang))) format =
    Tasks.mogrify_message_id message_id (Some lang) format ∧
  Tasks.mogrify_message_id message_id (Some "") format = message_id ∧
  Tasks.mogrify_message_id message_id None format = message_id ∧
  Py.contains message_id
    (Tasks.mogrify_message_id message_id (Some lang) format) = true.
Proof.
  intros Hformat. unfold Tasks.mogrify_message_id.
  rewrite (bool_decide_eq_false_2 (format = "T")) by done.
  change (bool_decide ("T" = "T")) with true. cbv iota.
  change (bool_decide ("" = "")) with true. cbv iota.
  split; [done|]. split; [|split; [done|split; [done|]]].
  - assert (Py.take 2 (Py.lower (Py.lower (Py.take 2 lang))) =
            Py.take 2 (Py.lower lang)) as ->.
    { by rewrite lower_lower, (take_lower 2 (Py.take 2 lang)), take_take,
        <- take_lower. }
    destruct lang as [|c lang]; [done|].
    by rewrite !bool_decide_eq_false_2.
  - apply contains_spec. case_bool_decide.
    + exists "", "". by rewrite append_nil_r.
    + exists (Py.take 2 (Py.lower lang) +:+ "_"), "".
      by rewrite append_nil_r, append_assoc.
Qed.

(** ** Contacts read from upstream *)

Lemma FIELD_MAP_items (k f : string) :
  Sfdc.FIELD_MAP !! k = Some f ↔
  (k, f) ∈ [ ("id", "Id"); ("email", "Email"); ("first_name", "FirstName");
             ("last_name", "LastName"); ("format", "Email_Format__c");
             ("country", "MailingCountryCode"); ("lang", "Email_Language__c");
             ("token", "Token__c"); ("optin", "Double_Opt_In__c");
             ("source_url", "Signup_Source_URL__c");
             ("created_date", "CreatedDate");
             ("last_modified_date", "LastModifiedDate") ].
Proof.
  unfold Sfdc.FIELD_MAP. symmetry. apply elem_of_list_to_map.
  refine (bool_decide_unpack _ _). vm_compute. exact I.
Qed.

Lemma INV_FIELD_MAP_spec (f k : string) :
  Contacts.INV_FIELD_MAP !! f = Some k ↔ Sfdc.FIELD_MAP !! k = Some f.
Proof.
  unfold Contacts.INV_FIELD_MAP.
  rewrite <- elem_of_list_to_map.
  - rewrite list_elem_of_fmap. split.
    + intros ([k' f'] & [= -> ->] & Hin). by apply elem_of_map_to_list in Hin.
    + intros Hin. exists (k, f). split; [done|]. by apply elem_of_map_to_list.
  - refine (bool_decide_unpack _ _). vm_compute. exact I.
Qed.

Lemma FIELD_MAP_inj (k k' f : string) :
  Sfdc.FIELD_MAP !! k = Some f → Sfdc.FIELD_MAP !! k' = Some f → k = k'.
Proof.
  intros H1%INV_FIELD_MAP_spec H2%INV_FIELD_MAP_spec. congruence.
Qed.

Lemma FIELD_MAP_no_newsletters : Sfdc.FIELD_MAP !! "newsletters" = None.
Proof. reflexivity. Qed.

Section read_facts.

Variable newsletter_inv_map : gmap string string.

Local Ltac by_parts := repeat split; first [assumption | reflexivity].

Lemma from_vendor_fold (contact : gmap string value) :
  let acc := map_fold (Contacts.from_vendor_step newsletter_inv_map) (∅, []) contact in
  (∀ k, acc.1 !! k =
        match Sfdc.FIELD_MAP !! k with
        | Some f => defaulted k <$> contact !! f
        | None => None
        end) ∧
  (∀ nl, nl ∈ acc.2 ↔
         ∃ fn fv, contact !! fn = Some fv ∧ Contacts.INV_FIELD_MAP !! fn = None ∧
                  newsletter_inv_map !! fn = Some nl ∧ truthy fv = true).
Proof.
  cbv zeta.
  apply (map_fold_weak_ind
           (λ acc contact,
              (∀ k, acc.1 !! k =
                    match Sfdc.FIELD_MAP !! k with
                    | Some f => defaulted k <$> contact !! f
                    | None => None
                    end) ∧
              (∀ nl, nl ∈ acc.2 ↔
                     ∃ fn fv, contact !! fn = Some fv ∧
                              Contacts.INV_FIELD_MAP !! fn = None ∧
                              newsletter_inv_map !! fn = Some nl ∧
                              truthy fv = true))).
  - split.
    + intros k. cbn [fst]. rewrite lookup_empty.
      destruct (Sfdc.FIELD_MAP !! k); by rewrite ?lookup_empty.
    + intros nl. split; [by intros ?%elem_of_nil|].
      intros (fn & fv & Hfn & _). by rewrite lookup_empty in Hfn.
  - intros fn fv m acc Hnew [Hfields Hnews].
    unfold Contacts.from_vendor_step.
    destruct (Contacts.INV_FIELD_MAP !! fn) as [data_name|] eqn:Hinv.
    + apply INV_FIELD_MAP_spec in Hinv as Hfield.
      cbn [fst snd]. split.
      * intros k. destruct (decide (k = data_name)) as [->|Hne].
        -- rewrite lookup_insert_eq, Hfield, lookup_insert_eq. done.
        -- rewrite lookup_insert_ne by done. rewrite Hfields.
           destruct (Sfdc.FIELD_MAP !! k) as [f|] eqn:Hk; [|done].
           rewrite lookup_insert_ne; [done|].
           intros <-. apply Hne. by eapply FIELD_MAP_inj.
      * intros nl. rewrite Hnews. split.
        -- intros (fn' & fv' & Hm & ? & ? & ?). exists fn', fv'.
           split; [|by_parts]. rewrite lookup_insert_ne; [exact Hm|]. congruence.
        -- intros (fn' & fv' & Hm & Hnone & ? & ?). exists fn', fv'.
           split; [|by_parts]. rewrite lookup_insert_ne in Hm; [exact Hm|]. congruence.
    + assert (∀ k f, Sfdc.FIELD_MAP !! k = Some f → fn ≠ f) as Hfresh.
      { intros k f Hk <-. apply INV_FIELD_MAP_spec in Hk. congruence. }
      assert (∀ k, acc.1 !! k =
                   match Sfdc.FIELD_MAP !! k with
                   | Some f => defaulted k <$> <[fn:=fv]> m !! f
                   | None => None
                   end) as Hfields'.
      { intros k. rewrite Hfields.
        destruct (Sfdc.FIELD_MAP !! k) as [f|] eqn:Hk; [|done].
        by rewrite lookup_insert_ne by by eapply Hfresh. }
      destruct (newsletter_inv_map !! fn) as [slug|] eqn:Hslug;
        [destruct (truthy fv) eqn:Htruthy|]; cbn [fst snd];
        (split; [exact Hfields'|]); intros nl.
      * rewrite elem_of_app, list_elem_of_singleton, Hnews. split.
        -- intros [(fn' & fv' & Hm & ? & ? & ?)| ->].
           ++ exists fn', fv'. split; [|by_parts].
              rewrite lookup_insert_ne; [exact Hm|]. congruence.
           ++ exists fn, fv. rewrite lookup_insert_eq. by_parts.
        -- intros (fn' & fv' & Hm & ? & Hnl & ?).
           destruct (decide (fn = fn')) as [<-|Hne].
           ++ right. congruence.
           ++ left. exists fn', fv'. rewrite lookup_insert_ne in Hm by exact Hne.
              by_parts.
      * rewrite Hnews. split.
        -- intros (fn' & fv' & Hm & ? & ? & ?). exists fn', fv'.
           split; [|by_parts]. rewrite lookup_insert_ne; [exact Hm|]. congruence.
        -- intros (fn' & fv' & Hm & ? & ? & Ht). exists fn', fv'.
           split; [|by_parts]. rewrite lookup_insert_ne in Hm; [exact Hm|].
           intros <-. rewrite lookup_insert_eq in Hm. congruence.
      * rewrite Hnews. split.
        -- intros (fn' & fv' & Hm & ? & ? & ?). exists fn', fv'.
           split; [|by_parts]. rewrite lookup_insert_ne; [exact Hm|]. congruence.
        -- intros (fn' & fv' & Hm & ? & ? & Ht). exists fn', fv'.
           split; [|by_parts]. rewrite lookup_insert_ne in Hm; [exact Hm|]. congruence.
Qed.

End read_facts.

Section contact_read_facts.

Variable newsletter_inv_map : gmap string string.
Variable newsletter_map : gmap string string.
Variable AssertionError : string → exn.
Variable get_by_custom_id : string → value → Contacts.fetched (gmap string value).

Lemma from_vendor_fields (contact : gmap string value) (k : string) :
  k ≠ "newsletters" →
  Contacts.from_vendor newsletter_inv_map contact !! k =
    match Sfdc.FIELD_MAP !! k with
    | Some f => defaulted k <$> contact !! f
    | None => None
    end.
Proof.
  intros Hne. unfold Contacts.from_vendor. rewrite lookup_insert_ne by done.
  apply (from_vendor_fold newsletter_inv_map contact).
Qed.

Lemma from_vendor_newsletters (contact : gmap string value) :
  ∃ newsletters,
    Contacts.from_vendor newsletter_inv_map contact !! "newsletters"
      = Some (VList newsletters) ∧
    ∀ nl, nl ∈ newsletters ↔
          ∃ fn fv, contact !! fn = Some fv ∧ Contacts.INV_FIELD_MAP !! fn = None ∧
                   newsletter_inv_map !! fn = Some nl ∧ truthy fv = true.
Proof.
  destruct (from_vendor_fold newsletter_inv_map contact) as [_ Hnews].
  unfold Contacts.from_vendor. eexists.
  split; [apply lookup_insert_eq | exact Hnews].
Qed.

(** What [from_vendor] makes of an upstream contact: each known field under
    its local name, with the default in place of an empty value where the
    field has one; no other key but [newsletters], which always is there and
    lists exactly the slugs whose flag field holds a true value. *)
Theorem from_vendor_spec (contact : gmap string value) :
  ∃ newsletters,
    Contacts.from_vendor newsletter_inv_map contact !! "newsletters"
      = Some (VList newsletters) ∧
    (∀ nl, nl ∈ newsletters ↔
           ∃ fn fv, contact !! fn = Some fv ∧ Contacts.INV_FIELD_MAP !! fn = None ∧
                    newsletter_inv_map !! fn = Some nl ∧ truthy fv = true) ∧
    (∀ k f, Sfdc.FIELD_MAP !! k = Some f →
            Contacts.from_vendor newsletter_inv_map contact !! k
              = defaulted k <$> contact !! f) ∧
    (∀ k, k ≠ "newsletters" → Sfdc.FIELD_MAP !! k = None →
          Contacts.from_vendor newsletter_inv_map contact !! k = None).
Proof.
  destruct (from_vendor_newsletters contact) as (newsletters & Hlist & Hnews).
  exists newsletters. split; [exact Hlist|]. split; [exact Hnews|]. split.
  - intros k f Hk. rewrite from_vendor_fields, Hk; [done|].
    intros ->. by rewrite FIELD_MAP_no_newsletters in Hk.
  - intros k Hne Hk. by rewrite from_vendor_fields, Hk.
Qed.

(** The defaults of [from_vendor]: a [format] that comes back is never
    empty or [None] (it is ["H"] then), and [country] and [lang] are never
    [None]: an empty value comes back as the empty string. *)
Theorem from_vendor_defaults (contact : gmap string value) (k : string) (v : value) :
  Contacts.from_vendor newsletter_inv_map contact !! k = Some v →
  (k = "format" → truthy v = true) ∧
  (k = "country" ∨ k = "lang" → truthy v = true ∨ v = VStr "").
Proof.
  intros Hv. split.
  - intros ->. rewrite from_vendor_fields in Hv by done.
    change (Sfdc.FIELD_MAP !! "format") with (Some "Email_Format__c") in Hv.
    cbv iota in Hv.
    destruct (contact !! "Email_Format__c") as [fv|]; [|done].
    injection Hv as <-. unfold defaulted, Contacts.py_or.
    change (Contacts.FIELD_DEFAULTS !! "format") with (Some (VStr "H")).
    cbv iota. by destruct (truthy fv) eqn:?.
  - intros [-> | ->].
    + rewrite from_vendor_fields in Hv by done.
      change (Sfdc.FIELD_MAP !! "country") with (Some "MailingCountryCode") in Hv.
      cbv iota in Hv.
      destruct (contact !! "MailingCountryCode") as [fv|]; [|done].
      injection Hv as <-. unfold defaulted, Contacts.py_or.
      change (Contacts.FIELD_DEFAULTS !! "country") with (Some (VStr "")).
      cbv iota. destruct (truthy fv) eqn:?; auto.
    + rewrite from_vendor_fields in Hv by done.
      change (Sfdc.FIELD_MAP !! "lang") with (Some "Email_Language__c") in Hv.
      cbv iota in Hv.
      destruct (contact !! "Email_Language__c") as [fv|]; [|done].
      injection Hv as <-. unfold defaulted, Contacts.py_or.
      change (Contacts.FIELD_DEFAULTS !! "lang") with (Some (VStr "")).
      cbv iota. destruct (truthy fv) eqn:?; auto.
Qed.

Lemma pop_ignored (user : gmap string value) (k : string) :
  foldl (λ user fn, delete fn user) user Contacts.IGNORE_USER_FIELDS !! k =
    if bool_decide (k ∈ Contacts.IGNORE_USER_FIELDS) then None else user !! k.
Proof.
  generalize Contacts.IGNORE_USER_FIELDS. intros l. revert user.
  induction l as [|fn l IH]; intros user; cbn [foldl].
  - by rewrite bool_decide_eq_false_2 by apply not_elem_of_nil.
  - rewrite IH. destruct (decide (k ∈ l)) as [Hin|Hout].
    + rewrite !bool_decide_eq_true_2; [done | by right | done].
    + rewrite (bool_decide_eq_false_2 _ Hout).
      destruct (decide (fn = k)) as [->|Hne].
      * rewrite lookup_delete_eq, bool_decide_eq_true_2; [done | by left].
      * rewrite lookup_delete_ne by done.
        rewrite bool_decide_eq_false_2; [done|].
        intros [?|?]%elem_of_cons; congruence.
Qed.

(** A record [get_user_data] returns is the answer of one successful
    lookup, translated, stripped and marked. *)
Lemma get_user_data_found (token email : value) (user : gmap string value) :
  Contacts.get_user_data newsletter_inv_map AssertionError get_by_custom_id
    token email = Ok (Some user) →
  truthy (Contacts.py_or token email) = true ∧
  ∃ contact,
    get_by_custom_id (if truthy token then "Token__c" else "Email")
      (Contacts.py_or token email) = Contacts.Fetched contact ∧
    user = <["status" := VStr "ok"]>
             (foldl (λ user fn, delete fn user)
                (Contacts.from_vendor newsletter_inv_map contact)
                Contacts.IGNORE_USER_FIELDS).
Proof.
  unfold Contacts.get_user_data, Contacts.get.
  destruct (truthy (Contacts.py_or token email)) eqn:Hkey.
  - destruct (get_by_custom_id _ _) as [contact| |msg|e] eqn:Hget;
      [|done|done|by case_bool_decide].
    intros Huser. split; [done|]. exists contact. split; [done|]. congruence.
  - intros Hraise. by case_bool_decide.
Qed.

Lemma get_user_data_lookup (token email : value) (user : gmap string value)
    (k : string) :
  Contacts.get_user_data newsletter_inv_map AssertionError get_by_custom_id
    token email = Ok (Some user) →
  k ∈ Contacts.IGNORE_USER_FIELDS → user !! k = None.
Proof.
  intros (_ & contact & _ & ->)%get_user_data_found Hk.
  rewrite lookup_insert_ne.
  - by rewrite pop_ignored, bool_decide_eq_true_2.
  - intros <-. revert Hk. refine (proj1 (bool_decide_eq_false _) _).
    vm_compute. reflexivity.
Qed.

Lemma get_user_data_newsletters (token email : value) (user : gmap string value) :
  Contacts.get_user_data newsletter_inv_map AssertionError get_by_custom_id
    token email = Ok (Some user) →
  ∃ slugs, user !! "newsletters" = Some (VList slugs).
Proof.
  intros (_ & contact & _ & ->)%get_user_data_found.
  destruct (from_vendor_newsletters contact) as (slugs & Hslugs & _).
  exists slugs. rewrite lookup_insert_ne by done.
  rewrite pop_ignored, bool_decide_eq_false_2; [done|].
  refine (proj1 (bool_decide_eq_false _) _). vm_compute. reflexivity.
Qed.

Lemma get_user_data_truthy (token email : value) (user : gmap string value) :
  Contacts.get_user_data newsletter_inv_map AssertionError get_by_custom_id
    token email = Ok (Some user) →
  Tasks.dict_truthy user = true.
Proof.
  intros (_ & contact & _ & ->)%get_user_data_found.
  unfold Tasks.dict_truthy.
  by rewrite bool_decide_eq_false_2 by apply insert_non_empty.
Qed.

(** A record that [get_user_data] returns: it is marked ['status': 'ok'],
    none of the ignored fields is left in it (the contact's [id] among
    them), its [newsletters] entry is a list, and it was looked up by a
    token or an address that is not empty.  Every other field is as
    [from_vendor] made it. *)
Theorem get_user_data_record (token email : value) (user : gmap string value) :
  Contacts.get_user_data newsletter_inv_map AssertionError get_by_custom_id
    token email = Ok (Some user) →
  user !! "status" = Some (VStr "ok") ∧
  (∀ fn, fn ∈ Contacts.IGNORE_USER_FIELDS → user !! fn = None) ∧
  (∃ slugs, user !! "newsletters" = Some (VList slugs)) ∧
  (truthy token = true ∨ truthy email = true) ∧
  ∃ contact,
    get_by_custom_id (if truthy token then "Token__c" else "Email")
      (Contacts.py_or token email) = Contacts.Fetched contact ∧
    ∀ k, k ∉ Contacts.IGNORE_USER_FIELDS → k ≠ "status" →
         user !! k = Contacts.from_vendor newsletter_inv_map contact !! k.
Proof.
  intros Hget.
  destruct (get_user_data_found _ _ _ Hget) as (Hkey & contact & Hc & Huser).
  split; [|split; [|split; [|split]]].
  - rewrite Huser. apply lookup_insert_eq.
  - intros fn Hfn. by eapply get_user_data_lookup.
  - destruct (from_vendor_newsletters contact) as (slugs & Hslugs & _).
    exists slugs. rewrite Huser, lookup_insert_ne by done.
    rewrite pop_ignored, bool_decide_eq_false_2; [done|].
    refine (proj1 (bool_decide_eq_false _) _). vm_compute. reflexivity.
  - unfold Contacts.py_or in Hkey. destruct (truthy token); auto.
  - exists contact. split; [done|]. intros k Hk Hstatus.
    rewrite Huser, lookup_insert_ne by done.
    by rewrite pop_ignored, bool_decide_eq_false_2.
Qed.

Lemma to_vendor_optin :
  Sfdc.to_vendor newsletter_map {[ "optin" := VBool true ]} =
    Ok (<["Double_Opt_In__c" := VBool true]> {[ "Subscriber__c" := VBool true ]}).
Proof.
  unfold Sfdc.to_vendor. rewrite map_fold_singleton.
  by rewrite lookup_singleton_ne.
Qed.

(** [confirm_user] either leaves the state as it found it, or issues one
    update of a contact that was found, is not opted in and has an address;
    the update sets the opt-in flag and nothing else, and it names the
    contact by its token (by its address if it has no token), never by its
    id, which [get_user_data] does not hand out. *)
Theorem confirm_user_writes (token : value) (w : world) :
  let out := Contacts.confirm_user newsletter_inv_map newsletter_map
               AssertionError get_by_custom_id token w in
  out.2 = w ∨
  ∃ user ref,
    Contacts.get_user_data newsletter_inv_map AssertionError get_by_custom_id
      token VNone = Ok (Some user) ∧
    get_truthy user "optin" = false ∧
    get_truthy user "email" = true ∧
    match user !! "token" with
    | Some t => ref = ByField "Token__c" t
    | None => ∃ email, user !! "email" = Some email ∧ ref = ByField "Email" email
    end ∧
    out.2 = logged [contact_update ref
                      (<["Double_Opt_In__c" := VBool true]>
                         {[ "Subscriber__c" := VBool true ]})] w.
Proof.
  cbv zeta.
  unfold Contacts.confirm_user, Sfdc.update, upstream_write, bind, lift, ret, raise.
  destruct (Contacts.get_user_data _ _ _ _ _) as [[user|]|e] eqn:Hget;
    [|by left|by left].
  destruct (user !! "optin") as [optin|] eqn:Hoptin; [|by left].
  destruct (truthy optin) eqn:Htruthy; [by left|].
  destruct (get_truthy user "email") eqn:Hemail; cbn [negb]; [|by left].
  right. assert (user !! "id" = None) as Hid.
  { eapply get_user_data_lookup; [exact Hget|]. by left. }
  rewrite Hid, to_vendor_optin.
  assert (get_truthy user "optin" = false) as Hflag.
  { unfold get_truthy. by rewrite Hoptin. }
  destruct (user !! "token") as [t|] eqn:Htoken.
  - exists user, (ByField "Token__c" t).
    rewrite Htoken.
    split; [done|]. split; [done|]. split; [done|]. split; [done|].
    cbv beta iota. rewrite emit_to_logged.
    by destruct (contact_fault w _).
  - unfold get_truthy in Hemail.
    destruct (user !! "email") as [email|] eqn:Hmail; [|done].
    exists user, (ByField "Email" email).
    split; [done|]. split; [done|].
    split; [unfold get_truthy; by rewrite Hmail|].
    rewrite Htoken. split; [by exists email|].
    cbv beta iota. rewrite emit_to_logged.
    by destruct (contact_fault w _).
Qed.

(** [update_custom_unsub] does not send the reason: the field name it uses
    is none of the local names [to_vendor] translates, so the one write it
    issues carries the subscriber flag alone, whatever the reason is. *)
Theorem update_custom_unsub_drops_reason (token reason : value) (w : world) :
  Sfdc.to_vendor newsletter_map {[ "Unsubscribe_Reason__c" := reason ]}
    = Ok {[ "Subscriber__c" := VBool true ]} ∧
  log (Contacts.update_custom_unsub newsletter_map token reason w).2 =
    log w ++ [contact_update (ByField "Token__c" token)
                {[ "Subscriber__c" := VBool true ]}] ∧
  ∀ reason',
    Contacts.update_custom_unsub newsletter_map token reason' w =
    Contacts.update_custom_unsub newsletter_map token reason w.
Proof.
  assert (∀ r, Sfdc.to_vendor newsletter_map {[ "Unsubscribe_Reason__c" := r ]}
               = Ok {[ "Subscriber__c" := VBool true ]}) as Hvendor.
  { intros r. unfold Sfdc.to_vendor. rewrite map_fold_singleton.
    by rewrite lookup_singleton_ne. }
  split; [apply Hvendor|].
  assert (∀ r, Contacts.update_custom_unsub newsletter_map token r w =
               (match contact_fault w (contact_writes (log w)) with
                | Some e => Raise e
                | None => Ok VNone
                end,
                logged [contact_update (ByField "Token__c" token)
                          {[ "Subscriber__c" := VBool true ]}] w)) as Hrun.
  { intros r. unfold Contacts.update_custom_unsub, Sfdc.update, bind, lift, ret.
    rewrite lookup_singleton_ne by done. rewrite lookup_singleton_eq.
    rewrite Hvendor. unfold upstream_write. rewrite emit_to_logged.
    by destruct (contact_fault w _). }
  split; [by rewrite Hrun|]. intros reason'. by rewrite !Hrun.
Qed.

End contact_read_facts.

(** ** Tasks that read the contact before they write *)

Example get_user_data_stored :
  Contacts.get_user_data Store.newsletter_inv_map Store.AssertionError
    Store.get_by_custom_id VNone (VStr "dude@example.com") = Ok (Some Store.user).
Proof. vm_compute. reflexivity. Qed.

Section contact_task_facts.

Variable newsletter_inv_map : gmap string string.
Variable newsletter_map : gmap string string.
Variable AssertionError : string → exn.
Variable Exception : string → exn.
Variable get_by_custom_id : string → value → Contacts.fetched (gmap string value).
Variable Newsletter_objects : list Tasks.Newsletter.
Variable group : string → option (list string).

Abbreviation get_user_data :=
  (Contacts.get_user_data newsletter_inv_map AssertionError get_by_custom_id).

(** The test [user_data and user_data['status'] == 'ok'] on what
    [get_user_data] returned: true for a record, false for [None]. *)
Lemma found_ok_get_user_data (token email : value)
    (user_data : option (gmap string value)) :
  get_user_data token email = Ok user_data →
  Contacts.found_ok user_data = Ok (bool_decide (is_Some user_data)).
Proof.
  destruct user_data as [user|]; [|done]. intros Hget.
  destruct (get_user_data_found _ _ _ _ _ _ Hget) as (_ & contact & _ & ->).
  unfold Contacts.found_ok, Tasks.dict_truthy.
  rewrite bool_decide_eq_false_2 by apply insert_non_empty.
  cbn [negb]. by rewrite lookup_insert_eq.
Qed.

(** The results of [get_or_create_user_data].  Nothing is written
    upstream.  [created] is [False] for a record the lookup found, which is
    returned as it is and draws no token; [True] for a record made up for
    the address under a fresh token, when the lookup found nothing; [None],
    with no record, when a token was looked up in vain and there is no
    address.  With both a token and an address only the token is looked up:
    the address is not, even when the token is not found. *)
Theorem get_or_create_user_data_result (token email : value) (w w' : world)
    (user_data : option (gmap string value)) (created : option bool) :
  Contacts.get_or_create_user_data newsletter_inv_map AssertionError Exception
    get_by_custom_id token email w = (Ok (user_data, created), w') →
  let looked_up :=
    if truthy token then get_user_data token VNone else get_user_data VNone email in
  log w' = log w ∧
  match created with
  | Some false =>
      w' = w ∧ ∃ user, user_data = Some user ∧ looked_up = Ok (Some user)
  | Some true =>
      truthy email = true ∧ looked_up = Ok None ∧
      user_data = Some (Contacts.new_user email (uuid4 w (minted w))) ∧
      minted w' = S (minted w)
  | None =>
      w' = w ∧ user_data = None ∧ looked_up = Ok None ∧
      truthy token = true ∧ truthy email = false
  end.
Proof.
  cbv zeta.
  unfold Contacts.get_or_create_user_data, bind, lift, ret, raise, generate_token.
  assert (∀ tk em,
            (tk, em) = (if truthy token then (token, VNone) else (VNone, email)) →
            match get_user_data tk em with
            | Ok user_data0 =>
                match Contacts.found_ok user_data0 with
                | Ok found =>
                    (if found
                     then λ w0 : world, (Ok (user_data0, Some false), w0)
                     else
                       if truthy email
                       then λ w0 : world,
                         (Ok (Some (Contacts.new_user email (uuid4 w0 (minted w0))),
                              Some true),
                          World (MAINTENANCE_MODE w0) (STORE_TASK_FAILURES w0)
                            (uuid4 w0) (S (minted w0)) (contact_fault w0) (log w0))
                       else λ w0 : world, (Ok (None, None), w0)) w
                | Raise e => (Raise e, w)
                end
            | Raise e => (Raise e, w)
            end = (Ok (user_data, created), w') →
            log w' = log w ∧
            match created with
            | Some false =>
                w' = w ∧ ∃ user, user_data = Some user ∧
                                 get_user_data tk em = Ok (Some user)
            | Some true =>
                truthy email = true ∧ get_user_data tk em = Ok None ∧
                user_data = Some (Contacts.new_user email (uuid4 w (minted w))) ∧
                minted w' = S (minted w)
            | None =>
                w' = w ∧ user_data = None ∧ get_user_data tk em = Ok None ∧
                truthy email = false
            end) as Hcases.
  { intros tk em _.
    destruct (get_user_data tk em) as [found|e] eqn:Hget; [|done].
    rewrite (found_ok_get_user_data _ _ _ Hget).
    destruct found as [user|].
    - rewrite bool_decide_eq_true_2 by done. intros [= <- <- <-].
      split; [done|]. split; [done|]. by exists user.
    - rewrite bool_decide_eq_false_2 by (by intros [? ?]).
      destruct (truthy email) eqn:Hemail; intros [= <- <- <-]; by cbn. }
  destruct (truthy token) eqn:Htoken.
  - intros Hrun. destruct (Hcases token VNone eq_refl Hrun) as [Hlog Hc].
    split; [exact Hlog|]. destruct created as [[]|]; [exact Hc|exact Hc|].
    destruct Hc as (? & ? & ? & ?). by repeat split.
  - destruct (truthy email) eqn:Hemail; [|done].
    intros Hrun. destruct (Hcases VNone email eq_refl Hrun) as [Hlog Hc].
    split; [exact Hlog|]. destruct created as [[]|]; [exact Hc|exact Hc|].
    destruct Hc as (? & ? & ? & ?). congruence.
Qed.

Lemma silent_ret {A} (a : A) : silent (ret a).
Proof. by intros w. Qed.

Lemma silent_raise {A} (e : exn) : silent (raise (A := A) e).
Proof. by intros w. Qed.

Lemma silent_lift {A} (r : result A) : silent (lift r).
Proof. by intros w. Qed.

Lemma silent_generate_token : silent generate_token.
Proof. by intros w. Qed.

Lemma silent_bind {A B} (m : M A) (k : A → M B) :
  silent m → (∀ a, silent (k a)) → silent (bind m k).
Proof.
  intros Hm Hk w. unfold bind. specialize (Hm w).
  destruct (m w) as [[a|e] w1]; cbn [snd] in *; [|done].
  by rewrite Hk.
Qed.

Lemma silent_writes_once {A} (P : event → Prop) (m : M A) :
  silent m → writes_once P m.
Proof. intros Hm w. by left. Qed.

Lemma writes_once_after {A B} (P : event → Prop) (m : M A) (k : A → M B) :
  silent m → (∀ a, writes_once P (k a)) → writes_once P (bind m k).
Proof.
  intros Hm Hk w. unfold bind. specialize (Hm w).
  destruct (m w) as [[a|e] w1]; cbn [snd] in *; [|by left].
  rewrite <- Hm. apply Hk.
Qed.

Lemma writes_once_before {A B} (P : event → Prop) (m : M A) (k : A → M B) :
  writes_once P m → (∀ a, silent (k a)) → writes_once P (bind m k).
Proof.
  intros Hm Hk w. unfold bind. specialize (Hm w).
  destruct (m w) as [[a|e] w1]; cbn [snd] in *; [|exact Hm].
  rewrite (Hk a w1). exact Hm.
Qed.

Lemma writes_once_upstream_write (P : event → Prop) (ev : event) :
  P ev → writes_once P (upstream_write ev).
Proof.
  intros HP w. right. exists ev. split; [done|].
  unfold upstream_write. rewrite emit_to_logged.
  by destruct (contact_fault w _).
Qed.

Lemma silent_return_token (data : gmap string value) (created : bool) :
  silent (Tasks.return_token data created).
Proof. intros w. unfold Tasks.return_token. by destruct (data !! "token"). Qed.

(** [SFDC.add]: at most one create. *)
Lemma add_writes_once (data : gmap string value) :
  writes_once (λ ev, ∃ contact, ev = contact_create contact)
    (Sfdc.add newsletter_map data).
Proof.
  unfold Sfdc.add. apply writes_once_after; [apply silent_lift|].
  intros contact. apply writes_once_upstream_write. by exists contact.
Qed.

(** [SFDC.update]: at most one update, of the record named by its id, else
    by its token, else by its address. *)
Lemma update_writes_once (record data : gmap string value) :
  writes_once
    (λ ev, ∃ contact,
       ev = contact_update
              (match record !! "id", record !! "token", record !! "email" with
               | Some id, _, _ => ById id
               | None, Some token, _ => ByField "Token__c" token
               | None, None, email => ByField "Email" (default VNone email)
               end) contact)
    (Sfdc.update newsletter_map record data).
Proof.
  intros w. unfold Sfdc.update, bind, lift, ret, raise, upstream_write.
  destruct (record !! "id") as [id|];
    [|destruct (record !! "token") as [token|];
      [|destruct (record !! "email") as [email|]]];
    cbv beta iota; try (by left);
    (destruct (Sfdc.to_vendor newsletter_map data) as [contact|e]; [|by left]);
    right; eexists; (split; [by exists contact|]);
    rewrite emit_to_logged; by destruct (contact_fault w _).
Qed.

(** What [upsert_contact] sends upstream: nothing, or one create for no
    record, or one update of the record it was given, named by that
    record's id, else by its token. *)
Lemma upsert_contact_log (api_call_type : string) (data : gmap string value)
    (user_data : option (gmap string value)) :
  writes_once
    (λ ev,
       match user_data with
       | None => ∃ contact, ev = contact_create contact
       | Some user =>
           ∃ token contact,
             user !! "token" = Some token ∧
             ev = contact_update
                    (match user !! "id" with
                     | Some id => ById id
                     | None => ByField "Token__c" token
                     end) contact
       end)
    (Tasks.upsert_contact Newsletter_objects newsletter_map group
       api_call_type data user_data).
Proof.
  unfold Tasks.upsert_contact.
  apply writes_once_after; [apply silent_lift|]. intros d.
  destruct user_data as [user|].
  - destruct (user !! "token") as [token|] eqn:Htoken.
    + apply writes_once_after; [apply silent_ret|]. intros t.
      apply writes_once_after.
      { destruct (truthy t); [apply silent_ret|].
        apply silent_bind; [apply silent_generate_token|].
        intros ?. apply silent_ret. }
      intros d'.
      apply writes_once_before; [|intros ?; apply silent_return_token].
      intros w. destruct (update_writes_once user d' w) as [Hq|(ev & Hev & Hlog)];
        [by left|].
      right. exists ev. split; [|done]. destruct Hev as (contact & ->).
      exists token, contact. split; [done|]. rewrite Htoken.
      by destruct (user !! "id").
    + apply silent_writes_once. intros w. reflexivity.
  - apply writes_once_after; [apply silent_generate_token|]. intros token.
    apply writes_once_before; [|intros ?; apply silent_return_token].
    apply add_writes_once.
Qed.


(** [upsert_user] writes upstream at most once: it creates a contact only
    when the lookup found none, and updates only the contact the lookup
    found, which it names by its token. *)
Theorem upsert_user_write (api_call_type : string) (data : gmap string value)
    (w : world) :
  let looked_up :=
    get_user_data (default VNone (data !! "token")) (default VNone (data !! "email")) in
  let out := Contacts.upsert_user newsletter_inv_map newsletter_map AssertionError
               get_by_custom_id Newsletter_objects group api_call_type data w in
  log out.2 = log w ∨
  (looked_up = Ok None ∧ ∃ contact, log out.2 = log w ++ [contact_create contact]) ∨
  (∃ user token contact,
     looked_up = Ok (Some user) ∧ user !! "token" = Some token ∧
     log out.2 = log w ++ [contact_update (ByField "Token__c" token) contact]).
Proof.
  cbv zeta. unfold Contacts.upsert_user, bind at 1, lift.
  destruct (get_user_data _ _) as [user_data|e] eqn:Hget; [|by left].
  destruct (upsert_contact_log api_call_type data user_data w)
    as [Hquiet|(ev & Hev & Hlog)]; [by left|].
  right. destruct user_data as [user|].
  - right. destruct Hev as (token & contact & Htoken & ->).
    exists user, token, contact. split; [done|]. split; [done|].
    rewrite (get_user_data_lookup _ _ _ _ _ _ "id" Hget) in Hlog; [done|by left].
  - left. destruct Hev as (contact & ->). split; [done|]. by exists contact.
Qed.

(** The legacy task [update_user] with [optin] left at [None] is
    [upsert_user] on the same data, when its [email] and [token] are those
    of the data; an [optin] that is given replaces the one in the data
    before anything else is done. *)
Theorem update_user_legacy (data : gmap string value) (email token optin : value)
    (api_call_type : string) (w : world) :
  (optin = VNone →
   default VNone (data !! "token") = token →
   default VNone (data !! "email") = email →
   Contacts.update_user newsletter_inv_map newsletter_map AssertionError
     get_by_custom_id Newsletter_objects group data email token api_call_type
     optin w =
   Contacts.upsert_user newsletter_inv_map newsletter_map AssertionError
     get_by_custom_id Newsletter_objects group api_call_type data w) ∧
  (optin ≠ VNone →
   Contacts.update_user newsletter_inv_map newsletter_map AssertionError
     get_by_custom_id Newsletter_objects group data email token api_call_type
     optin w =
   Contacts.update_user newsletter_inv_map newsletter_map AssertionError
     get_by_custom_id Newsletter_objects group (<["optin" := optin]> data)
     email token api_call_type VNone w).
Proof.
  split.
  - intros -> <- <-. reflexivity.
  - intros Hoptin. unfold Contacts.update_user. by destruct optin.
Qed.

End contact_task_facts.

(** ** et_task: errors that are not retried, and the plain return *)

(** An error of a class other than [IOError], [NewsletterException] and
    [ETRestError] is never retried or swallowed, whatever its message and
    however few retries were used: the call re-raises it in the state the
    function left, and the worker ends the job as failed, with a failure
    row when failures are stored and with no retry scheduled. *)
Theorem other_error_is_final (name : string)
    (func : list arg → gmap string arg → M value) (retries : nat)
    (args : list arg) (kwargs : gmap string arg) (w0 w2 : world) (e : exn) :
  Tasks.deferred (MAINTENANCE_MODE w0) name = false →
  func args (delete "start_time" kwargs)
    (logged (submit_events name kwargs) (logged [task_started name retries] w0)) =
    (Raise e, w2) →
  exn_cls e ∉ [IOError; NewsletterException; ETRestError; Retry] →
  Tasks.et_task name func retries args kwargs (logged [task_started name retries] w0) =
    (Raise e, w2) ∧
  ∃ w3, (∀ fuel, Tasks.run_job (S fuel) name func retries args kwargs w0 =
                   (Ok (Some (Tasks.Failed e)), w3)) ∧
        Tasks.countdowns (log w3) = Tasks.countdowns (log w2) ∧
        Tasks.failures (log w3) =
          Tasks.failures (log w2) ++
          (if STORE_TASK_FAILURES w2 then [(name, e)] else []) ∧
        Tasks.deliveries (log w3) = Tasks.deliveries (log w2).
Proof.
  intros Hadm Hrun Hcls.
  assert (Tasks.is_transient e = false ∧ exn_cls e ≠ Retry) as [Ht Hretry].
  { unfold Tasks.is_transient. split.
    - destruct (exn_cls e); try reflexivity; exfalso; apply Hcls;
        repeat first [by left | right].
    - intros Heq. apply Hcls. rewrite Heq. repeat first [by left | right]. }
  assert (Tasks.et_task name func retries args kwargs
            (logged [task_started name retries] w0) = (Raise e, w2)) as Het.
  { rewrite et_task_unfold. cbn [logged MAINTENANCE_MODE]. rewrite Hadm.
    by apply (attempt_unclassified name func retries args _ _ w2 e). }
  split; [exact Het|].
  assert (Tasks.deliver name func retries args kwargs w0 =
            (Ok (Some (Tasks.Failed e)),
             logged ([statsd_incr (name +:+ ".failure");
                      statsd_incr "news.tasks.failure_total"] ++
                     (if STORE_TASK_FAILURES w2
                      then [FailedTask_create name args kwargs e] else [])) w2))
    as Hdeliver.
  { rewrite deliver_unfold, Het. by rewrite bool_decide_eq_false_2. }
  eexists. split; [|split; [|split]].
  - intros fuel. cbn [Tasks.run_job]. unfold bind at 1. rewrite Hdeliver.
    reflexivity.
  - cbn [logged log]. rewrite countdowns_app.
    destruct (STORE_TASK_FAILURES w2); cbn; by rewrite app_nil_r.
  - cbn [logged log]. rewrite failures_app.
    by destruct (STORE_TASK_FAILURES w2).
  - cbn [logged log]. rewrite deliveries_app.
    destruct (STORE_TASK_FAILURES w2); cbn; lia.
Qed.

(** When the function returns, the call returns its value in the state it
    left, and the worker ends the job as succeeded at this delivery: no
    retry is scheduled and no failure row is written. *)
Theorem returned_value_is_success (name : string)
    (func : list arg → gmap string arg → M value) (retries : nat)
    (args : list arg) (kwargs : gmap string arg) (w0 w2 : world) (v : value) :
  Tasks.deferred (MAINTENANCE_MODE w0) name = false →
  func args (delete "start_time" kwargs)
    (logged (submit_events name kwargs) (logged [task_started name retries] w0)) =
    (Ok v, w2) →
  Tasks.et_task name func retries args kwargs (logged [task_started name retries] w0) =
    (Ok v, w2) ∧
  ∃ w3, (∀ fuel, Tasks.run_job (S fuel) name func retries args kwargs w0 =
                   (Ok (Some (Tasks.Succeeded v)), w3)) ∧
        log w3 = log w2 ++ [statsd_incr (name +:+ ".success");
                            statsd_incr "news.tasks.success_total"].
Proof.
  intros Hadm Hrun.
  assert (Tasks.et_task name func retries args kwargs
            (logged [task_started name retries] w0) = (Ok v, w2)) as Het.
  { rewrite et_task_unfold. cbn [logged MAINTENANCE_MODE]. rewrite Hadm.
    by apply (attempt_ok name func retries args _ _ w2 v). }
  split; [exact Het|]. eexists. split.
  - intros fuel. cbn [Tasks.run_job]. unfold bind at 1.
    rewrite deliver_unfold, Het. reflexivity.
  - reflexivity.
Qed.

(** ** to_vendor, and what is written against what is read *)

Lemma INV_FIELD_MAP_Subscriber : Contacts.INV_FIELD_MAP !! "Subscriber__c" = None.
Proof. vm_compute. reflexivity. Qed.

Local Ltac by_cases := repeat split; first [assumption | reflexivity].

Lemma to_vendor_fields (data : gmap string value) (f : string) :
  map_fold (λ k v contact,
              match Sfdc.FIELD_MAP !! k with
              | Some field => <[field := v]> contact
              | None => contact
              end) ({[ "Subscriber__c" := VBool true ]} : gmap string value) data !! f
  = vendor_field data f.
Proof.
  revert f.
  apply (map_fold_weak_ind
           (λ (contact data : gmap string value),
              ∀ f, contact !! f = vendor_field data f)).
  - intros f. unfold vendor_field.
    destruct (Contacts.INV_FIELD_MAP !! f) as [k|] eqn:Hinv.
    + rewrite lookup_empty. apply lookup_singleton_ne. intros <-.
      rewrite INV_FIELD_MAP_Subscriber in Hinv. discriminate Hinv.
    + destruct (decide (f = "Subscriber__c")) as [->|Hne].
      * rewrite lookup_singleton_eq. reflexivity.
      * rewrite lookup_singleton_ne by congruence.
        rewrite bool_decide_eq_false_2 by exact Hne. reflexivity.
  - intros k v m contact Hnew IH f. unfold vendor_field.
    destruct (Sfdc.FIELD_MAP !! k) as [field|] eqn:Hk.
    + destruct (decide (field = f)) as [<-|Hne].
      * rewrite lookup_insert_eq.
        apply INV_FIELD_MAP_spec in Hk. rewrite Hk.
        rewrite lookup_insert_eq. reflexivity.
      * rewrite lookup_insert_ne by exact Hne. rewrite IH. unfold vendor_field.
        destruct (Contacts.INV_FIELD_MAP !! f) as [k'|] eqn:Hinv; [|reflexivity].
        rewrite lookup_insert_ne; [reflexivity|].
        intros <-. apply INV_FIELD_MAP_spec in Hinv. congruence.
    + rewrite IH. unfold vendor_field.
      destruct (Contacts.INV_FIELD_MAP !! f) as [k'|] eqn:Hinv; [|reflexivity].
      rewrite lookup_insert_ne; [reflexivity|].
      intros <-. apply INV_FIELD_MAP_spec in Hinv. congruence.
Qed.

Section vendor_facts.

Variable newsletter_map : gmap string string.

(** The loop that sets the flags stops at the first slug that has no
    field, and sets every flag otherwise. *)
Lemma set_flags_unknown (xs : list (string * bool)) (contact : gmap string value) :
  (∃ s, s ∈ xs.*1 ∧ newsletter_map !! s = None ∧
        fold_result (Sfdc.set_flag newsletter_map) contact xs
          = Raise (Exn KeyError s)) ∨
  (∃ contact', fold_result (Sfdc.set_flag newsletter_map) contact xs = Ok contact' ∧
               ∀ s, s ∈ xs.*1 → is_Some (newsletter_map !! s)).
Proof.
  revert contact. induction xs as [|[s b] xs IH]; intros contact.
  - right. exists contact. split; [reflexivity|].
    intros s Hs. by apply elem_of_nil in Hs.
  - cbn [fold_result].
    change (Sfdc.set_flag newsletter_map contact (s, b))
      with (match newsletter_map !! s with
            | Some field => Ok (<[field := VBool b]> contact)
            | None => Raise (Exn KeyError s)
            end).
    destruct (newsletter_map !! s) as [f|] eqn:Hs.
    + destruct (IH (<[f := VBool b]> contact))
        as [(s' & Hin & Hnone & Hraise)|(contact' & Hok & Hall)].
      * left. exists s'. split; [cbn; by right|by split].
      * right. exists contact'. split; [exact Hok|].
        intros s' [Heq|Hin]%elem_of_cons; [|by apply Hall].
        cbn in Heq. subst s'. by exists f.
    + left. exists s. split; [cbn; by left|by split].
Qed.

(** A slug the request flags that [newsletter_map] does not know makes
    [to_vendor] raise [KeyError], and then [SFDC.add] and [SFDC.update]
    raise without sending anything upstream. *)
Theorem unknown_newsletter_sends_nothing (data record : gmap string value)
    (m : gmap string bool) (s : string) (w : world) :
  data !! "newsletters" = Some (VFlags m) →
  is_Some (m !! s) →
  newsletter_map !! s = None →
  ∃ s', is_Some (m !! s') ∧ newsletter_map !! s' = None ∧
        Sfdc.to_vendor newsletter_map data = Raise (Exn KeyError s') ∧
        Sfdc.add newsletter_map data w = (Raise (Exn KeyError s'), w) ∧
        ∃ e, Sfdc.update newsletter_map record data w = (Raise e, w).
Proof.
  intros Hdata [b Hs] Hnone.
  assert (truthy (VFlags m) = true) as Htruthy.
  { cbn. rewrite bool_decide_eq_false_2; [done|]. intros ->.
    by rewrite lookup_empty in Hs. }
  assert (∃ s', is_Some (m !! s') ∧ newsletter_map !! s' = None ∧
                Sfdc.to_vendor newsletter_map data = Raise (Exn KeyError s'))
    as (s' & Hs' & Hnone' & Hraise).
  { unfold Sfdc.to_vendor. rewrite Hdata, Htruthy.
    match goal with
    | |- context [fold_result _ ?c ?xs] =>
        destruct (set_flags_unknown xs c)
          as [(s' & Hin & Hnone' & Hraise)|(contact' & _ & Hall)]
    end.
    - exists s'. split; [|by split].
      apply list_elem_of_fmap in Hin as ([s0 b0] & -> & Hin).
      apply elem_of_map_to_list in Hin. by exists b0.
    - exfalso. destruct (Hall s) as [f Hf]; [|congruence].
      apply list_elem_of_fmap. exists (s, b). split; [done|].
      by apply elem_of_map_to_list. }
  exists s'. split; [exact Hs'|]. split; [exact Hnone'|]. split; [exact Hraise|].
  split.
  - unfold Sfdc.add, bind, lift. by rewrite Hraise.
  - unfold Sfdc.update, bind, lift, ret, raise. rewrite Hraise.
    destruct (record !! "id"); [by eexists|].
    destruct (record !! "token"); [by eexists|].
    destruct (record !! "email"); by eexists.
Qed.

Variable newsletter_inv_map : gmap string string.

(** The two newsletter tables are each other's inverse, and no newsletter
    field is a field of [FIELD_MAP] or the subscriber flag. *)
Hypothesis inv_of_map : map_Forall (λ s f, newsletter_inv_map !! f = Some s) newsletter_map.
Hypothesis map_of_inv : map_Forall (λ f s, newsletter_map !! s = Some f) newsletter_inv_map.
Hypothesis flags_apart :
  map_Forall (λ s f, Contacts.INV_FIELD_MAP !! f = None ∧ f ≠ "Subscriber__c")
    newsletter_map.

Lemma set_flags_lookup (xs : list (string * bool)) (contact contact' : gmap string value)
    (f : string) :
  NoDup xs.*1 →
  fold_result (Sfdc.set_flag newsletter_map) contact xs = Ok contact' →
  contact' !! f =
    match newsletter_inv_map !! f with
    | Some s =>
        match (list_to_map xs : gmap string bool) !! s with
        | Some b => Some (VBool b)
        | None => contact !! f
        end
    | None => contact !! f
    end.
Proof.
  revert contact. induction xs as [|[s b] xs IH]; intros contact Hnodup.
  - intros [= <-]. cbn [list_to_map foldr].
    destruct (newsletter_inv_map !! f); [by rewrite lookup_empty|reflexivity].
  - cbn [fold_result].
    change (Sfdc.set_flag newsletter_map contact (s, b))
      with (match newsletter_map !! s with
            | Some field => Ok (<[field := VBool b]> contact)
            | None => Raise (Exn KeyError s)
            end).
    destruct (newsletter_map !! s) as [f0|] eqn:Hs; [|intros Hbad; discriminate Hbad].
    apply NoDup_cons in Hnodup as [Hfresh Hnodup].
    intros Hok. rewrite (IH _ Hnodup Hok). cbn [list_to_map foldr].
    pose proof (inv_of_map s f0 Hs) as Hf0.
    destruct (newsletter_inv_map !! f) as [s'|] eqn:Hf.
    + destruct (decide (s' = s)) as [->|Hne].
      * assert (f = f0) as -> by (pose proof (map_of_inv f s Hf); congruence).
        rewrite (not_elem_of_list_to_map_1 _ _ Hfresh).
        rewrite !lookup_insert_eq. reflexivity.
      * rewrite (lookup_insert_ne _ s s') by congruence.
        destruct (list_to_map xs !! s'); [reflexivity|].
        apply lookup_insert_ne. intros ->. congruence.
    + apply lookup_insert_ne. intros ->. congruence.
Qed.

(** Reading back what was written.  For request data whose newsletters are
    a dictionary of flags, as [upsert_contact] makes them: [from_vendor] on
    the contact [to_vendor] built returns every field of [FIELD_MAP] the
    data had (with the default for an empty [format], [country] or [lang]),
    and lists exactly the slugs flagged [True]. *)
Theorem from_vendor_to_vendor (data contact : gmap string value)
    (m : gmap string bool) :
  data !! "newsletters" = Some (VFlags m) →
  Sfdc.to_vendor newsletter_map data = Ok contact →
  (∀ k f, Sfdc.FIELD_MAP !! k = Some f →
          Contacts.from_vendor newsletter_inv_map contact !! k
            = defaulted k <$> data !! k) ∧
  ∃ slugs,
    Contacts.from_vendor newsletter_inv_map contact !! "newsletters"
      = Some (VList slugs) ∧
    ∀ s, s ∈ slugs ↔ m !! s = Some true.
Proof.
  intros Hdata Hvendor.
  assert (∀ f, contact !! f =
               match newsletter_inv_map !! f with
               | Some s =>
                   match m !! s with
                   | Some b => Some (VBool b)
                   | None => vendor_field data f
                   end
               | None => vendor_field data f
               end) as Hcontact.
  { intros f. revert Hvendor. unfold Sfdc.to_vendor. rewrite Hdata.
    destruct (truthy (VFlags m)) eqn:Htruthy.
    - intros Hfold.
      rewrite (set_flags_lookup _ _ _ f (NoDup_fst_map_to_list m) Hfold).
      rewrite list_to_map_to_list, to_vendor_fields. reflexivity.
    - intros [= <-]. rewrite to_vendor_fields.
      assert (m = ∅) as ->.
      { cbn in Htruthy. apply negb_false_iff in Htruthy.
        by apply bool_decide_eq_true in Htruthy. }
      destruct (newsletter_inv_map !! f); [by rewrite lookup_empty|reflexivity]. }
  split.
  - intros k f Hk.
    rewrite (from_vendor_fields newsletter_inv_map contact k), Hk, Hcontact.
    2: { intros ->. by rewrite FIELD_MAP_no_newsletters in Hk. }
    apply INV_FIELD_MAP_spec in Hk as Hinv.
    destruct (newsletter_inv_map !! f) as [s|] eqn:Hf.
    + pose proof (map_of_inv f s Hf) as Hs.
      destruct (flags_apart s f Hs) as [Hnone _]. congruence.
    + unfold vendor_field. rewrite Hinv. reflexivity.
  - destruct (from_vendor_newsletters newsletter_inv_map contact)
      as (slugs & Hlist & Hslugs).
    exists slugs. split; [exact Hlist|]. intros s. rewrite Hslugs. split.
    + intros (fn & fv & Hfn & Hnone & Hinv & Htruthy).
      rewrite Hcontact, Hinv in Hfn.
      destruct (m !! s) as [b|] eqn:Hm.
      * injection Hfn as <-. cbn in Htruthy. by rewrite Htruthy.
      * exfalso. unfold vendor_field in Hfn. rewrite Hnone in Hfn.
        destruct (decide (fn = "Subscriber__c")) as [Hsub|Hsub];
          [|rewrite (bool_decide_eq_false_2 _ Hsub) in Hfn; discriminate Hfn].
        pose proof (map_of_inv fn s Hinv) as Hs.
        destruct (flags_apart s fn Hs) as [_ Hneq]. by apply Hneq.
    + intros Hm.
      assert (is_Some (newsletter_map !! s)) as [f Hf].
      { revert Hvendor. unfold Sfdc.to_vendor. rewrite Hdata.
        assert (truthy (VFlags m) = true) as ->.
        { cbn. rewrite bool_decide_eq_false_2; [done|]. intros ->.
          by rewrite lookup_empty in Hm. }
        match goal with
        | |- context [fold_result _ ?c ?xs] =>
            destruct (set_flags_unknown xs c)
              as [(s' & _ & _ & ->)|(contact' & _ & Hall)]
        end; [intros Hbad; discriminate Hbad|].
        intros _. apply Hall. apply list_elem_of_fmap. exists (s, true).
        split; [done|]. by apply elem_of_map_to_list. }
      pose proof (inv_of_map s f Hf) as Hinv.
      destruct (flags_apart s f Hf) as [Hnone _].
      exists f, (VBool true). rewrite Hcontact, Hinv, Hm. by_cases.
Qed.

End vendor_facts.

(** ** Messages through the mail service *)

Section send_message_facts.

Variable message_id : string.
Variable email token format : value.

Lemma send_mail_unfold (cl : Sfmc.client) :
  Sfmc.send_mail message_id email token format cl =
    (match Sfmc.answer cl (length (Sfmc.calls cl))
             (mail_request message_id email token format) with
     | Ok resp =>
         if Sfmc.status resp then Ok tt
         else Raise (Exn NewsletterException (Sfmc.results resp))
     | Raise e => Raise e
     end,
     Sfmc.Client (Sfmc.answer cl)
       (Sfmc.calls cl ++ [mail_request message_id email token format])).
Proof.
  unfold Sfmc.send_mail, Sfmc.send, Sfmc.assert_response, bind, ret, raise.
  fold (mail_request message_id email token format).
  destruct (Sfmc.answer cl _ _) as [resp|e]; [|reflexivity].
  by destruct (Sfmc.status resp).
Qed.

(** What [send_message] raised, if the send was not a success. *)
Lemma send_message_cases (d : Mailing.desk) :
  Mailing.send_message message_id email token format d =
    if bool_decide (message_id ∈ Mailing.BAD_MESSAGE_ID_CACHE d) then (Ok VNone, d)
    else
      let d1 := requested (mail_request message_id email token format) d in
      match
        match next_answer (mail_request message_id email token format) d with
        | Ok resp =>
            if Sfmc.status resp then None
            else Some (Exn NewsletterException (Sfmc.results resp))
        | Raise e => Some e
        end
      with
      | None => (Ok VNone, d1)
      | Some e =>
          if bool_decide (exn_cls e = NewsletterException) &&
             Py.contains "Invalid Customer Key" (exn_msg e)
          then (Ok VNone, (Mailing.cache_bad message_id d1).2)
          else (Raise e, d1)
      end.
Proof.
  unfold Mailing.send_message.
  destruct (bool_decide (message_id ∈ Mailing.BAD_MESSAGE_ID_CACHE d)); [reflexivity|].
  unfold try_except, bind, Mailing.in_sfmc, ret, raise, next_answer, requested.
  rewrite send_mail_unfold. cbv zeta.
  destruct (Sfmc.answer _ _ _) as [resp|e].
  - destruct (Sfmc.status resp); [reflexivity|].
    cbn [exn_cls exn_msg]. rewrite bool_decide_eq_true_2 by reflexivity.
    cbn [andb].
    by destruct (Py.contains "Invalid Customer Key" (Sfmc.results resp)).
  - destruct (bool_decide (exn_cls e = NewsletterException)); cbn [andb];
      [|reflexivity].
    by destruct (Py.contains "Invalid Customer Key" (exn_msg e)).
Qed.

(** One call of [send_message].  For an id in the cache of bad ids nothing
    is sent and nothing changes.  Otherwise exactly one triggered send goes
    out, for the message id, to the address, keyed by the token, as HTML
    exactly when the format is ['H'].  A failed answer whose text has
    ['Invalid Customer Key'] puts the id in the cache and the call returns;
    any other failed answer is raised as a [NewsletterException], which the
    task wrapper retries; what the library itself raises goes through,
    unless it is a [NewsletterException] with that text. *)
Theorem send_message_outcomes (d : Mailing.desk) :
  let out := Mailing.send_message message_id email token format d in
  let request := mail_request message_id email token format in
  let raised :=
    match next_answer request d with
    | Ok resp =>
        if Sfmc.status resp then None
        else Some (Exn NewsletterException (Sfmc.results resp))
    | Raise e => Some e
    end in
  if bool_decide (message_id ∈ Mailing.BAD_MESSAGE_ID_CACHE d) then out = (Ok VNone, d)
  else
    Sfmc.calls (Mailing.sfmc out.2) = Sfmc.calls (Mailing.sfmc d) ++ [request] ∧
    Mailing.delayed out.2 = Mailing.delayed d ∧
    Mailing.base out.2 = Mailing.base d ∧
    match raised with
    | None =>
        out.1 = Ok VNone ∧
        Mailing.BAD_MESSAGE_ID_CACHE out.2 = Mailing.BAD_MESSAGE_ID_CACHE d
    | Some e =>
        if bool_decide (exn_cls e = NewsletterException) &&
           Py.contains "Invalid Customer Key" (exn_msg e)
        then out.1 = Ok VNone ∧
             Mailing.BAD_MESSAGE_ID_CACHE out.2 =
               {[ message_id ]} ∪ Mailing.BAD_MESSAGE_ID_CACHE d
        else out.1 = Raise e ∧
             Mailing.BAD_MESSAGE_ID_CACHE out.2 = Mailing.BAD_MESSAGE_ID_CACHE d ∧
             (exn_cls e = NewsletterException → Tasks.is_transient e = true)
    end.
Proof.
  cbv zeta. rewrite send_message_cases.
  destruct (bool_decide (message_id ∈ Mailing.BAD_MESSAGE_ID_CACHE d)); [reflexivity|].
  cbv zeta.
  destruct (match next_answer _ d with Ok _ => _ | Raise _ => _ end) as [e|];
    [|by_cases].
  destruct (_ && _); [by_cases|].
  repeat split. intros Heq. unfold Tasks.is_transient. by rewrite Heq.
Qed.

End send_message_facts.

Lemma sends_of_app (id : string) (a b : list Sfmc.call) :
  Mailing.sends_of id (a ++ b) = Mailing.sends_of id a ++ Mailing.sends_of id b.
Proof. apply omap_app. Qed.

(** A call of [send_message] keeps the cache of bad ids, or adds its own
    id; it sends nothing for an id in the cache, and nothing for any id but
    its own. *)
Lemma send_message_step (id : string) (m : Mailing.message) (d : Mailing.desk) :
  let d' := (Mailing.send_message (Mailing.message_id m) (Mailing.to_email m)
               (Mailing.to_token m) (Mailing.in_format m) d).2 in
  id ∈ Mailing.BAD_MESSAGE_ID_CACHE d →
  id ∈ Mailing.BAD_MESSAGE_ID_CACHE d' ∧
  Mailing.sends_of id (Sfmc.calls (Mailing.sfmc d')) =
    Mailing.sends_of id (Sfmc.calls (Mailing.sfmc d)).
Proof.
  cbv zeta. intros Hbad. rewrite send_message_cases.
  destruct (decide (Mailing.message_id m ∈ Mailing.BAD_MESSAGE_ID_CACHE d))
    as [Hin|Hout].
  - by rewrite (bool_decide_eq_true_2 _ Hin).
  - rewrite (bool_decide_eq_false_2 _ Hout). cbv zeta.
    assert (Mailing.sends_of id
              (Sfmc.calls (Mailing.sfmc d) ++
               [mail_request (Mailing.message_id m) (Mailing.to_email m)
                  (Mailing.to_token m) (Mailing.in_format m)]) =
            Mailing.sends_of id (Sfmc.calls (Mailing.sfmc d))) as Hsame.
    { rewrite sends_of_app. cbn.
      rewrite bool_decide_eq_false_2; [apply app_nil_r|].
      intros Heq. apply Hout. by rewrite Heq. }
    destruct (match next_answer _ d with Ok _ => _ | Raise _ => _ end) as [e|];
      [destruct (_ && _)|]; cbn; (split; [|exact Hsame]);
      try exact Hbad.
    apply elem_of_union. by right.
Qed.

Lemma cached_id_never_sent (id : string) (later : list Mailing.message)
    (d : Mailing.desk) :
  id ∈ Mailing.BAD_MESSAGE_ID_CACHE d →
  id ∈ Mailing.BAD_MESSAGE_ID_CACHE (Mailing.run_sends later d) ∧
  Mailing.sends_of id (Sfmc.calls (Mailing.sfmc (Mailing.run_sends later d))) =
    Mailing.sends_of id (Sfmc.calls (Mailing.sfmc d)).
Proof.
  revert d. induction later as [|m later IH]; intros d Hbad; [done|].
  cbn [Mailing.run_sends foldl].
  destruct (send_message_step id m d Hbad) as [Hbad' Hsame].
  destruct (IH _ Hbad') as [Hbad'' Hsame'].
  split; [exact Hbad''|]. unfold Mailing.run_sends in Hsame'. by rewrite Hsame'.
Qed.

(** A message id that was answered once with ['Invalid Customer Key'] is
    not sent again: the call that got the answer returns normally, and
    whatever calls of [send_message] follow in the process, for this id or
    others, the requests for this id stay the ones up to that answer.  The
    cache is taken to keep what it was given. *)
Theorem bad_message_id_not_sent_again (message_id : string)
    (email token format : value) (d : Mailing.desk) (resp : Sfmc.response)
    (later : list Mailing.message) :
  let request := mail_request message_id email token format in
  let out := Mailing.send_message message_id email token format d in
  message_id ∉ Mailing.BAD_MESSAGE_ID_CACHE d →
  next_answer request d = Ok resp →
  Sfmc.status resp = false →
  Py.contains "Invalid Customer Key" (Sfmc.results resp) = true →
  out.1 = Ok VNone ∧
  Mailing.sends_of message_id
    (Sfmc.calls (Mailing.sfmc (Mailing.run_sends later out.2))) =
    Mailing.sends_of message_id (Sfmc.calls (Mailing.sfmc d)) ++ [request].
Proof.
  cbv zeta. intros Hfresh Hanswer Hstatus Htext.
  rewrite send_message_cases, (bool_decide_eq_false_2 _ Hfresh).
  cbv zeta. rewrite Hanswer, Hstatus. cbn [exn_cls exn_msg].
  rewrite bool_decide_eq_true_2 by reflexivity.
  rewrite Htext. cbn [andb fst snd].
  split; [reflexivity|].
  match goal with
  | |- context [Mailing.run_sends later ?d1] =>
      destruct (cached_id_never_sent message_id later d1) as [_ ->]
  end.
  - cbn. apply elem_of_union. left. by apply elem_of_singleton.
  - unfold Mailing.cache_bad, requested. cbn [snd Mailing.sfmc Sfmc.calls].
    rewrite sends_of_app. f_equal.
    cbn. by rewrite bool_decide_eq_true_2.
Qed.

(** ** The confirmation notice *)

Section confirm_notice_facts.

Variable is_supported_newsletter_language : string → bool.
Variable Newsletter_objects : list Mailing.Newsletter.

(** [send_confirm_notice] uses English when no language is given.  In an
    unsupported language it raises [BasketError], which is not retried, and
    queues nothing.  Otherwise it queues exactly one message, to the given
    address, token and format: the confirmation message of a requested
    newsletter that has one of its own (the first in the table), or
    [confirmation_email] when none of the requested newsletters has one,
    with the language and format worked into the id. *)
Theorem send_confirm_notice_spec (email token : value) (lang : option string)
    (format : string) (newsletter_slugs : list string) (w : world) :
  let lang' :=
    match lang with
    | Some l => if bool_decide (l = "") then "en" else l
    | None => "en"
    end in
  let out := Mailing.send_confirm_notice is_supported_newsletter_language
               Newsletter_objects email token lang format newsletter_slugs w in
  if is_supported_newsletter_language lang' then
    ∃ welcome,
      out = (Ok tt,
             logged [send_message_delay
                       (Tasks.mogrify_message_id welcome (Some lang') format)
                       email token format] w) ∧
      ((∃ nl, nl ∈ Newsletter_objects ∧
              Tasks.slug (Mailing.columns nl) ∈ newsletter_slugs ∧
              Mailing.confirm_message nl = welcome ∧ welcome ≠ "") ∨
       (welcome = Mailing.CONFIRMATION_MESSAGE ∧
        ∀ nl, nl ∈ Newsletter_objects →
              Tasks.slug (Mailing.columns nl) ∈ newsletter_slugs →
              Mailing.confirm_message nl = ""))
  else
    ∃ e, out = (Raise e, w) ∧ exn_cls e = BasketError ∧
         Tasks.is_transient e = false ∧
         exn_msg e =
           "Cannot send confirmation in unsupported language '" +:+ lang' +:+ "'.".
Proof.
  cbv zeta. unfold Mailing.send_confirm_notice.
  destruct (is_supported_newsletter_language _); cbn [negb].
  2: { eexists. split; [reflexivity|]. by_cases. }
  destruct (filter (λ nl, Mailing.confirm_message nl ≠ "")
              (filter (λ nl, Tasks.slug (Mailing.columns nl) ∈ newsletter_slugs)
                 Newsletter_objects)) as [|nl rest] eqn:Hfilter.
  - exists Mailing.CONFIRMATION_MESSAGE. cbn [take].
    split; [unfold emit; by rewrite emit_to_logged|].
    right. split; [reflexivity|]. intros nl Hnl Hslug.
    destruct (decide (Mailing.confirm_message nl = "")) as [|Hne]; [done|].
    exfalso. eapply not_elem_of_nil. rewrite <- Hfilter.
    apply list_elem_of_filter. split; [exact Hne|].
    apply list_elem_of_filter. by split.
  - exists (Mailing.confirm_message nl). cbn [take].
    split; [unfold emit; by rewrite emit_to_logged|].
    left. exists nl.
    assert (nl ∈ nl :: rest) as Hin by left. rewrite <- Hfilter in Hin.
    apply list_elem_of_filter in Hin as [Hne Hin].
    apply list_elem_of_filter in Hin as [Hslug Hin].
    by_cases.
Qed.

End confirm_notice_facts.

(** ** The recovery message *)

Section recovery_facts.

Variable EXACTTARGET_DATA : string.
Variable RECOVER_MSG_LANGS : list string.
Variable newsletter_inv_map : gmap string string.
Variable AssertionError : string → exn.
Variable get_by_custom_id : string → value → Contacts.fetched (gmap string value).

(** [send_recovery_message_task]: for an address that is not known nothing
    is sent.  For a known contact one row is upserted, with the contact's
    token, the address stored upstream and a format that is never empty;
    and only when that succeeded one recovery message is queued, to the
    address that was asked for, in a language of [RECOVER_MSG_LANGS] or
    else in English.  The world of the other tasks, the cache of bad ids
    and the notices are left alone. *)
Theorem send_recovery_message_task_effects (email : value) (d : Mailing.desk) :
  let out := Mailing.send_recovery_message_task EXACTTARGET_DATA RECOVER_MSG_LANGS
               newsletter_inv_map AssertionError get_by_custom_id email d in
  let looked_up :=
    Contacts.get_user_data newsletter_inv_map AssertionError get_by_custom_id
      VNone email in
  match looked_up with
  | Raise e => out = (Raise e, d)
  | Ok None => out = (Ok VNone, d)
  | Ok (Some user) =>
      match user !! "token", user !! "email" with
      | Some token, Some address =>
          ∃ lang format,
            truthy format = true ∧
            (lang ∈ RECOVER_MSG_LANGS ∨ lang = "en") ∧
            let row :=
              Sfmc.row_patch EXACTTARGET_DATA
                {[ "TOKEN" := token; "EMAIL_ADDRESS_" := address;
                   "EMAIL_FORMAT_" := format ]} true in
            match next_answer row d with
            | Ok resp =>
                if Sfmc.status resp then
                  out =
                    (Ok VNone,
                     (Mailing.delay
                        (Mailing.Message
                           (Tasks.mogrify_message_id Mailing.RECOVERY_MESSAGE_ID
                              (Some lang) (Mailing.format_key format))
                           email token format) (requested row d)).2)
                else
                  out = (Raise (Exn NewsletterException (Sfmc.results resp)),
                         requested row d)
            | Raise e => out = (Raise e, requested row d)
            end
      | _, _ => ∃ k, out = (Raise (Exn KeyError k), d)
      end
  end.
Proof.
  cbv zeta.
  remember (Mailing.send_recovery_message_task _ _ _ _ _ _ _) as out eqn:Hout.
  unfold Mailing.send_recovery_message_task, Mailing.item, bind, lift, ret, raise
    in Hout.
  destruct (Contacts.get_user_data _ _ _ _ _) as [[user|]|e] eqn:Hget;
    [|exact Hout|exact Hout].
  rewrite (get_user_data_truthy _ _ _ _ _ _ Hget) in Hout. cbn [negb] in Hout.
  destruct (user !! "token") as [token|]; [|by eexists].
  destruct (user !! "email") as [address|]; [|by eexists].
  set (format := Contacts.py_or (default (VStr "H") (user !! "format")) (VStr "H"))
    in Hout.
  set (lang := match Contacts.py_or (default (VStr "en") (user !! "lang")) (VStr "en")
               with
               | VStr l => if Py.mem l RECOVER_MSG_LANGS then l else "en"
               | _ => "en"
               end) in Hout.
  exists lang, format. split; [|split].
  - subst format. unfold Contacts.py_or.
    by destruct (truthy (default (VStr "H") (user !! "format"))) eqn:Ht.
  - subst lang.
    destruct (Contacts.py_or (default (VStr "en") (user !! "lang")) (VStr "en"))
      as [|b|l|n|ls|m]; try (by right).
    unfold Py.mem. destruct (decide (l ∈ RECOVER_MSG_LANGS)) as [Hin|Hout'].
    + rewrite (bool_decide_eq_true_2 _ Hin). by left.
    + rewrite (bool_decide_eq_false_2 _ Hout'). by right.
  - cbv zeta. rewrite Hout.
    unfold Mailing.in_sfmc, Sfmc.upsert_row, Sfmc.send, Sfmc.assert_response,
      bind, ret, raise, next_answer, requested, Mailing.delay.
    destruct (Sfmc.answer _ _ _) as [resp|e]; [|reflexivity].
    by destruct (Sfmc.status resp).
Qed.

End recovery_facts.

(** ** update_get_involved *)

Section get_involved_facts.

Variable Newsletter_objects : list Mailing.Newsletter.
Variable Interest_objects : value → option Mailing.Interest.
Variable EXACTTARGET_DATA EXACTTARGET_INTERESTS : string.
Variable newsletter_inv_map : gmap string string.
Variable AssertionError : string → exn.
Variable get_by_custom_id : string → value → Contacts.fetched (gmap string value).

(** With [subscribe] set, [update_get_involved] never gets to its writes:
    for an interest that exists it raises (the [TypeError] of the call of
    [parse_newsletters] with four arguments, unless the lookup of the
    contact failed or the contact has no token), and for one that does not
    exist it returns at once.  No row is upserted, no message is queued, no
    steward is notified and no welcome is sent. *)
Theorem update_get_involved_subscribe (interest_id : value) (lang : option string)
    (name email country : value) (email_format : string)
    (subscribe message source_url : value) (d : Mailing.desk) :
  truthy subscribe = true →
  let out :=
    Mailing.update_get_involved Newsletter_objects Interest_objects
      EXACTTARGET_DATA EXACTTARGET_INTERESTS newsletter_inv_map AssertionError
      get_by_custom_id interest_id lang name email country email_format
      subscribe message source_url d in
  (Mailing.sfmc out.2 = Mailing.sfmc d ∧
   Mailing.delayed out.2 = Mailing.delayed d ∧
   Mailing.notified out.2 = Mailing.notified d ∧
   Mailing.BAD_MESSAGE_ID_CACHE out.2 = Mailing.BAD_MESSAGE_ID_CACHE d ∧
   log (Mailing.base out.2) = log (Mailing.base d)) ∧
  match Interest_objects interest_id with
  | None => out = (Ok VNone, d)
  | Some _ =>
      match Contacts.get_user_data newsletter_inv_map AssertionError
              get_by_custom_id VNone email with
      | Raise e => out = (Raise e, d)
      | Ok None =>
          out.1 = Raise (Exn TypeError
                           "parse_newsletters() takes exactly 3 arguments (4 given)")
      | Ok (Some user) =>
          out.1 = Raise (match user !! "token" with
                         | Some _ =>
                             Exn TypeError
                               "parse_newsletters() takes exactly 3 arguments (4 given)"
                         | None => Exn KeyError "token"
                         end)
      end
  end.
Proof.
  intros Hsub. cbv zeta.
  remember (Mailing.update_get_involved _ _ _ _ _ _ _ _ _ _ _ _ _ _ _ _ _)
    as out eqn:Hout.
  unfold Mailing.update_get_involved in Hout.
  destruct (Interest_objects interest_id) as [interest|]; [|subst out; by_cases].
  unfold bind, lift, ret, raise, Mailing.gmttime, Mailing.in_world, generate_token,
    Mailing.item in Hout.
  rewrite Hsub in Hout.
  destruct (Contacts.get_user_data _ _ _ _ _) as [[user|]|e] eqn:Hget.
  - destruct (get_user_data_newsletters _ _ _ _ _ _ Hget) as [slugs Hslugs].
    cbn [from_option id] in Hout.
    rewrite (get_user_data_truthy _ _ _ _ _ _ Hget) in Hout.
    rewrite Hslugs in Hout.
    cbn [from_option id Mailing.py_in Tasks.as_slugs] in Hout.
    destruct (user !! "token") as [token|]; [|subst out; by_cases].
    destruct (Py.mem "get-involved" slugs); cbn in Hout; subst out; by_cases.
  - cbn in Hout. subst out. by_cases.
  - subst out. by_cases.
Qed.

Local Ltac both_upserts H :=
  repeat match type of H with
         | context [match Sfmc.answer ?a ?n ?c with Ok _ => _ | Raise _ => _ end] =>
             destruct (Sfmc.answer a n c) as [?resp|?e];
             [destruct (Sfmc.status _)|]; cbn in H
         end.

(** Without [subscribe], a call of [update_get_involved] that returns has
    upserted two rows, the contact's and the interest's, under one token;
    queued the interest's welcome message in the format ['T'] or ['H']; and
    notified the stewards once.  The token is the one of the contact that
    was found, or a fresh one; the welcomes of [send_welcomes] are never
    sent. *)
Theorem update_get_involved_writes (interest_id : value) (lang : option string)
    (name email country : value) (email_format : string)
    (subscribe message source_url : value) (d : Mailing.desk)
    (interest : Mailing.Interest) (v : value) :
  truthy subscribe = false →
  Interest_objects interest_id = Some interest →
  let fmt := if Py.startswith (Py.upper email_format) "T" then "T" else "H" in
  let out :=
    Mailing.update_get_involved Newsletter_objects Interest_objects
      EXACTTARGET_DATA EXACTTARGET_INTERESTS newsletter_inv_map AssertionError
      get_by_custom_id interest_id lang name email country email_format
      subscribe message source_url d in
  out.1 = Ok v →
  ∃ token record,
    v = VNone ∧
    Sfmc.calls (Mailing.sfmc out.2) =
      Sfmc.calls (Mailing.sfmc d) ++
      [ Sfmc.row_patch EXACTTARGET_DATA record true;
        Sfmc.row_patch EXACTTARGET_INTERESTS
          {[ "TOKEN" := token; "INTEREST" := interest_id ]} true ] ∧
    record !! "TOKEN" = Some token ∧
    record !! "EMAIL_ADDRESS_" = Some email ∧
    record !! "GET_INVOLVED_FLG" = Some (VStr "Y") ∧
    Mailing.delayed out.2 =
      Mailing.delayed d ++
      [ Mailing.Message
          (Tasks.mogrify_message_id (Mailing.welcome_id interest) lang fmt)
          email token (VStr fmt) ] ∧
    Mailing.notified out.2 =
      Mailing.notified d ++
      [ Mailing.Notice interest_id name email (Mailing.lang_value lang) message ] ∧
    log (Mailing.base out.2) = log (Mailing.base d) ∧
    match Contacts.get_user_data newsletter_inv_map AssertionError
            get_by_custom_id VNone email with
    | Ok (Some user) =>
        user !! "token" = Some token ∧
        minted (Mailing.base out.2) = minted (Mailing.base d)
    | _ =>
        token = VStr (uuid4 (Mailing.base d) (minted (Mailing.base d))) ∧
        minted (Mailing.base out.2) = S (minted (Mailing.base d)) ∧
        record !! "EMAIL_FORMAT_" = Some (VStr fmt)
    end.
Proof.
  intros Hsub Hinterest. cbv zeta.
  remember (Mailing.update_get_involved _ _ _ _ _ _ _ _ _ _ _ _ _ _ _ _ _)
    as out eqn:Hout.
  unfold Mailing.update_get_involved in Hout. rewrite Hinterest in Hout.
  unfold bind, lift, ret, raise, Mailing.gmttime, Mailing.in_world, generate_token,
    Mailing.item, Mailing.apply_updates, Mailing.in_sfmc, Sfmc.upsert_row,
    Sfmc.send, Sfmc.assert_response, Mailing.delay, Mailing.notify_stewards,
    bind, ret, raise in Hout.
  rewrite Hsub in Hout.
  destruct (Contacts.get_user_data _ _ _ _ _) as [[user|]|e] eqn:Hget.
  - destruct (get_user_data_newsletters _ _ _ _ _ _ Hget) as [slugs Hslugs].
    cbn [from_option id] in Hout.
    rewrite (get_user_data_truthy _ _ _ _ _ _ Hget) in Hout.
    rewrite Hslugs in Hout.
    cbn [from_option id Mailing.py_in] in Hout.
    destruct (user !! "token") as [token|] eqn:Htoken;
      [|subst out; intros Hv; discriminate Hv].
    destruct (Py.mem "get-involved" slugs); cbn in Hout; both_upserts Hout;
      subst out; cbn; intros Hv; try discriminate Hv;
      injection Hv as <-; eexists _, _; rewrite <- ?app_assoc; by_cases.
  - cbn in Hout. destruct (truthy source_url); both_upserts Hout;
      subst out; cbn; intros Hv; try discriminate Hv;
      injection Hv as <-; eexists _, _; rewrite <- ?app_assoc; by_cases.
  - subst out. intros Hv. discriminate Hv.
Qed.

End get_involved_facts.
(** ** The further properties at sample inputs *)

Lemma parse_newsletters_other_action_witness :
  Utils.parse_newsletters Sample.groups "RESET" ["firefox"]
    (Some ["about-mozilla"]) = ∅.
Proof.
  apply (parse_newsletters_other_action Sample.groups "RESET" ["firefox"]
           (Some ["about-mozilla"])).
  - intros H. discriminate H.
  - intros H. discriminate H.
  - intros H. discriminate H.
Defined.

Lemma mogrify_message_id_laws_witness :
  Tasks.mogrify_message_id "MoCo_Welcome" (Some "FR-fr") "T" =
    Tasks.mogrify_message_id "MoCo_Welcome" (Some "FR-fr") "H" +:+ "_T" ∧
  Tasks.mogrify_message_id "MoCo_Welcome" (Some (Py.lower (Py.take 2 "FR-fr"))) "H" =
    Tasks.mogrify_message_id "MoCo_Welcome" (Some "FR-fr") "H" ∧
  Tasks.mogrify_message_id "MoCo_Welcome" (Some "") "H" = "MoCo_Welcome" ∧
  Tasks.mogrify_message_id "MoCo_Welcome" None "H" = "MoCo_Welcome" ∧
  Py.contains "MoCo_Welcome"
    (Tasks.mogrify_message_id "MoCo_Welcome" (Some "FR-fr") "H") = true.
Proof.
  apply (mogrify_message_id_laws "MoCo_Welcome" "FR-fr" "H").
  intros H. discriminate H.
Defined.

Lemma from_vendor_defaults_witness :
  Store.stored !! "Email_Format__c" = Some VNone ∧
  Contacts.from_vendor Store.newsletter_inv_map Store.stored !! "format"
    = Some (VStr "H") ∧
  truthy (VStr "H") = true.
Proof.
  split; [vm_compute; reflexivity|].
  split; [vm_compute; reflexivity|].
  destruct (from_vendor_defaults Store.newsletter_inv_map Store.stored
              "format" (VStr "H")) as [Hformat _].
  - vm_compute. reflexivity.
  - exact (Hformat eq_refl).
Defined.

Lemma get_user_data_record_witness :
  Store.user !! "status" = Some (VStr "ok") ∧ Store.user !! "id" = None ∧
  ∃ slugs, Store.user !! "newsletters" = Some (VList slugs).
Proof.
  destruct (get_user_data_record Store.newsletter_inv_map Store.AssertionError
              Store.get_by_custom_id VNone (VStr "dude@example.com") Store.user)
    as (Hstatus & Hignored & Hslugs & _).
  - vm_compute. reflexivity.
  - split; [exact Hstatus|]. split; [|exact Hslugs].
    apply Hignored. left.
Defined.

Lemma get_or_create_user_data_result_witness :
  Contacts.get_user_data Store.newsletter_inv_map Store.AssertionError
    Store.get_by_custom_id VNone (VStr "new@example.com") = Ok None ∧
  minted (generate_token Sample.w0).2 = S (minted Sample.w0).
Proof.
  destruct (get_or_create_user_data_result Store.newsletter_inv_map
              Store.AssertionError Store.Exception Store.get_by_custom_id
              VNone (VStr "new@example.com") Sample.w0 (generate_token Sample.w0).2
              (Some (Contacts.new_user (VStr "new@example.com") "uuid-0"))
              (Some true))
    as (_ & _ & Hlooked & _ & Hminted).
  - vm_compute. reflexivity.
  - split; [exact Hlooked | exact Hminted].
Defined.

Lemma other_error_is_final_witness :
  ∃ w3, (∀ fuel, Tasks.run_job (S fuel) "news.tasks.confirm_user" Store.rejected
                   0 [] ∅ Sample.w0 =
                   (Ok (Some (Tasks.Failed (Exn BasketError "User not found"))), w3)) ∧
        Tasks.countdowns (log w3) = [] ∧
        Tasks.failures (log w3) =
          [("news.tasks.confirm_user", Exn BasketError "User not found")] ∧
        Tasks.deliveries (log w3) = 1.
Proof.
  destruct (other_error_is_final "news.tasks.confirm_user" Store.rejected 0 [] ∅
              Sample.w0
              (logged (submit_events "news.tasks.confirm_user" ∅)
                 (logged [task_started "news.tasks.confirm_user" 0] Sample.w0))
              (Exn BasketError "User not found"))
    as (_ & w3 & Hrun & Hc & Hf & Hd).
  - reflexivity.
  - reflexivity.
  - refine (proj1 (bool_decide_eq_false _) _). vm_compute. reflexivity.
  - exists w3. split; [exact Hrun|]. split; [exact Hc|]. split; [exact Hf | exact Hd].
Defined.

Lemma returned_value_is_success_witness :
  ∃ w3, (∀ fuel, Tasks.run_job (S fuel) "news.tasks.confirm_user" Store.done
                   0 [] ∅ Sample.w0 = (Ok (Some (Tasks.Succeeded VNone)), w3)) ∧
        log w3 =
          [task_started "news.tasks.confirm_user" 0;
           statsd_incr "news.tasks.confirm_user.total";
           statsd_incr "news.tasks.all_total";
           statsd_incr "news.tasks.confirm_user.success";
           statsd_incr "news.tasks.success_total"].
Proof.
  destruct (returned_value_is_success "news.tasks.confirm_user" Store.done 0 [] ∅
              Sample.w0
              (logged (submit_events "news.tasks.confirm_user" ∅)
                 (logged [task_started "news.tasks.confirm_user" 0] Sample.w0))
              VNone)
    as (_ & w3 & Hrun & Hlog).
  - reflexivity.
  - reflexivity.
  - exists w3. split; [exact Hrun | exact Hlog].
Defined.

Lemma unknown_newsletter_sends_nothing_witness :
  ∃ s', Sfdc.add Sample.newsletter_map
          {[ "newsletters" := VFlags {[ "no-such-letter" := true ]} ]} Sample.w0 =
          (Raise (Exn KeyError s'), Sample.w0) ∧
        ∃ e, Sfdc.update Sample.newsletter_map Store.user
               {[ "newsletters" := VFlags {[ "no-such-letter" := true ]} ]}
               Sample.w0 = (Raise e, Sample.w0).
Proof.
  destruct (unknown_newsletter_sends_nothing Sample.newsletter_map
              {[ "newsletters" := VFlags {[ "no-such-letter" := true ]} ]}
              Store.user {[ "no-such-letter" := true ]} "no-such-letter" Sample.w0)
    as (s' & _ & _ & _ & Hadd & Hupdate).
  - vm_compute. reflexivity.
  - exists true. vm_compute. reflexivity.
  - vm_compute. reflexivity.
  - exists s'. split; [exact Hadd | exact Hupdate].
Defined.

Lemma from_vendor_to_vendor_witness :
  Contacts.from_vendor Store.newsletter_inv_map Sample.resubscribe_contact !! "email"
    = defaulted "email" <$> Sample.resubscribe_fields !! "email" ∧
  ∃ slugs,
    Contacts.from_vendor Store.newsletter_inv_map Sample.resubscribe_contact
      !! "newsletters" = Some (VList slugs) ∧
    ∀ s, s ∈ slugs ↔
         ({[ "mozilla-and-you" := true ]} : gmap string bool) !! s = Some true.
Proof.
  destruct (from_vendor_to_vendor Sample.newsletter_map Store.newsletter_inv_map)
    with (data := Sample.resubscribe_fields) (contact := Sample.resubscribe_contact)
         (m := ({[ "mozilla-and-you" := true ]} : gmap string bool))
    as (Hfields & Hslugs).
  - refine (bool_decide_unpack _ _). vm_compute. exact I.
  - refine (bool_decide_unpack _ _). vm_compute. exact I.
  - refine (bool_decide_unpack _ _). vm_compute. exact I.
  - vm_compute. reflexivity.
  - vm_compute. reflexivity.
  - split; [|exact Hslugs]. apply (Hfields "email" "Email"). vm_compute. reflexivity.
Defined.

Lemma bad_message_id_not_sent_again_witness :
  (Mailing.send_message "no_such_message" (VStr "new@example.com") (VStr "tok-2")
     (VStr "T") Office.desk0).1 = Ok VNone ∧
  Mailing.sends_of "no_such_message"
    (Sfmc.calls
       (Mailing.sfmc
          (Mailing.run_sends Office.later
             (Mailing.send_message "no_such_message" (VStr "new@example.com")
                (VStr "tok-2") (VStr "T") Office.desk0).2))) =
    [] ++ [mail_request "no_such_message" (VStr "new@example.com") (VStr "tok-2")
             (VStr "T")].
Proof.
  apply (bad_message_id_not_sent_again "no_such_message" (VStr "new@example.com")
           (VStr "tok-2") (VStr "T") Office.desk0
           (Sfmc.Response false "Error: Invalid Customer Key") Office.later).
  - apply not_elem_of_empty.
  - reflexivity.
  - reflexivity.
  - vm_compute. reflexivity.
Defined.

Lemma update_get_involved_subscribe_witness :
  (Mailing.update_get_involved Office.Newsletter_objects Office.Interest_objects
     "Master_Subscribers" "GET_INVOLVED" Store.newsletter_inv_map
     Store.AssertionError Store.get_by_custom_id (VStr "coding") (Some "fr")
     (VStr "Dude") (VStr "dude@example.com") (VStr "fr") "html" (VBool true)
     (VStr "hello") VNone Office.desk0).1 =
    Raise (Exn TypeError "parse_newsletters() takes exactly 3 arguments (4 given)") ∧
  Mailing.sfmc
    (Mailing.update_get_involved Office.Newsletter_objects Office.Interest_objects
       "Master_Subscribers" "GET_INVOLVED" Store.newsletter_inv_map
       Store.AssertionError Store.get_by_custom_id (VStr "coding") (Some "fr")
       (VStr "Dude") (VStr "dude@example.com") (VStr "fr") "html" (VBool true)
       (VStr "hello") VNone Office.desk0).2 = Mailing.sfmc Office.desk0.
Proof.
  destruct (update_get_involved_subscribe Office.Newsletter_objects
              Office.Interest_objects "Master_Subscribers" "GET_INVOLVED"
              Store.newsletter_inv_map Store.AssertionError Store.get_by_custom_id
              (VStr "coding") (Some "fr") (VStr "Dude") (VStr "dude@example.com")
              (VStr "fr") "html" (VBool true) (VStr "hello") VNone Office.desk0)
    as [(Hsfmc & _) Hraised].
  - reflexivity.
  - split; [|exact Hsfmc]. vm_compute in Hraised. vm_compute. exact Hraised.
Defined.

Lemma update_get_involved_writes_witness :
  ∃ token record,
    Sfmc.calls
      (Mailing.sfmc
         (Mailing.update_get_involved Office.Newsletter_objects
            Office.Interest_objects "Master_Subscribers" "GET_INVOLVED"
            Store.newsletter_inv_map Store.AssertionError Store.get_by_custom_id
            (VStr "coding") (Some "fr") (VStr "Dude") (VStr "new@example.com")
            (VStr "fr") "text" VNone (VStr "hello") VNone Office.desk0).2) =
      [] ++
      [ Sfmc.row_patch "Master_Subscribers" record true;
        Sfmc.row_patch "GET_INVOLVED"
          {[ "TOKEN" := token; "INTEREST" := VStr "coding" ]} true ] ∧
    record !! "TOKEN" = Some token ∧
    Mailing.delayed
      (Mailing.update_get_involved Office.Newsletter_objects
         Office.Interest_objects "Master_Subscribers" "GET_INVOLVED"
         Store.newsletter_inv_map Store.AssertionError Store.get_by_custom_id
         (VStr "coding") (Some "fr") (VStr "Dude") (VStr "new@example.com")
         (VStr "fr") "text" VNone (VStr "hello") VNone Office.desk0).2 =
      [] ++
      [ Mailing.Message
          (Tasks.mogrify_message_id "welcome_coding" (Some "fr") "T")
          (VStr "new@example.com") token (VStr "T") ].
Proof.
  destruct (update_get_involved_writes Office.Newsletter_objects
              Office.Interest_objects "Master_Subscribers" "GET_INVOLVED"
              Store.newsletter_inv_map Store.AssertionError Store.get_by_custom_id
              (VStr "coding") (Some "fr") (VStr "Dude") (VStr "new@example.com")
              (VStr "fr") "text" VNone (VStr "hello") VNone Office.desk0
              {| Mailing.welcome_id := "welcome_coding" |} VNone)
    as (token & record & _ & Hcalls & Htoken & _ & _ & Hdelayed & _).
  - reflexivity.
  - reflexivity.
  - vm_compute. reflexivity.
  - exists token, record. split; [exact Hcalls|]. split; [exact Htoken|].
    exact Hdelayed.
Defined.
